(** * Loan pipeline: ingestion and layer promotion

    A shallow embedding of the ingestion script
    [ingest/ingest_excel_to_duckdb.py] and of the pipeline helpers in
    [airflow/utils/pipeline_functions.py] and [airflow/utils/config.py].

    Python functions become state-passing functions over a [World] that
    holds everything the script reads or mutates: spreadsheet sources,
    the snapshot directory, the DuckDB database files, the object store,
    the process environment, the clock, the uuid source and standard
    output.  A raised exception is a result of its own; the world that
    comes with it records every effect performed before the raise, since
    DuckDB commits each statement on its own. *)

From stdpp Require Import gmap strings list fin_maps.
From Stdlib Require Import ZArith NArith Ascii.



(** ** Tabular data *)

(** [datetime.now()] readings. *)
Record datetime := {
  year : nat; month : nat; day : nat;
  hour : nat; minute : nat; second : nat; microsecond : nat
}.

(** A cell of a pandas frame or of a DuckDB relation: a string, a
    number, an instant, or null (NaN / NaT / NULL). *)
Inductive scalar :=
| Null
| Str (s : string)
| Num (z : Z)
| Instant (t : datetime).

Definition is_null (v : scalar) : bool :=
  match v with Null => true | _ => false end.

(** A frame: column labels in order, and rows holding one cell per
    column, by position.  Parquet files and DuckDB tables store the same
    shape. *)
Record DataFrame := {
  columns : list string;
  rows : list (list scalar)
}.

(** [len(df)] and [SELECT COUNT( * )]. *)
Definition n_rows (df : DataFrame) : nat := length (rows df).

Definition n_columns (df : DataFrame) : nat := length (columns df).

(** Position of a label among the columns. *)
Fixpoint index_of (c : string) (cols : list string) : option nat :=
  match cols with
  | [] => None
  | c' :: cols' =>
      if String.eqb c' c then Some 0 else S <$> index_of c cols'
  end.

(** The cell of a row under a label; a label the frame lacks, or a
    short row, reads as null. *)
Definition cell (cols : list string) (row : list scalar) (c : string) : scalar :=
  match index_of c cols with
  | Some i => default Null (row !! i)
  | None => Null
  end.

(** [df[c] = v] with a scalar [v]: an existing column is overwritten in
    place, a new one is added as the last column. *)
Definition set_column (c : string) (v : scalar) (df : DataFrame) : DataFrame :=
  match index_of c (columns df) with
  | Some i =>
      {| columns := columns df;
         rows := (λ r, <[i := v]> r) <$> rows df |}
  | None =>
      {| columns := columns df ++ [c];
         rows := (λ r, r ++ [v]) <$> rows df |}
  end.

(** Column union of [pd.concat] (outer join, [sort=False]): labels in
    order of first appearance. *)
Fixpoint union_columns (acc : list string) (cols : list string) : list string :=
  match cols with
  | [] => acc
  | c :: cols' =>
      if bool_decide (c ∈ acc) then union_columns acc cols'
      else union_columns (acc ++ [c]) cols'
  end.

Definition all_columns (dfs : list DataFrame) : list string :=
  foldl (λ acc df, union_columns acc (columns df)) [] dfs.

(** A row of a frame laid out on the unified columns; a column its frame
    lacks is filled with null. *)
Definition reindex (target : list string) (cols : list string) (row : list scalar)
  : list scalar :=
  (λ c, cell cols row c) <$> target.

Definition reindex_frame (target : list string) (df : DataFrame) : list (list scalar) :=
  reindex target (columns df) <$> rows df.

(** ** Exceptions *)

Inductive duckdb_error :=
| IOException          (* database file cannot be opened, snapshot file missing *)
| InvalidInputException (* snapshot is not a Parquet file *)
| CatalogException     (* table missing, or already there *)
| BinderException.     (* INSERT with a different number of columns *)

Inductive exn :=
| FileNotFoundError (msg : string)
| ValueError (msg : string)
| RuntimeError (msg : string)
| DuckDBError (e : duckdb_error)
| ExcelReadError (path : string)
| S3UploadFailedError (bucket key : string)
| SystemExit (code : nat)
| CalledProcessError (cause : exn).

Inductive result (A : Type) :=
| Returned (a : A)
| Raised (e : exn).
Arguments Returned {A} a.
Arguments Raised {A} e.

(** ** The world *)

Inductive source_file :=
| Spreadsheet (df : DataFrame)
| NotASpreadsheet.

Inductive raw_file :=
| ParquetFile (df : DataFrame)
| Corrupt.

(** A DuckDB database file: its schemas, and its tables under
    (schema, name).  Table names are the plain identifiers the script is
    given; SQL quoting and case folding are outside the model. *)
Record Database := {
  schemas : gset string;
  tables : gmap (string * string) DataFrame
}.

Definition empty_database : Database :=
  {| schemas := ∅; tables := ∅ |}.

Inductive mode := full_refresh | incremental.

Definition mode_str (m : mode) : string :=
  match m with
  | full_refresh => "full_refresh"
  | incremental => "incremental"
  end.

(** Messages written to standard output, one constructor per message;
    the four-line start banner of the script is one message. *)
Inductive line :=
| LoadingSingle (path : string)
| LoadingDirectory (n : nat) (dir : string)
| Processing (name : string)
| ParquetWritten (path : string)
| UploadedToS3 (bucket key : string)
| FullRefreshRecreated (table : string)
| IncrementalCreated (table : string)
| IncrementalAppended (table : string)
| TotalRecords (table : string) (count : nat)
| Starting (m : mode) (table db : string)
| LoadedRecords (n : nat)
| IngestionCompleted
| RunningIngestion (m : string)
| IngestionFailed (e : exn)
| DataCounts (raw silver gold : nat)
| ValidationPassed
| ValidationFailed (e : exn).

Record World := {
  (* spreadsheet side of the file system, read only for the pipeline;
     it is kept apart from the snapshot side: the snapshot directory
     is not one of the directories searched for spreadsheets *)
  sources : gmap string source_file;
  directories : gset string;
  glob : string → string → list string;
  (* snapshot side of the file system *)
  raw_files : gmap string raw_file;
  (* DuckDB database files, and the paths that cannot be opened *)
  databases : gmap string Database;
  unreachable : gset string;
  (* optional modules *)
  pyarrow : bool;
  boto3 : bool;
  (* object store: the buckets the credentials can write to *)
  buckets : gmap string (gmap string raw_file);
  (* process environment *)
  environ : gmap string string;
  (* readings of datetime.now() and uuid.uuid4(), and how many were taken *)
  clock : nat → datetime;
  ticks : nat;
  uuids : nat → N;
  draws : nat;
  stdout : list line
}.

Definition with_directories (f : gset string → gset string) (w : World) : World :=
  {| sources := sources w; directories := f (directories w); glob := glob w;
     raw_files := raw_files w; databases := databases w;
     unreachable := unreachable w; pyarrow := pyarrow w; boto3 := boto3 w;
     buckets := buckets w; environ := environ w; clock := clock w;
     ticks := ticks w; uuids := uuids w; draws := draws w; stdout := stdout w |}.

Definition with_raw_files (f : gmap string raw_file → gmap string raw_file)
  (w : World) : World :=
  {| sources := sources w; directories := directories w; glob := glob w;
     raw_files := f (raw_files w); databases := databases w;
     unreachable := unreachable w; pyarrow := pyarrow w; boto3 := boto3 w;
     buckets := buckets w; environ := environ w; clock := clock w;
     ticks := ticks w; uuids := uuids w; draws := draws w; stdout := stdout w |}.

Definition with_databases (f : gmap string Database → gmap string Database)
  (w : World) : World :=
  {| sources := sources w; directories := directories w; glob := glob w;
     raw_files := raw_files w; databases := f (databases w);
     unreachable := unreachable w; pyarrow := pyarrow w; boto3 := boto3 w;
     buckets := buckets w; environ := environ w; clock := clock w;
     ticks := ticks w; uuids := uuids w; draws := draws w; stdout := stdout w |}.

Definition with_buckets
  (f : gmap string (gmap string raw_file) → gmap string (gmap string raw_file))
  (w : World) : World :=
  {| sources := sources w; directories := directories w; glob := glob w;
     raw_files := raw_files w; databases := databases w;
     unreachable := unreachable w; pyarrow := pyarrow w; boto3 := boto3 w;
     buckets := f (buckets w); environ := environ w; clock := clock w;
     ticks := ticks w; uuids := uuids w; draws := draws w; stdout := stdout w |}.

Definition with_ticks (f : nat → nat) (w : World) : World :=
  {| sources := sources w; directories := directories w; glob := glob w;
     raw_files := raw_files w; databases := databases w;
     unreachable := unreachable w; pyarrow := pyarrow w; boto3 := boto3 w;
     buckets := buckets w; environ := environ w; clock := clock w;
     ticks := f (ticks w); uuids := uuids w; draws := draws w; stdout := stdout w |}.

Definition with_draws (f : nat → nat) (w : World) : World :=
  {| sources := sources w; directories := directories w; glob := glob w;
     raw_files := raw_files w; databases := databases w;
     unreachable := unreachable w; pyarrow := pyarrow w; boto3 := boto3 w;
     buckets := buckets w; environ := environ w; clock := clock w;
     ticks := ticks w; uuids := uuids w; draws := f (draws w); stdout := stdout w |}.

Definition with_stdout (f : list line → list line) (w : World) : World :=
  {| sources := sources w; directories := directories w; glob := glob w;
     raw_files := raw_files w; databases := databases w;
     unreachable := unreachable w; pyarrow := pyarrow w; boto3 := boto3 w;
     buckets := buckets w; environ := environ w; clock := clock w;
     ticks := ticks w; uuids := uuids w; draws := draws w; stdout := f (stdout w) |}.

(** ** Computations that may raise *)

Definition Py (A : Type) : Type := World → World * result A.

Definition ret {A} (a : A) : Py A := λ w, (w, Returned a).

Definition raise {A} (e : exn) : Py A := λ w, (w, Raised e).

Definition bind {A B} (c : Py A) (k : A → Py B) : Py B :=
  λ w, match c w with
       | (w', Returned a) => k a w'
       | (w', Raised e) => (w', Raised e)
       end.

Notation "x <- c ;; k" := (bind c (λ x, k))
  (at level 100, c at next level, right associativity).
Notation "c ;;; k" := (bind c (λ _, k))
  (at level 100, right associativity).

Definition reading {A} (f : World → A) : Py A := λ w, (w, Returned (f w)).

Definition update (f : World → World) : Py unit := λ w, (f w, Returned tt).

(** [print(...)] appends one line to standard output. *)
Definition say (l : line) (w : World) : World := with_stdout (λ out, out ++ [l]) w.

Definition print (l : line) : Py unit := update (say l).

(** [try: body except E as e: handler(e); raise] *)
Definition try_reraise {A} (body : Py A) (handler : exn → Py unit) : Py A :=
  λ w, match body w with
       | (w', Returned a) => (w', Returned a)
       | (w', Raised e) =>
           match handler e w' with
           | (w'', Returned _) => (w'', Raised e)
           | (w'', Raised e') => (w'', Raised e')
           end
       end.

(** ** DuckDB statements *)

(** A connection is named by the path of the database file it is open
    on; every statement commits on its own. *)
Definition connection := string.

Definition database_at (w : World) (con : connection) : Database :=
  default empty_database (databases w !! con).

Definition table_at (w : World) (con : connection) (schema name : string)
  : option DataFrame :=
  tables (database_at w con) !! (schema, name).

(** [duckdb.connect(database=path, read_only=False)]: a missing file is
    created empty, a file that cannot be opened raises. *)
Definition set_database (con : connection) (d : Database) (w : World) : World :=
  with_databases <[con := d]> w.

Definition connect (path : string) : Py connection :=
  λ w, if bool_decide (path ∈ unreachable w)
       then (w, Raised (DuckDBError IOException))
       else (set_database path (database_at w path) w, Returned path).

Definition with_tables
  (f : gmap (string * string) DataFrame → gmap (string * string) DataFrame)
  (db : Database) : Database :=
  {| schemas := schemas db; tables := f (tables db) |}.

Definition on_database (con : connection) (f : Database → Database) : Py unit :=
  update (λ w, set_database con (f (database_at w con)) w).

Definition with_schema (s : string) (db : Database) : Database :=
  {| schemas := {[s]} ∪ schemas db; tables := tables db |}.

(** [CREATE SCHEMA IF NOT EXISTS s] *)
Definition create_schema_if_not_exists (con : connection) (s : string) : Py unit :=
  on_database con (with_schema s).

(** [DROP TABLE IF EXISTS s.t] *)
Definition drop_table_if_exists (con : connection) (s t : string) : Py unit :=
  on_database con (with_tables (delete (s, t))).

(** [read_parquet('path')] *)
Definition read_parquet (path : string) : Py DataFrame :=
  λ w, match raw_files w !! path with
       | Some (ParquetFile df) => (w, Returned df)
       | Some Corrupt => (w, Raised (DuckDBError InvalidInputException))
       | None => (w, Raised (DuckDBError IOException))
       end.

(** [CREATE TABLE s.t AS SELECT * FROM read_parquet('path')]; the
    schema is there wherever the script issues the statement. *)
Definition create_table_as_select (con : connection) (s t path : string) : Py unit :=
  df <- read_parquet path ;;
  existing <- reading (λ w, table_at w con s t) ;;
  match existing with
  | Some _ => raise (DuckDBError CatalogException)
  | None => on_database con (with_tables <[(s, t) := df]>)
  end.

(** [INSERT INTO s.t SELECT * FROM read_parquet('path')]: values are
    matched to the table's columns by position, so the snapshot must
    supply as many columns as the table has.  Cells carry no column
    type here: the cast of a value to the type of the column it lands
    in, which DuckDB can refuse with a conversion error, is not part of
    this statement's model, and what is proved of appends between
    different sources is proved of loads that return. *)
Definition insert_into_select (con : connection) (s t path : string) : Py unit :=
  existing <- reading (λ w, table_at w con s t) ;;
  match existing with
  | None => raise (DuckDBError CatalogException)
  | Some tbl =>
      df <- read_parquet path ;;
      if bool_decide (n_columns df = n_columns tbl)
      then on_database con
             (with_tables <[(s, t) := {| columns := columns tbl;
                                         rows := rows tbl ++ rows df |}]>)
      else raise (DuckDBError BinderException)
  end.

(** [SELECT COUNT( * ) FROM information_schema.tables
     WHERE table_schema = s AND table_name = t], compared with 0 *)
Definition table_exists (con : connection) (s t : string) : Py bool :=
  reading (λ w, bool_decide (is_Some (table_at w con s t))).

(** [SELECT COUNT( * ) FROM s.t] *)
Definition select_count (con : connection) (s t : string) : Py nat :=
  tbl <- reading (λ w, table_at w con s t) ;;
  match tbl with
  | Some df => ret (n_rows df)
  | None => raise (DuckDBError CatalogException)
  end.

Definition close (con : connection) : Py unit := ret tt.

(** ** LayerLoader: [load_to_duckdb] *)

(** What a Python call hands back to its caller. *)
Inductive pyvalue :=
| PyNone
| PyInt (n : nat).

(** [--mode] is restricted by [choices] to the two literals, so the
    [if]/[elif] on the mode string is a match on [mode].  The function
    has no [return] statement: it hands back [None]. *)
Definition load_to_duckdb (parquet_path db_path table_name : string) (m : mode)
  : Py pyvalue :=
  con <- connect db_path ;;
  create_schema_if_not_exists con "raw" ;;;
  match m with
  | full_refresh =>
      drop_table_if_exists con "raw" table_name ;;;
      create_table_as_select con "raw" table_name parquet_path ;;;
      print (FullRefreshRecreated table_name)
  | incremental =>
      exists_ <- table_exists con "raw" table_name ;;
      if negb exists_
      then create_table_as_select con "raw" table_name parquet_path ;;;
           print (IncrementalCreated table_name)
      else insert_into_select con "raw" table_name parquet_path ;;;
           print (IncrementalAppended table_name)
  end ;;;
  count <- select_count con "raw" table_name ;;
  print (TotalRecords table_name count) ;;;
  close con ;;;
  ret PyNone.

(** The RAW row count an observer reads after a load. *)
Definition raw_count (w : World) (db_path table_name : string) : option nat :=
  n_rows <$> table_at w db_path "raw" table_name.

(** ** Concrete worlds for examples *)

Definition epoch : datetime :=
  {| year := 2025; month := 1; day := 1;
     hour := 0; minute := 0; second := 0; microsecond := 0 |}.

Definition empty_world : World :=
  {| sources := ∅; directories := ∅; glob := λ _ _, [];
     raw_files := ∅; databases := ∅; unreachable := ∅;
     pyarrow := true; boto3 := true; buckets := ∅; environ := ∅;
     clock := λ _, epoch; ticks := 0; uuids := λ _, 0%N; draws := 0;
     stdout := [] |}.

Definition one_loan : DataFrame :=
  {| columns := ["Loan_ID"]; rows := [[Str "L1"]] |}.

Definition two_loans : DataFrame :=
  {| columns := ["Loan_ID"]; rows := [[Str "L2"]; [Str "L3"]] |}.

Definition two_loans_with_purpose : DataFrame :=
  {| columns := ["Loan_ID"; "Purpose"];
     rows := [[Str "L2"; Str "car"]; [Str "L3"; Null]] |}.

Definition with_table (db_path schema name : string) (df : DataFrame) (w : World)
  : World :=
  set_database db_path
    (with_tables <[(schema, name) := df]> (database_at w db_path)) w.


(** ** The decision table of the LayerLoader, as the specification words it *)

Inductive action :=
| CreateFromSnapshot
| DropThenCreate
| AppendRows.

(** Keyed by (table exists?, mode). *)
Definition LayerLoader_action (table_exists : bool) (m : mode) : action :=
  match table_exists, m with
  | false, full_refresh => CreateFromSnapshot
  | true, full_refresh => DropThenCreate
  | false, incremental => CreateFromSnapshot
  | true, incremental => AppendRows
  end.

(** The table an action leaves behind. *)
Definition action_table (a : action) (old : option DataFrame) (snap : DataFrame)
  : DataFrame :=
  match a, old with
  | AppendRows, Some tbl =>
      {| columns := columns tbl; rows := rows tbl ++ rows snap |}
  | _, _ => snap
  end.

(** Replace: the snapshot's row count; append: previous count plus the
    snapshot's row count. *)
Definition action_count (a : action) (previous : nat) (snapshot_rows : nat) : nat :=
  match a with
  | AppendRows => previous + snapshot_rows
  | CreateFromSnapshot | DropThenCreate => snapshot_rows
  end.

(** The line [load_to_duckdb] prints for the branch it took. *)
Definition action_line (m : mode) (table_exists : bool) (table_name : string) : line :=
  match m, table_exists with
  | full_refresh, _ => FullRefreshRecreated table_name
  | incremental, false => IncrementalCreated table_name
  | incremental, true => IncrementalAppended table_name
  end.

(** The error [read_parquet] raises on what it finds at the path. *)
Definition snapshot_error (f : option raw_file) : option duckdb_error :=
  match f with
  | Some (ParquetFile _) => None
  | Some Corrupt => Some InvalidInputException
  | None => Some IOException
  end.

(** A store holding one loan in [raw.raw_loans], next to a snapshot file
    that is not Parquet and one that is. *)
Definition stale_world : World :=
  with_table "db" "raw" "raw_loans" one_loan
    (with_raw_files (λ fs, <["bad.parquet" := Corrupt]>
                             (<["good.parquet" := ParquetFile two_loans]> fs))
       empty_world).

(** ** Configuration: [airflow/utils/config.py] *)

Definition DATA_QUALITY_THRESHOLDS : gmap string nat :=
  <["min_raw_rows" := 1]>
    (<["min_silver_rows" := 1]>
       (<["min_gold_rows" := 1]>
          (<["max_duplicate_loan_ids" := 0]> ∅))).

(** ** Project paths: [get_project_paths] *)

Record project_paths := {
  project_root : string;
  excel_path : string;
  excel_dir : string;
  duckdb_path : string;
  raw_dir : string;
  dbt_dir : string;
  ingest_script : string
}.

(** [root] stands for [Path(__file__).parent.parent.parent], the
    directory the package is installed under. *)
Definition get_project_paths (root : string) : project_paths :=
  {| project_root := root;
     excel_path := root +:+ "/data/Data Engineer Challenge.xlsx";
     excel_dir := root +:+ "/data";
     duckdb_path := root +:+ "/dbt/data_challenge.duckdb";
     raw_dir := root +:+ "/raw_data";
     dbt_dir := root +:+ "/dbt";
     ingest_script := root +:+ "/ingest/ingest_excel_to_duckdb.py" |}.

(** ** QualityGate: [validate_data_quality] *)

(** [if count == 0: raise ValueError(msg)] *)
Definition raise_if_zero (count : nat) (msg : string) : Py unit :=
  if Nat.eqb count 0 then raise (ValueError msg) else ret tt.

Definition validate_data_quality (root : string) : Py bool :=
  let paths := get_project_paths root in
  try_reraise
    (con <- connect (duckdb_path paths) ;;
     raw_count <- select_count con "raw" "raw_loans" ;;
     silver_count <- select_count con "silver" "silver_loans" ;;
     gold_count <- select_count con "gold" "fact_loan" ;;
     print (DataCounts raw_count silver_count gold_count) ;;;
     raise_if_zero raw_count "RAW layer is empty" ;;;
     raise_if_zero silver_count "SILVER layer is empty" ;;;
     raise_if_zero gold_count "GOLD layer is empty" ;;;
     print ValidationPassed ;;;
     ret true)
    (λ e, print (ValidationFailed e)).

(** ** The quality gate, as the specification words it *)

Inductive layer := RAW | SILVER | GOLD.

Definition layer_label (l : layer) : string :=
  match l with RAW => "RAW" | SILVER => "SILVER" | GOLD => "GOLD" end.

(** The specification's [EmptyLayer(layer)] is the [ValueError] the gate
    raises for that layer. *)
Definition EmptyLayer (l : layer) : exn :=
  ValueError (layer_label l +:+ " layer is empty").

Definition threshold_key (l : layer) : string :=
  match l with
  | RAW => "min_raw_rows"
  | SILVER => "min_silver_rows"
  | GOLD => "min_gold_rows"
  end.

Definition minimum_rows (thresholds : gmap string nat) (l : layer) : nat :=
  default 0 (thresholds !! threshold_key l).

(** Row counts of the three layers. *)
Record layer_counts := { raw_rows : nat; silver_rows : nat; gold_rows : nat }.

Definition rows_of (c : layer_counts) (l : layer) : nat :=
  match l with
  | RAW => raw_rows c
  | SILVER => silver_rows c
  | GOLD => gold_rows c
  end.

Definition below_minimum (thresholds : gmap string nat) (c : layer_counts)
  (l : layer) : bool :=
  bool_decide (rows_of c l < minimum_rows thresholds l).

(** "Fails with EmptyLayer(layer) if any layer's count is below its
    configured minimum", layers taken in pipeline order. *)
Definition QualityGate_spec (thresholds : gmap string nat) (c : layer_counts)
  : result bool :=
  match filter (λ l, below_minimum thresholds c l = true) [RAW; SILVER; GOLD] with
  | l :: _ => Raised (EmptyLayer l)
  | [] => Returned true
  end.

(** The canonical table of each layer. *)
Definition canonical_table (l : layer) : string * string :=
  match l with
  | RAW => ("raw", "raw_loans")
  | SILVER => ("silver", "silver_loans")
  | GOLD => ("gold", "fact_loan")
  end.

(** The counts the gate reads from a store, when all three canonical
    tables are there. *)
Definition counts_at (w : World) (db : string) : option layer_counts :=
  r ← table_at w db "raw" "raw_loans";
  s ← table_at w db "silver" "silver_loans";
  g ← table_at w db "gold" "fact_loan";
  Some {| raw_rows := n_rows r; silver_rows := n_rows s; gold_rows := n_rows g |}.

(** What the gate decides from the three counts, as the code tests
    them. *)
Definition gate_decision (c : layer_counts) : result bool :=
  if Nat.eqb (raw_rows c) 0 then Raised (ValueError "RAW layer is empty")
  else if Nat.eqb (silver_rows c) 0 then Raised (ValueError "SILVER layer is empty")
  else if Nat.eqb (gold_rows c) 0 then Raised (ValueError "GOLD layer is empty")
  else Returned true.

(** A frame of [n] rows with one column. *)
Definition frame_of_rows (n : nat) : DataFrame :=
  {| columns := ["Loan_ID"]; rows := replicate n [Str "loan"] |}.

(** A store under [/srv] with the given number of rows in each layer. *)
Definition layered_world (r s g : nat) : World :=
  let db := duckdb_path (get_project_paths "/srv") in
  with_table db "gold" "fact_loan" (frame_of_rows g)
    (with_table db "silver" "silver_loans" (frame_of_rows s)
       (with_table db "raw" "raw_loans" (frame_of_rows r) empty_world)).

(** ** Paths and process environment *)

(** Components of a path between slashes. *)
Fixpoint split_path (s : string) (current : string) : list string :=
  match s with
  | EmptyString => [current]
  | String c s' =>
      if Ascii.eqb c "/" then current :: split_path s' ""
      else split_path s' (current +:+ String c EmptyString)
  end.

(** [Path(p).name]: the last component, empty and [.] components
    dropped as pathlib does. *)
Definition basename (p : string) : string :=
  default ""
    (last (filter (λ c, c ≠ "" ∧ c ≠ ".") (split_path p ""))).

(** [dir / name], for a directory written in the form [pathlib] shows
    it (no trailing slash, not empty). *)
Definition join_path (dir name : string) : string := dir +:+ "/" +:+ name.

(** Truth value of an optional string argument: [None] and the empty
    string are false. *)
Definition truthy (o : option string) : bool :=
  match o with
  | Some s => negb (String.eqb s "")
  | None => false
  end.

(** [os.getenv(name)] *)
Definition getenv (name : string) : Py (option string) :=
  reading (λ w, environ w !! name).

(** [datetime.now()] *)
Definition datetime_now : Py datetime :=
  λ w, (with_ticks S w, Returned (clock w (ticks w))).

(** [uuid.uuid4()], as the 128-bit integer of the identifier. *)
Definition uuid4 : Py N :=
  λ w, (with_draws S w, Returned (uuids w (draws w))).

(** ** SourceLoader: [load_excel_files] *)

(** [Path.exists()] on the spreadsheet side: a file or a directory. *)
Definition path_exists (p : string) : Py bool :=
  reading (λ w, bool_decide (is_Some (sources w !! p))
                || bool_decide (p ∈ directories w)).

(** [pd.read_excel(path)] *)
Definition read_excel (p : string) : Py DataFrame :=
  λ w, match sources w !! p with
       | Some (Spreadsheet df) => (w, Returned df)
       | _ => (w, Raised (ExcelReadError p))
       end.

(** [dir.glob(pattern)]: the matching paths in discovery order. *)
Definition path_glob (dir pattern : string) : Py (list string) :=
  reading (λ w, glob w dir pattern).

(** The provenance stamp:
    [df['_source_file'] = name; df['_ingestion_timestamp'] = datetime.now()] *)
Definition stamp (df : DataFrame) (name : string) : Py DataFrame :=
  let df := set_column "_source_file" (Str name) df in
  now <- datetime_now ;;
  ret (set_column "_ingestion_timestamp" (Instant now) df).

(** The [for file_path in excel_files] loop, appending to [dfs]. *)
Fixpoint load_each (excel_files : list string) (dfs : list DataFrame)
  : Py (list DataFrame) :=
  match excel_files with
  | [] => ret dfs
  | file_path :: rest =>
      print (Processing (basename file_path)) ;;;
      df <- read_excel file_path ;;
      df <- stamp df (basename file_path) ;;
      load_each rest (dfs ++ [df])
  end.

(** [pd.concat(dfs, ignore_index=True)] *)
Definition concat (dfs : list DataFrame) : Py DataFrame :=
  match dfs with
  | [] => raise (ValueError "No objects to concatenate")
  | _ :: _ =>
      let cols := all_columns dfs in
      ret {| columns := cols; rows := dfs ≫= reindex_frame cols |}
  end.

(** [load_excel_files]; paths are written in the form [pathlib] shows
    them, so that a message shows the path as it was given. *)
Definition load_excel_files (excel_path excel_dir excel_pattern : option string)
  : Py DataFrame :=
  dfs <-
    (if truthy excel_path then
       (* Single file mode *)
       let excel_path := default "" excel_path in
       found <- path_exists excel_path ;;
       if negb found
       then raise (FileNotFoundError ("Excel file not found: " +:+ excel_path))
       else
         print (LoadingSingle excel_path) ;;;
         df <- read_excel excel_path ;;
         df <- stamp df (basename excel_path) ;;
         ret [df]
     else if truthy excel_dir then
       (* Directory mode *)
       let excel_dir := default "" excel_dir in
       found <- path_exists excel_dir ;;
       if negb found
       then raise (FileNotFoundError ("Excel directory not found: " +:+ excel_dir))
       else
         excel_files <-
           (if truthy excel_pattern
            then path_glob excel_dir (default "" excel_pattern)
            else xlsx <- path_glob excel_dir "*.xlsx" ;;
                 xls <- path_glob excel_dir "*.xls" ;;
                 ret (xlsx ++ xls)) ;;
         match excel_files with
         | [] =>
             raise (FileNotFoundError
                      ("No Excel files found in: " +:+ excel_dir
                       +:+ " with pattern: "
                       +:+ (if truthy excel_pattern
                            then default "" excel_pattern
                            else "*.xlsx, *.xls")))
         | _ :: _ =>
             print (LoadingDirectory (length excel_files) excel_dir) ;;;
             load_each excel_files []
         end
     else raise (ValueError "Either --excel or --excel_dir must be specified")) ;;
  match dfs with
  | [df] => ret df
  | _ => concat dfs
  end.

(** The specification's [InvalidConfiguration] for a missing source. *)
Definition InvalidConfiguration : exn :=
  ValueError "Either --excel or --excel_dir must be specified".

(** ** SnapshotWriter: [write_parquet_with_metadata] *)

Definition digit_char (d : nat) : ascii :=
  match d with
  | 0 => "0" | 1 => "1" | 2 => "2" | 3 => "3" | 4 => "4"
  | 5 => "5" | 6 => "6" | 7 => "7" | 8 => "8" | _ => "9"
  end%char.

(** The [k] low decimal digits of [n], most significant first. *)
Fixpoint zero_padded (k : nat) (n : nat) : string :=
  match k with
  | 0 => EmptyString
  | S k' => zero_padded k' (n / 10) +:+ String (digit_char (n mod 10)) EmptyString
  end.

(** [t.strftime("%Y%m%d_%H%M%S")], for the four-digit years
    [datetime.now()] returns. *)
Definition strftime (t : datetime) : string :=
  zero_padded 4 (year t) +:+ zero_padded 2 (month t) +:+ zero_padded 2 (day t)
  +:+ "_" +:+
  zero_padded 2 (hour t) +:+ zero_padded 2 (minute t) +:+ zero_padded 2 (second t).

Definition hex_char (d : N) : ascii :=
  match d with
  | 0 => "0" | 1 => "1" | 2 => "2" | 3 => "3" | 4 => "4" | 5 => "5"
  | 6 => "6" | 7 => "7" | 8 => "8" | 9 => "9" | 10 => "a" | 11 => "b"
  | 12 => "c" | 13 => "d" | 14 => "e" | _ => "f"
  end%N%char.

(** The [k] low hexadecimal digits of [u], most significant first. *)
Fixpoint hex_digits (k : nat) (u : N) : string :=
  match k with
  | 0 => EmptyString
  | S k' => hex_digits k' (u / 16)%N +:+ String (hex_char (u mod 16)%N) EmptyString
  end.

(** [UUID.hex]: the 32 hexadecimal digits of the identifier. *)
Definition hex (u : N) : string := hex_digits 32 u.

(** [s[:n]] *)
Fixpoint prefix (n : nat) (s : string) : string :=
  match n, s with
  | S n', String c s' => String c (prefix n' s')
  | _, _ => EmptyString
  end.

(** [f"{table_name}_{mode}_{timestamp}_{uuid.uuid4().hex[:8]}.parquet"] *)
Definition parquet_filename (table_name : string) (m : mode)
  (timestamp : string) (u : N) : string :=
  table_name +:+ "_" +:+ mode_str m +:+ "_" +:+ timestamp +:+ "_"
  +:+ prefix 8 (hex u) +:+ ".parquet".

(** [raw_dir.mkdir(parents=True, exist_ok=True)], for a [raw_dir] that
    is not, and does not lie under, an existing file. *)
Definition mkdir (dir : string) : Py unit :=
  update (with_directories (λ ds, {[dir]} ∪ ds)).

(** Writing the frame as a Parquet file, through pyarrow or through
    DuckDB's [COPY ... TO ... (FORMAT PARQUET)]; a file already at the
    path is overwritten.  The frame is one Arrow can type: a column
    that mixes text and numbers, which pyarrow refuses, is outside this
    model, and what is proved of the written snapshot is proved of
    writes and runs that return. *)
Definition write_table (df : DataFrame) (path : string) : Py unit :=
  update (with_raw_files <[path := ParquetFile df]>).

Definition copy_to_parquet (df : DataFrame) (path : string) : Py unit :=
  update (with_raw_files <[path := ParquetFile df]>).

Definition write_parquet_with_metadata (df : DataFrame) (raw_dir table_name : string)
  (m : mode) : Py string :=
  mkdir raw_dir ;;;
  now <- datetime_now ;;
  let timestamp := strftime now in
  u <- uuid4 ;;
  let parquet_filename := parquet_filename table_name m timestamp u in
  let parquet_path := join_path raw_dir parquet_filename in
  has_pq <- reading pyarrow ;;
  (if negb has_pq
   then copy_to_parquet df parquet_path
   else write_table df parquet_path) ;;;
  print (ParquetWritten parquet_path) ;;;
  ret parquet_path.

(** ** Mirror upload: [upload_to_s3] *)

(** [s.rstrip('/')] *)
Fixpoint rstrip_slash (s : string) : string :=
  match s with
  | EmptyString => EmptyString
  | String c s' =>
      match rstrip_slash s' with
      | EmptyString => if Ascii.eqb c "/" then EmptyString else String c EmptyString
      | rest => String c rest
      end
  end.

(** [s3.upload_file(local, bucket, key)]: the local file is copied
    under the key; a bucket the credentials cannot write to, or a
    missing local file, raises. *)
Definition upload_file (local bucket key : string) : Py unit :=
  λ w, match raw_files w !! local, buckets w !! bucket with
       | Some file, Some objects =>
           (with_buckets <[bucket := <[key := file]> objects]> w, Returned tt)
       | _, _ => (w, Raised (S3UploadFailedError bucket key))
       end.

Definition upload_to_s3 (parquet_path s3_bucket s3_prefix : string) : Py unit :=
  has_boto3 <- reading boto3 ;;
  if negb has_boto3
  then raise (RuntimeError "boto3 not installed. Install boto3 or remove --prod")
  else if String.eqb s3_bucket ""
  then raise (ValueError "Missing --s3_bucket (or env RAW_S3_BUCKET) for --prod")
  else
    let s3_key := rstrip_slash s3_prefix +:+ "/" +:+ basename parquet_path in
    upload_file parquet_path s3_bucket s3_key ;;;
    print (UploadedToS3 s3_bucket s3_key).

(** ** The ingestion script *)

(** The options as they stand on the command line. *)
Record command_line := {
  opt_excel : option string;
  opt_excel_dir : option string;
  opt_excel_pattern : option string;
  opt_duckdb : string;
  opt_raw_dir : option string;
  opt_table : option string;
  opt_mode : option string;
  opt_prod : bool;
  opt_s3_bucket : option string;
  opt_s3_prefix : option string
}.

(** The namespace [parser.parse_args()] returns. *)
Record namespace := {
  args_excel : option string;
  args_excel_dir : option string;
  args_excel_pattern : option string;
  args_duckdb : string;
  args_raw_dir : string;
  args_table : string;
  args_mode : mode;
  args_prod : bool;
  args_s3_bucket : string;
  args_s3_prefix : string
}.

(** [choices=['full_refresh', 'incremental']], [default='full_refresh'];
    any other literal makes argparse exit with status 2. *)
Definition parse_mode (o : option string) : Py mode :=
  match o with
  | None => ret full_refresh
  | Some s =>
      if String.eqb s "full_refresh" then ret full_refresh
      else if String.eqb s "incremental" then ret incremental
      else raise (SystemExit 2)
  end.

(** [parser.parse_args()]: the defaults of [--s3_bucket] and
    [--s3_prefix] come from the environment. *)
Definition parse_args (argv : command_line) : Py namespace :=
  env_bucket <- getenv "RAW_S3_BUCKET" ;;
  env_prefix <- getenv "RAW_S3_PREFIX" ;;
  m <- parse_mode (opt_mode argv) ;;
  ret {| args_excel := opt_excel argv;
         args_excel_dir := opt_excel_dir argv;
         args_excel_pattern := opt_excel_pattern argv;
         args_duckdb := opt_duckdb argv;
         args_raw_dir := default "raw_data" (opt_raw_dir argv);
         args_table := default "raw_loans" (opt_table argv);
         args_mode := m;
         args_prod := opt_prod argv;
         args_s3_bucket := default (default "" env_bucket) (opt_s3_bucket argv);
         args_s3_prefix := default (default "raw/loans" env_prefix)
                             (opt_s3_prefix argv) |}.

(** The main execution, after the arguments are parsed. *)
Definition main (args : namespace) : Py unit :=
  let db_path := args_duckdb args in
  let raw_dir := args_raw_dir args in
  let table_name := args_table args in
  print (Starting (args_mode args) table_name db_path) ;;;
  (* 1) Load Excel files *)
  df <- load_excel_files (args_excel args) (args_excel_dir args)
          (args_excel_pattern args) ;;
  print (LoadedRecords (n_rows df)) ;;;
  (* 2) Write RAW data to Parquet *)
  parquet_path <- write_parquet_with_metadata df raw_dir table_name (args_mode args) ;;
  (* 3) Upload to S3 (if production mode) *)
  (if args_prod args
   then upload_to_s3 parquet_path (args_s3_bucket args) (args_s3_prefix args)
   else ret tt) ;;;
  (* 4) Load to DuckDB *)
  load_to_duckdb parquet_path db_path table_name (args_mode args) ;;;
  print IngestionCompleted.

(** One run of [ingest_excel_to_duckdb.py]. *)
Definition ingest (argv : command_line) : Py unit :=
  args <- parse_args argv ;;
  main args.

(** ** PipelineInvoker: [run_ingestion] *)

(** [subprocess.run(cmd, capture_output=True, text=True, check=True)] on
    the ingestion script: a run that ends in an exception exits with a
    nonzero status, which [check=True] turns into [CalledProcessError].
    The child's output is kept on the same standard output.  The
    [python] executable is there to be started. *)
Definition subprocess_run (cmd : command_line) : Py unit :=
  λ w, match ingest cmd w with
       | (w', Returned _) => (w', Returned tt)
       | (w', Raised e) => (w', Raised (CalledProcessError e))
       end.

(** The command [run_ingestion] assembles.  [params_mode] is
    [context.get('params', {}).get('mode')]. *)
Definition ingestion_command (root : string) (ingestion_mode : string)
  (environment s3_bucket s3_prefix : option string) : command_line :=
  let paths := get_project_paths root in
  let incremental_source := String.eqb ingestion_mode "incremental" in
  let publish :=
    bool_decide (environment = Some "production") && truthy s3_bucket in
  {| opt_excel := if incremental_source then None else Some (excel_path paths);
     opt_excel_dir := if incremental_source then Some (excel_dir paths) else None;
     opt_excel_pattern := None;
     opt_duckdb := duckdb_path paths;
     opt_raw_dir := Some (raw_dir paths);
     opt_table := None;
     opt_mode := Some ingestion_mode;
     opt_prod := publish;
     opt_s3_bucket := if publish then s3_bucket else None;
     opt_s3_prefix := if publish then Some (default "raw/loans" s3_prefix) else None |}.

Definition run_ingestion (root : string) (params_mode : option string) : Py bool :=
  try_reraise
    (env_mode <- getenv "INGESTION_MODE" ;;
     let ingestion_mode := default (default "full_refresh" env_mode) params_mode in
     environment <- getenv "ENVIRONMENT" ;;
     s3_bucket <- getenv "RAW_S3_BUCKET" ;;
     s3_prefix <- getenv "RAW_S3_PREFIX" ;;
     let cmd := ingestion_command root ingestion_mode environment s3_bucket s3_prefix in
     print (RunningIngestion ingestion_mode) ;;;
     subprocess_run cmd ;;;
     print IngestionCompleted ;;;
     ret true)
    (λ e, print (IngestionFailed e)).

(** A source tree: a workbook [book.xlsx] with one loan, and a
    directory [data] holding [a.xlsx] with two loans and [b.xlsx] with
    two loans and a [Purpose] column. *)
Definition source_world : World :=
  {| sources := <["book.xlsx" := Spreadsheet one_loan]>
                  (<["data/a.xlsx" := Spreadsheet two_loans]>
                     (<["data/b.xlsx" := Spreadsheet two_loans_with_purpose]> ∅));
     directories := {["data"]};
     glob := λ dir pattern,
       if String.eqb dir "data" && String.eqb pattern "*.xlsx"
       then ["data/a.xlsx"; "data/b.xlsx"] else [];
     raw_files := ∅; databases := ∅; unreachable := ∅;
     pyarrow := true; boto3 := true; buckets := ∅; environ := ∅;
     clock := λ n, {| year := 2025; month := 3; day := 9;
                      hour := 14; minute := 5; second := 59;
                      microsecond := n |};
     ticks := 0;
     uuids := λ n, (0xdeadbeef000040008000000000000000 + N.of_nat n)%N;
     draws := 0;
     stdout := [] |}.

(** ** Frames, row by row *)

(** Every row holds one cell per column, as pandas frames do. *)
Definition rectangular (df : DataFrame) : Prop :=
  Forall (λ r, length r = length (columns df)) (rows df).

(** The columns and one row of [set_column c v df]. *)
Definition add_column (cols : list string) (c : string) : list string :=
  match index_of c cols with
  | Some _ => cols
  | None => cols ++ [c]
  end.

Definition set_cell (cols : list string) (c : string) (v : scalar)
  (row : list scalar) : list scalar :=
  match index_of c cols with
  | Some i => <[i := v]> row
  | None => row ++ [v]
  end.

(** The frame [stamp] returns for a file read at instant [t]. *)
Definition stamped (df : DataFrame) (name : string) (t : datetime) : DataFrame :=
  set_column "_ingestion_timestamp" (Instant t)
    (set_column "_source_file" (Str name) df).

(** One row of a stamped frame. *)
Definition stamped_row (cols : list string) (name : string) (t : datetime)
  (row : list scalar) : list scalar :=
  set_cell (add_column cols "_source_file") "_ingestion_timestamp" (Instant t)
    (set_cell cols "_source_file" (Str name) row).

(** What [load_excel_files] hands back for the stamped frames of the
    files it read. *)
Definition unified (dfs : list DataFrame) : DataFrame :=
  match dfs with
  | [df] => df
  | _ => {| columns := all_columns dfs;
            rows := dfs ≫= reindex_frame (all_columns dfs) |}
  end.

(** The stamped frames of the files read in a loop that starts at clock
    reading [start]. *)
Fixpoint stamp_all (clk : nat → datetime) (start : nat)
  (files : list string) (frames : list DataFrame) : list DataFrame :=
  match files, frames with
  | f :: files', df :: frames' =>
      stamped df (basename f) (clk start) :: stamp_all clk (S start) files' frames'
  | _, _ => []
  end.

(** Two worlds that differ at most in the clock readings taken and in
    what was printed. *)
Definition only_clock_and_output (w w' : World) : Prop :=
  sources w' = sources w ∧ directories w' = directories w ∧ glob w' = glob w
  ∧ raw_files w' = raw_files w ∧ databases w' = databases w
  ∧ unreachable w' = unreachable w ∧ pyarrow w' = pyarrow w
  ∧ boto3 w' = boto3 w ∧ buckets w' = buckets w ∧ environ w' = environ w
  ∧ clock w' = clock w ∧ uuids w' = uuids w ∧ draws w' = draws w.

(** The files a spreadsheet source selects: the single path, or what
    the directory's glob discovers. *)
Definition selected_files (w : World)
  (excel_path excel_dir excel_pattern : option string) : list string :=
  if truthy excel_path then [default "" excel_path]
  else if truthy excel_dir then
    if truthy excel_pattern
    then glob w (default "" excel_dir) (default "" excel_pattern)
    else glob w (default "" excel_dir) "*.xlsx"
         ++ glob w (default "" excel_dir) "*.xls"
  else [].

(** In directory mode the directory has to exist. *)
Definition directory_found (w : World) (excel_path excel_dir : option string) : Prop :=
  truthy excel_path = false →
  is_Some (sources w !! default "" excel_dir)
  ∨ default "" excel_dir ∈ directories w.

(** Each selected file is a spreadsheet holding the frame next to it. *)
Definition readable (w : World) (files : list string) (frames : list DataFrame) : Prop :=
  Forall2 (λ f df, sources w !! f = Some (Spreadsheet df)) files frames.

(** What the SourceLoader owes for the files it selected, read as the
    frames [frames]: it returns one frame [out] such that
    - its row count is the sum of the files' row counts;
    - its columns are the provenance pair and the columns of the files;
    - row [i] of file [k] sits after the rows of the files before it,
      carries the file's name and the instant of its reading, and reads
      under every other label as it read in its file, null where the
      file has no such column;
    - no row has a null in the provenance pair. *)
Definition unified_output (w : World)
  (excel_path excel_dir excel_pattern : option string)
  (files : list string) (frames : list DataFrame) : Prop :=
  ∃ w' out,
    load_excel_files excel_path excel_dir excel_pattern w = (w', Returned out)
    ∧ n_rows out = sum_list (n_rows <$> frames)
    ∧ (∀ c, c ∈ columns out
            ↔ c = "_source_file" ∨ c = "_ingestion_timestamp"
              ∨ ∃ df, df ∈ frames ∧ c ∈ columns df)
    ∧ (∀ k f df i orig,
         files !! k = Some f → frames !! k = Some df → rows df !! i = Some orig →
         ∃ row,
           rows out !! (sum_list (n_rows <$> take k frames) + i) = Some row
           ∧ cell (columns out) row "_source_file" = Str (basename f)
           ∧ cell (columns out) row "_ingestion_timestamp"
             = Instant (clock w (ticks w + k))
           ∧ ∀ c, c ≠ "_source_file" → c ≠ "_ingestion_timestamp" →
                  cell (columns out) row c = cell (columns df) orig c
                  ∧ (c ∉ columns df → cell (columns out) row c = Null))
    ∧ Forall (λ row,
                is_null (cell (columns out) row "_source_file") = false
                ∧ is_null (cell (columns out) row "_ingestion_timestamp") = false)
        (rows out).

(** ** The shape of a snapshot name *)

Definition is_digit (c : ascii) : bool :=
  match c with
  | "0" | "1" | "2" | "3" | "4" | "5" | "6" | "7" | "8" | "9" => true
  | _ => false
  end%char.

Definition is_hex_digit (c : ascii) : bool :=
  match c with
  | "0" | "1" | "2" | "3" | "4" | "5" | "6" | "7" | "8" | "9"
  | "a" | "b" | "c" | "d" | "e" | "f" => true
  | _ => false
  end%char.

Fixpoint all_chars (p : ascii → bool) (s : string) : bool :=
  match s with
  | EmptyString => true
  | String c s' => p c && all_chars p s'
  end.

(** [yyyymmdd_HHMMSS] *)
Definition timestamp_shape (ts : string) : Prop :=
  ∃ date time,
    ts = date +:+ "_" +:+ time
    ∧ String.length date = 8 ∧ all_chars is_digit date = true
    ∧ String.length time = 6 ∧ all_chars is_digit time = true.

(** Eight hexadecimal digits. *)
Definition hex8_shape (h : string) : Prop :=
  String.length h = 8 ∧ all_chars is_hex_digit h = true.

(** [{table}_{mode}_{yyyymmdd_HHMMSS}_{8-hex-random}.parquet] *)
Definition filename_shape (table_name : string) (m : mode) (name : string) : Prop :=
  ∃ ts h,
    name = table_name +:+ "_" +:+ mode_str m +:+ "_" +:+ ts +:+ "_" +:+ h
           +:+ ".parquet"
    ∧ timestamp_shape ts ∧ hex8_shape h.

(** The instants [datetime.now()] can return. *)
Definition valid_datetime (t : datetime) : Prop :=
  1000 ≤ year t < 10 * 1000 ∧ 1 ≤ month t ≤ 12 ∧ 1 ≤ day t ≤ 31
  ∧ hour t < 24 ∧ minute t < 60 ∧ second t < 60.

Fixpoint last_char (s : string) : option ascii :=
  match s with
  | EmptyString => None
  | String c s' =>
      match last_char s' with
      | Some c' => Some c'
      | None => Some c
      end
  end.

(** The world a call of [write_parquet_with_metadata] leaves, and the
    name it gives the snapshot. *)
Definition snapshot_name (w : World) (table_name : string) (m : mode) : string :=
  parquet_filename table_name m (strftime (clock w (ticks w))) (uuids w (draws w)).

Definition after_snapshot (df : DataFrame) (raw_dir table_name : string)
  (m : mode) (w : World) : World :=
  let path := join_path raw_dir (snapshot_name w table_name m) in
  say (ParquetWritten path)
    (with_raw_files <[path := ParquetFile df]>
       (with_draws S (with_ticks S (with_directories (λ ds, {[raw_dir]} ∪ ds) w)))).

(** ** What a computation leaves alone *)

(** [R] relates the world before a computation to the world after it,
    whatever the outcome. *)
Definition preserves {A} (R : World → World → Prop) (c : Py A) : Prop :=
  ∀ w, R w (c w).1.




(** ** Running the script *)

(** The failures of the mirror upload: the specification's
    configuration error and [MirrorUploadError]. *)
Definition mirror_failure (e : exn) : Prop :=
  e = RuntimeError "boto3 not installed. Install boto3 or remove --prod"
  ∨ e = ValueError "Missing --s3_bucket (or env RAW_S3_BUCKET) for --prod"
  ∨ ∃ bucket key, e = S3UploadFailedError bucket key.

(** With [--prod], the mirror can be written. *)
Definition mirror_ready (w : World) (args : namespace) : Prop :=
  args_prod args = true →
  boto3 w = true ∧ args_s3_bucket args ≠ ""
  ∧ is_Some (buckets w !! args_s3_bucket args).

(** With [--prod], the mirror cannot be written: no boto3, no bucket
    name, or a bucket the credentials cannot write to. *)
Definition mirror_blocked (w : World) (bucket : string) : Prop :=
  boto3 w = false ∨ bucket = "" ∨ buckets w !! bucket = None.

(** The source of a run can be read as the frames [frames]. *)
Definition source_ready (w : World) (args : namespace) (frames : list DataFrame)
  : Prop :=
  let files := selected_files w (args_excel args) (args_excel_dir args)
                 (args_excel_pattern args) in
  files ≠ []
  ∧ directory_found w (args_excel args) (args_excel_dir args)
  ∧ readable w files frames.

(** The unified frame of a run that starts in [w]. *)
Definition loaded_frame (w : World) (args : namespace) (frames : list DataFrame)
  : DataFrame :=
  unified (stamp_all (clock w) (ticks w)
             (selected_files w (args_excel args) (args_excel_dir args)
                (args_excel_pattern args)) frames).

(** What an ingestion run leaves of its inputs: sources, glob, the
    reachable stores, boto3 and the writable buckets stay, directories
    are only added. *)
Definition inputs_kept (w w' : World) : Prop :=
  sources w' = sources w ∧ glob w' = glob w
  ∧ directories w ⊆ directories w'
  ∧ unreachable w' = unreachable w
  ∧ boto3 w' = boto3 w
  ∧ ∀ b, is_Some (buckets w !! b) → is_Some (buckets w' !! b).

(** A production run of the workbook without any bucket configured. *)
Definition publish_run : command_line :=
  {| opt_excel := Some "book.xlsx"; opt_excel_dir := None;
     opt_excel_pattern := None; opt_duckdb := "db";
     opt_raw_dir := None; opt_table := None;
     opt_mode := Some "full_refresh"; opt_prod := true;
     opt_s3_bucket := None; opt_s3_prefix := None |}.

Definition publish_args : namespace :=
  {| args_excel := Some "book.xlsx"; args_excel_dir := None;
     args_excel_pattern := None; args_duckdb := "db";
     args_raw_dir := "raw_data"; args_table := "raw_loans";
     args_mode := full_refresh; args_prod := true;
     args_s3_bucket := ""; args_s3_prefix := "raw/loans" |}.

(** The options of a run of the workbook, and of a run of the second
    file of the directory, both in the given mode into [raw.raw_loans]
    of the store [db]. *)
Definition workbook_args (m : mode) : namespace :=
  {| args_excel := Some "book.xlsx"; args_excel_dir := None;
     args_excel_pattern := None; args_duckdb := "db";
     args_raw_dir := "raw_data"; args_table := "raw_loans";
     args_mode := m; args_prod := false;
     args_s3_bucket := ""; args_s3_prefix := "raw/loans" |}.

Definition file_args (file : string) (m : mode) : namespace :=
  {| args_excel := Some file; args_excel_dir := None;
     args_excel_pattern := None; args_duckdb := "db";
     args_raw_dir := "raw_data"; args_table := "raw_loans";
     args_mode := m; args_prod := false;
     args_s3_bucket := ""; args_s3_prefix := "raw/loans" |}.

(** The gate's view of what it must not change: every table of every
    database file, the snapshot files, the buckets, and the stores that
    can be opened. *)
Definition contents_kept (w w' : World) : Prop :=
  unreachable w' = unreachable w ∧ raw_files w' = raw_files w
  ∧ buckets w' = buckets w
  ∧ ∀ store s n, table_at w' store s n = table_at w store s n.

(** A store whose RAW table is there and empty, and whose SILVER table
    is missing. *)
Definition half_built_world : World :=
  with_table (duckdb_path (get_project_paths "/srv")) "raw" "raw_loans"
    (frame_of_rows 0) empty_world.

(** The mode string [run_ingestion] works with: the [mode] parameter of
    the context, else [INGESTION_MODE], else [full_refresh]. *)
Definition ingestion_mode_of (w : World) (params_mode : option string) : string :=
  default (default "full_refresh" (environ w !! "INGESTION_MODE")) params_mode.

(** The command [run_ingestion] runs in a world. *)
Definition command_of (root : string) (w : World) (params_mode : option string)
  : command_line :=
  ingestion_command root (ingestion_mode_of w params_mode)
    (environ w !! "ENVIRONMENT") (environ w !! "RAW_S3_BUCKET")
    (environ w !! "RAW_S3_PREFIX").

(** A production environment without a bucket, over the source tree,
    with the workbook at the place [run_ingestion] looks for it. *)
Definition production_world : World :=
  {| sources := <["/srv/data/Data Engineer Challenge.xlsx" := Spreadsheet one_loan]> ∅;
     directories := {["/srv/data"]};
     glob := λ _ _, [];
     raw_files := ∅; databases := ∅; unreachable := ∅;
     pyarrow := true; boto3 := true;
     buckets := <["lake" := ∅]> ∅;
     environ := <["ENVIRONMENT" := "production"]> ∅;
     clock := clock source_world; ticks := 0;
     uuids := uuids source_world; draws := 0;
     stdout := [] |}.

(** A world whose [INGESTION_MODE] is not among the script's choices. *)
Definition nightly_world : World :=
  {| sources := sources production_world;
     directories := directories production_world;
     glob := glob production_world;
     raw_files := ∅; databases := ∅; unreachable := ∅;
     pyarrow := true; boto3 := true; buckets := ∅;
     environ := <["INGESTION_MODE" := "nightly"]> ∅;
     clock := clock source_world; ticks := 0;
     uuids := uuids source_world; draws := 0;
     stdout := [] |}.

(** A run of [k] slashes, as may end an [--s3_prefix]. *)
Fixpoint slashes (k : nat) : string :=
  match k with
  | 0 => EmptyString
  | S k' => String "/" (slashes k')
  end.

(** The object key [upload_to_s3] gives a snapshot. *)
Definition s3_key (s3_prefix parquet_path : string) : string :=
  rstrip_slash s3_prefix +:+ "/" +:+ basename parquet_path.

(** ** SQL names *)








(** ** Store lemmas *)

Lemma database_at_set (w : World) (con : connection) (d : Database) :
  database_at (set_database con d w) con = d.
Proof. unfold database_at, set_database. simpl. by rewrite lookup_insert_eq. Qed.

Lemma database_at_set_ne (w : World) (con con' : connection) (d : Database) :
  con ≠ con' → database_at (set_database con d w) con' = database_at w con'.
Proof.
  intros Hne. unfold database_at, set_database. simpl.
  by rewrite lookup_insert_ne.
Qed.

Lemma set_database_twice (w : World) (con : connection) (d d' : Database) :
  set_database con d (set_database con d' w) = set_database con d w.
Proof.
  unfold set_database, with_databases. simpl. by rewrite insert_insert_eq.
Qed.

Lemma database_at_say (l : line) (w : World) (con : connection) :
  database_at (say l w) con = database_at w con.
Proof. reflexivity. Qed.

Lemma table_at_set (w : World) (con : connection) (d : Database) (s n : string) :
  table_at (set_database con d w) con s n = tables d !! (s, n).
Proof. unfold table_at. by rewrite database_at_set. Qed.

Lemma table_at_say (l : line) (w : World) (con s n : string) :
  table_at (say l w) con s n = table_at w con s n.
Proof. reflexivity. Qed.

Lemma with_tables_compose
  (f g : gmap (string * string) DataFrame → gmap (string * string) DataFrame)
  (d : Database) :
  with_tables f (with_tables g d) = with_tables (f ∘ g) d.
Proof. reflexivity. Qed.

(** Unfolds the monadic plumbing of a Python body, keeping the world
    updates folded. *)
Ltac py_unfold :=
  unfold bind, ret, raise, reading, update, print, close,
    create_schema_if_not_exists, drop_table_if_exists,
    create_table_as_select, insert_into_select, table_exists,
    select_count, read_parquet, on_database in *.

Ltac store_simpl :=
  repeat first
    [ rewrite set_database_twice
    | rewrite database_at_set
    | rewrite database_at_say
    | rewrite table_at_set
    | rewrite table_at_say
    | progress cbn [fst snd tables schemas with_tables with_schema negb] ].

Lemma raw_files_set (w : World) (con : connection) (d : Database) :
  raw_files (set_database con d w) = raw_files w.
Proof. reflexivity. Qed.

Lemma raw_files_say (w : World) (l : line) : raw_files (say l w) = raw_files w.
Proof. reflexivity. Qed.

Lemma insert_after_delete (k : string * string) (df : DataFrame) (d : Database) :
  with_tables <[k := df]> (with_tables (delete k) d) = with_tables <[k := df]> d.
Proof. unfold with_tables. simpl. by rewrite insert_delete_eq. Qed.

Lemma connect_reachable (w : World) (db : string) :
  db ∉ unreachable w →
  connect db w = (set_database db (database_at w db) w, Returned db).
Proof. intros H. unfold connect. by rewrite bool_decide_eq_false_2. Qed.

Lemma connect_unreachable (w : World) (db : string) :
  db ∈ unreachable w → connect db w = (w, Raised (DuckDBError IOException)).
Proof. intros H. unfold connect. by rewrite bool_decide_eq_true_2. Qed.

Lemma bool_decide_is_Some_Some {A} (a : A) : bool_decide (is_Some (Some a)) = true.
Proof. apply bool_decide_eq_true_2. eauto. Qed.

Lemma bool_decide_is_Some_None {A} : bool_decide (is_Some (@None A)) = false.
Proof. apply bool_decide_eq_false_2. by intros [? ?]. Qed.

Ltac py_simpl :=
  repeat first
    [ progress unfold bind, ret, raise, reading, update, print, close,
        create_schema_if_not_exists, drop_table_if_exists,
        create_table_as_select, insert_into_select, table_exists,
        select_count, read_parquet, on_database, path_exists, path_glob,
        stamp, datetime_now, uuid4, getenv, mkdir, write_table,
        copy_to_parquet, raise_if_zero, try_reraise
    | progress cbn beta iota delta
        [fst snd tables schemas with_tables with_schema negb orb andb]
    | rewrite set_database_twice
    | rewrite database_at_set
    | rewrite database_at_say
    | rewrite table_at_set
    | rewrite table_at_say
    | rewrite raw_files_set
    | rewrite raw_files_say
    | rewrite lookup_delete_eq
    | rewrite lookup_insert_eq
    | rewrite bool_decide_is_Some_Some
    | rewrite bool_decide_is_Some_None ].

(** ** [load_to_duckdb], branch by branch *)

Section LoadToDuckDB.
Variables (w : World) (path db t : string).

Let key : string * string := ("raw", t).
Let prepared : Database := with_schema "raw" (database_at w db).

Lemma load_unreachable (m : mode) :
    db ∈ unreachable w →
    load_to_duckdb path db t m w = (w, Raised (DuckDBError IOException)).
  Proof.
    intros H. unfold load_to_duckdb. unfold bind at 1.
    by rewrite connect_unreachable.
  Qed.

Lemma load_full_refresh_ok (snap : DataFrame) :
    db ∉ unreachable w →
    raw_files w !! path = Some (ParquetFile snap) →
    load_to_duckdb path db t full_refresh w =
      (say (TotalRecords t (n_rows snap))
         (say (FullRefreshRecreated t)
            (set_database db (with_tables <[key := snap]> prepared) w)),
       Returned PyNone).
  Proof.
    intros Hreach Hsnap. unfold load_to_duckdb. unfold bind at 1.
    rewrite connect_reachable by done.
    py_simpl. rewrite Hsnap. py_simpl.
    by rewrite insert_after_delete.
  Qed.

Lemma load_full_refresh_unreadable (e : duckdb_error) :
    db ∉ unreachable w →
    snapshot_error (raw_files w !! path) = Some e →
    load_to_duckdb path db t full_refresh w =
      (set_database db (with_tables (delete key) prepared) w,
       Raised (DuckDBError e)).
  Proof.
    intros Hreach Hsnap. unfold load_to_duckdb. unfold bind at 1.
    rewrite connect_reachable by done.
    destruct (raw_files w !! path) as [[df|]|] eqn:Hfile; simplify_eq/=;
      repeat (progress (py_simpl; rewrite ?Hfile)); done.
  Qed.

Lemma load_incremental_create (snap : DataFrame) :
    db ∉ unreachable w →
    table_at w db "raw" t = None →
    raw_files w !! path = Some (ParquetFile snap) →
    load_to_duckdb path db t incremental w =
      (say (TotalRecords t (n_rows snap))
         (say (IncrementalCreated t)
            (set_database db (with_tables <[key := snap]> prepared) w)),
       Returned PyNone).
  Proof.
    intros Hreach Habsent Hsnap. unfold load_to_duckdb. unfold bind at 1.
    rewrite connect_reachable by done.
    unfold table_at in Habsent.
    py_simpl. rewrite Habsent. py_simpl. rewrite Hsnap. py_simpl.
    rewrite Habsent. by py_simpl.
  Qed.

Lemma load_incremental_append (tbl snap : DataFrame) :
    db ∉ unreachable w →
    table_at w db "raw" t = Some tbl →
    raw_files w !! path = Some (ParquetFile snap) →
    n_columns snap = n_columns tbl →
    load_to_duckdb path db t incremental w =
      (say (TotalRecords t (n_rows tbl + n_rows snap))
         (say (IncrementalAppended t)
            (set_database db
               (with_tables
                  <[key := {| columns := columns tbl;
                              rows := rows tbl ++ rows snap |}]> prepared) w)),
       Returned PyNone).
  Proof.
    intros Hreach Hthere Hsnap Hcols. unfold load_to_duckdb. unfold bind at 1.
    rewrite connect_reachable by done.
    unfold table_at in Hthere.
    py_simpl. rewrite Hthere. py_simpl. rewrite ?Hthere. py_simpl.
    rewrite Hsnap. py_simpl.
    rewrite bool_decide_eq_true_2 by done. py_simpl.
    unfold n_rows. simpl. by rewrite length_app.
  Qed.

Lemma load_incremental_unreadable (e : duckdb_error) :
    db ∉ unreachable w →
    snapshot_error (raw_files w !! path) = Some e →
    load_to_duckdb path db t incremental w =
      (set_database db prepared w, Raised (DuckDBError e)).
  Proof.
    intros Hreach Hsnap. unfold load_to_duckdb. unfold bind at 1.
    rewrite connect_reachable by done.
    py_simpl.
    destruct (raw_files w !! path) as [[df|]|] eqn:Hfile; simplify_eq/=;
      destruct (tables (database_at w db) !! ("raw", t)) as [tbl|] eqn:Htbl;
      repeat (progress (py_simpl; unfold table_at; rewrite ?Htbl, ?Hfile));
      done.
  Qed.

Lemma load_incremental_rejected (tbl snap : DataFrame) :
    db ∉ unreachable w →
    table_at w db "raw" t = Some tbl →
    raw_files w !! path = Some (ParquetFile snap) →
    n_columns snap ≠ n_columns tbl →
    load_to_duckdb path db t incremental w =
      (set_database db prepared w, Raised (DuckDBError BinderException)).
  Proof.
    intros Hreach Hthere Hsnap Hcols. unfold load_to_duckdb. unfold bind at 1.
    rewrite connect_reachable by done.
    unfold table_at in Hthere.
    py_simpl. rewrite Hthere. py_simpl. rewrite ?Hthere. py_simpl.
    rewrite Hsnap. py_simpl.
    rewrite bool_decide_eq_false_2 by done. by py_simpl.
  Qed.
End LoadToDuckDB.

Lemma table_at_set_other (w : World) (con : connection) (d : Database)
  (k : string * string) (s n : string) (f : gmap (string * string) DataFrame →
                                             gmap (string * string) DataFrame) :
  (∀ m, f m !! (s, n) = m !! (s, n)) →
  table_at (set_database con (with_tables f (with_schema "raw" (database_at w con))) w)
    con s n = table_at w con s n.
Proof. intros Hf. rewrite table_at_set. simpl. by rewrite Hf. Qed.

(** C1, as amended: a failed [full_refresh] load either never opened the
    store, which is then untouched, or failed on the snapshot after
    [DROP TABLE IF EXISTS] was committed: the table is gone, every other
    table is as before. *)
Theorem full_refresh_failure_state (w : World) (path db t : string)
  (w' : World) (e : exn) :
  load_to_duckdb path db t full_refresh w = (w', Raised e) →
  (db ∈ unreachable w ∧ w' = w)
  ∨ ((db ∉ unreachable w)
     ∧ (∃ err, snapshot_error (raw_files w !! path) = Some err
               ∧ e = DuckDBError err)
     ∧ table_at w' db "raw" t = None
     ∧ ∀ s n, (s, n) ≠ ("raw", t) → table_at w' db s n = table_at w db s n).
Proof.
  intros Hload.
  destruct (decide (db ∈ unreachable w)) as [Hun|Hreach].
  { rewrite load_unreachable in Hload by done. left. by simplify_eq. }
  right. split; [done|].
  destruct (snapshot_error (raw_files w !! path)) as [err|] eqn:Herr.
  - rewrite (load_full_refresh_unreadable _ _ _ _ err) in Hload by done.
    simplify_eq. split; [eauto|]. split.
    + rewrite table_at_set. simpl. apply lookup_delete_eq.
    + intros s n Hne. rewrite table_at_set. simpl.
      by rewrite lookup_delete_ne.
  - destruct (raw_files w !! path) as [[snap|]|] eqn:Hfile; simplify_eq/=.
    by rewrite (load_full_refresh_ok _ _ _ _ snap) in Hload.
Qed.

Lemma full_refresh_failure_state_witness :
  let r := load_to_duckdb "bad.parquet" "db" "raw_loans" full_refresh stale_world in
  r = (r.1, Raised (DuckDBError InvalidInputException))
  ∧ (("db" ∈ unreachable stale_world ∧ r.1 = stale_world)
     ∨ (("db" ∉ unreachable stale_world)
        ∧ (∃ err, snapshot_error (raw_files stale_world !! "bad.parquet") = Some err
                  ∧ DuckDBError InvalidInputException = DuckDBError err)
        ∧ table_at r.1 "db" "raw" "raw_loans" = None
        ∧ ∀ s n, (s, n) ≠ ("raw", "raw_loans") →
                 table_at r.1 "db" s n = table_at stale_world "db" s n)).
Proof.
  intros r. split; [reflexivity|].
  apply (full_refresh_failure_state stale_world "bad.parquet" "db" "raw_loans").
  reflexivity.
Defined.

(** C1 fails on the code: the old table holds one row, the load of a
    malformed snapshot raises, and the table is gone afterwards. *)
Lemma full_refresh_failure_drops_old_table :
  raw_count stale_world "db" "raw_loans" = Some 1
  ∧ ∃ w', load_to_duckdb "bad.parquet" "db" "raw_loans" full_refresh stale_world
          = (w', Raised (DuckDBError InvalidInputException))
          ∧ raw_count w' "db" "raw_loans" = None.
Proof.
  split; [reflexivity|].
  eexists. split; reflexivity.
Qed.

(** A failed [incremental] load, by contrast, leaves every table as it
    was: no statement before the failing one touches a table. *)
Lemma incremental_failure_keeps_tables (w : World) (path db t : string)
  (w' : World) (e : exn) (s n : string) :
  load_to_duckdb path db t incremental w = (w', Raised e) →
  table_at w' db s n = table_at w db s n.
Proof.
  intros Hload.
  destruct (decide (db ∈ unreachable w)) as [Hun|Hreach].
  { rewrite load_unreachable in Hload by done. by simplify_eq. }
  destruct (snapshot_error (raw_files w !! path)) as [err|] eqn:Herr.
  { rewrite (load_incremental_unreadable _ _ _ _ err) in Hload by done.
    simplify_eq. by rewrite table_at_set. }
  destruct (raw_files w !! path) as [[snap|]|] eqn:Hfile; simplify_eq/=.
  destruct (table_at w db "raw" t) as [tbl|] eqn:Htbl.
  - destruct (decide (n_columns snap = n_columns tbl)) as [Heq|Hne].
    + by rewrite (load_incremental_append _ _ _ _ tbl snap) in Hload.
    + rewrite (load_incremental_rejected _ _ _ _ tbl snap) in Hload by done.
      simplify_eq. by rewrite table_at_set.
  - by rewrite (load_incremental_create _ _ _ _ snap) in Hload.
Qed.

Lemma stdout_say (l : line) (w : World) : stdout (say l w) = stdout w ++ [l].
Proof. reflexivity. Qed.

Lemma stdout_set (w : World) (con : connection) (d : Database) :
  stdout (set_database con d w) = stdout w.
Proof. reflexivity. Qed.

Ltac world_simpl :=
  repeat first
    [ rewrite table_at_say
    | rewrite table_at_set
    | rewrite stdout_say
    | rewrite stdout_set
    | rewrite lookup_insert_eq
    | progress cbn beta iota delta [tables schemas with_tables with_schema] ].

(** What a load that returns has done: the snapshot was readable, the
    table is the snapshot under create and replace and the old rows
    followed by the snapshot's under append, the branch taken and the
    count are the two lines printed, and the value handed back is
    [None]. *)
Lemma load_returned_outcome (w : World) (path db t : string) (m : mode)
  (w' : World) (v : pyvalue) :
  load_to_duckdb path db t m w = (w', Returned v) →
  let old := table_at w db "raw" t in
  let there := bool_decide (is_Some old) in
  let act := LayerLoader_action there m in
  ∃ snap,
    raw_files w !! path = Some (ParquetFile snap)
    ∧ table_at w' db "raw" t = Some (action_table act old snap)
    ∧ stdout w'
      = stdout w ++ [action_line m there t;
                     TotalRecords t
                       (action_count act (default 0 (n_rows <$> old))
                          (n_rows snap))]
    ∧ v = PyNone.
Proof.
  intros Hload old there act. subst act there old.
  destruct (decide (db ∈ unreachable w)) as [Hun|Hreach].
  { by rewrite load_unreachable in Hload. }
  destruct (snapshot_error (raw_files w !! path)) as [err|] eqn:Herr.
  { destruct m.
    - by rewrite (load_full_refresh_unreadable _ _ _ _ err) in Hload.
    - by rewrite (load_incremental_unreadable _ _ _ _ err) in Hload. }
  destruct (raw_files w !! path) as [[snap|]|] eqn:Hfile; simplify_eq/=.
  exists snap. split; [done|]. destruct m.
  - rewrite (load_full_refresh_ok _ _ _ _ snap) in Hload by done.
    simplify_eq. world_simpl. rewrite <- app_assoc.
    destruct (table_at w db "raw" t);
      by rewrite ?bool_decide_is_Some_Some, ?bool_decide_is_Some_None.
  - destruct (table_at w db "raw" t) as [tbl|] eqn:Htbl.
    + destruct (decide (n_columns snap = n_columns tbl)) as [Heq|Hne].
      * rewrite (load_incremental_append _ _ _ _ tbl snap) in Hload by done.
        simplify_eq. world_simpl.
        by rewrite <- app_assoc, bool_decide_is_Some_Some.
      * by rewrite (load_incremental_rejected _ _ _ _ tbl snap) in Hload.
    + rewrite (load_incremental_create _ _ _ _ snap) in Hload by done.
      simplify_eq. world_simpl.
      by rewrite <- app_assoc, bool_decide_is_Some_None.
Qed.

Lemma n_rows_action_table (act : action) (old : option DataFrame)
  (snap : DataFrame) :
  (act = AppendRows → is_Some old) →
  n_rows (action_table act old snap)
  = action_count act (default 0 (n_rows <$> old)) (n_rows snap).
Proof.
  intros Hold. destruct act; simpl; try by destruct old.
  destruct (Hold eq_refl) as [tbl ->]. simpl.
  unfold n_rows. simpl. by rewrite length_app.
Qed.

(** C2, as amended: after a successful return [load_to_duckdb] has
    followed the decision table on a readable snapshot: under create and
    replace the table is the snapshot and the RAW row count is the
    snapshot's; under append the table keeps its columns and the count
    is the previous count plus the snapshot's.  The count is printed as
    the last line; the value handed back is [None], not the count. *)
Theorem load_to_duckdb_decision_table (w : World) (path db t : string) (m : mode)
  (w' : World) (v : pyvalue) :
  load_to_duckdb path db t m w = (w', Returned v) →
  let old := table_at w db "raw" t in
  let there := bool_decide (is_Some old) in
  let act := LayerLoader_action there m in
  ∃ snap count,
    raw_files w !! path = Some (ParquetFile snap)
    ∧ count = action_count act (default 0 (n_rows <$> old)) (n_rows snap)
    ∧ (act ≠ AppendRows → table_at w' db "raw" t = Some snap)
    ∧ (act = AppendRows →
       columns <$> table_at w' db "raw" t = columns <$> old)
    ∧ raw_count w' db t = Some count
    ∧ stdout w' = stdout w ++ [action_line m there t; TotalRecords t count]
    ∧ v = PyNone.
Proof.
  intros Hload old there act.
  destruct (load_returned_outcome w path db t m w' v Hload)
    as (snap & Hfile & Htable & Hout & Hv).
  fold old there act in Htable, Hout.
  assert (act = AppendRows → is_Some old) as Hold.
  { subst act there. destruct m; case_bool_decide; simpl; try done.
    all: by destruct (bool_decide _). }
  exists snap, (action_count act (default 0 (n_rows <$> old)) (n_rows snap)).
  split; [done|]. split; [done|]. split.
  { intros Hact. rewrite Htable. by destruct act, old. }
  split.
  { intros Hact. rewrite Htable, Hact.
    destruct (Hold Hact) as [tbl ->]. done. }
  split; [|by split].
  unfold raw_count. rewrite Htable. simpl. f_equal.
  by apply n_rows_action_table.
Qed.

Lemma load_to_duckdb_decision_table_witness :
  let r := load_to_duckdb "good.parquet" "db" "raw_loans" incremental stale_world in
  r = (r.1, Returned PyNone)
  ∧ ∃ snap count,
      raw_files stale_world !! "good.parquet" = Some (ParquetFile snap)
      ∧ count = action_count AppendRows 1 (n_rows snap)
      ∧ (AppendRows ≠ AppendRows →
         table_at r.1 "db" "raw" "raw_loans" = Some snap)
      ∧ (AppendRows = AppendRows →
         columns <$> table_at r.1 "db" "raw" "raw_loans" = Some ["Loan_ID"])
      ∧ raw_count r.1 "db" "raw_loans" = Some count
      ∧ stdout r.1 = [IncrementalAppended "raw_loans"; TotalRecords "raw_loans" count]
      ∧ PyNone = PyNone.
Proof.
  intros r.
  assert (r = (r.1, Returned PyNone)) as Hr by (vm_compute; reflexivity).
  split; [exact Hr|].
  exact (load_to_duckdb_decision_table stale_world "good.parquet" "db"
           "raw_loans" incremental r.1 PyNone Hr).
Defined.

(** A load that returns found the store open and the snapshot readable
    and, for an append, as many columns in it as the table has; it
    handed back [None]. *)
Lemma load_to_duckdb_returned_inv (w : World) (path db t : string) (m : mode)
  (w' : World) (v : pyvalue) :
  load_to_duckdb path db t m w = (w', Returned v) →
  v = PyNone
  ∧ (db ∉ unreachable w)
  ∧ (∃ snap, raw_files w !! path = Some (ParquetFile snap)
       ∧ ∀ tbl, m = incremental → table_at w db "raw" t = Some tbl →
                n_columns snap = n_columns tbl).
Proof.
  intros Hload.
  destruct (decide (db ∈ unreachable w)) as [Hun|Hreach].
  { by rewrite load_unreachable in Hload. }
  destruct (snapshot_error (raw_files w !! path)) as [err|] eqn:Herr.
  { destruct m.
    - by rewrite (load_full_refresh_unreadable _ _ _ _ err) in Hload.
    - by rewrite (load_incremental_unreadable _ _ _ _ err) in Hload. }
  destruct (raw_files w !! path) as [[snap|]|] eqn:Hfile; simplify_eq/=.
  destruct m.
  - rewrite (load_full_refresh_ok _ _ _ _ snap) in Hload by done.
    simplify_eq. repeat split; [done|]. exists snap. by split.
  - destruct (table_at w db "raw" t) as [tbl|] eqn:Htbl.
    + destruct (decide (n_columns snap = n_columns tbl)) as [Heq|Hne].
      * rewrite (load_incremental_append _ _ _ _ tbl snap) in Hload by done.
        simplify_eq. repeat split; [done|]. exists snap. split; [done|].
        intros tbl' _ ?. by simplify_eq.
      * by rewrite (load_incremental_rejected _ _ _ _ tbl snap) in Hload.
    + rewrite (load_incremental_create _ _ _ _ snap) in Hload by done.
      simplify_eq. repeat split; [done|]. exists snap. split; [done|].
      intros tbl' _ ?. by simplify_eq.
Qed.

(** C2 fails on the code in its last clause: the load below leaves three
    rows in the table and hands back [None], not the count. *)
Lemma load_to_duckdb_returns_none_not_count :
  ∃ w', load_to_duckdb "good.parquet" "db" "raw_loans" incremental stale_world
        = (w', Returned PyNone)
        ∧ raw_count w' "db" "raw_loans" = Some 3
        ∧ PyNone ≠ PyInt 3.
Proof.
  exists (load_to_duckdb "good.parquet" "db" "raw_loans" incremental stale_world).1.
  split; [vm_compute; reflexivity|]. split; [vm_compute; reflexivity|].
  discriminate.
Qed.

(** ** The quality gate *)

Section QualityGate.
Variables (root : string) (w : World).

Let store : string := duckdb_path (get_project_paths root).


Lemma validate_missing_table :
    store ∉ unreachable w →
    counts_at w store = None →
    (validate_data_quality root w).2 = Raised (DuckDBError CatalogException).
  Proof.
    intros Hreach Hnone. unfold validate_data_quality, try_reraise.
    unfold bind at 1. fold store. rewrite connect_reachable by done.
    unfold counts_at, table_at in Hnone.
    destruct (tables (database_at w store) !! ("raw", "raw_loans"))
      as [r|] eqn:Hr;
      destruct (tables (database_at w store) !! ("silver", "silver_loans"))
        as [s|] eqn:Hs;
      destruct (tables (database_at w store) !! ("gold", "fact_loan"))
        as [g|] eqn:Hg;
      simplify_eq/=;
      repeat (progress (py_simpl; rewrite ?Hr, ?Hs, ?Hg)); done.
  Qed.

Lemma validate_decides (c : layer_counts) :
    store ∉ unreachable w →
    counts_at w store = Some c →
    (validate_data_quality root w).2 = gate_decision c.
  Proof.
    intros Hreach Hsome. unfold validate_data_quality, try_reraise.
    unfold bind at 1. fold store. rewrite connect_reachable by done.
    unfold counts_at, table_at in Hsome.
    destruct (tables (database_at w store) !! ("raw", "raw_loans"))
      as [r|] eqn:Hr; [|done].
    destruct (tables (database_at w store) !! ("silver", "silver_loans"))
      as [s|] eqn:Hs; [|done].
    destruct (tables (database_at w store) !! ("gold", "fact_loan"))
      as [g|] eqn:Hg; [|done].
    simplify_eq/=.
    repeat (progress (py_simpl; rewrite ?Hr, ?Hs, ?Hg)).
    unfold gate_decision, raise_if_zero. simpl.
    destruct (Nat.eqb (n_rows r) 0); [by py_simpl|]. py_simpl.
    destruct (Nat.eqb (n_rows s) 0); [by py_simpl|]. py_simpl.
    destruct (Nat.eqb (n_rows g) 0); by py_simpl.
  Qed.
End QualityGate.

(** The zero tests of the code agree with the specification's
    comparison against the shipped thresholds, which are 1 for each
    layer. *)
Lemma gate_decision_is_spec (c : layer_counts) :
  gate_decision c = QualityGate_spec DATA_QUALITY_THRESHOLDS c.
Proof.
  destruct c as [r s g]. unfold gate_decision, QualityGate_spec. simpl.
  destruct r, s, g; reflexivity.
Qed.

Lemma gate_decision_empty_layer (c : layer_counts) :
  (∃ l, gate_decision c = Raised (EmptyLayer l))
  ↔ ∃ l, rows_of c l < minimum_rows DATA_QUALITY_THRESHOLDS l.
Proof.
  destruct c as [r s g]. unfold gate_decision. simpl. split.
  - intros [l Hl]. destruct r; [exists RAW; simpl; vm_compute; lia|].
    destruct s; [exists SILVER; vm_compute; lia|].
    destruct g; [exists GOLD; vm_compute; lia|]. done.
  - intros [l Hl].
    destruct r; [by exists RAW|]. destruct s; [by exists SILVER|].
    destruct g; [by exists GOLD|].
    destruct l; vm_compute in Hl; lia.
Qed.

(** C3, as amended: with the store open and the three canonical tables
    in place, the gate raises [EmptyLayer] exactly when some layer's
    count is zero; with RAW empty it raises [EmptyLayer RAW]; with all
    three layers non-empty it returns [True].  The test is the code's
    comparison with zero: it agrees with the specification's comparison
    against the configured minimums because the shipped minimums are 1,
    the thresholds themselves are not read. *)
Theorem quality_gate_empty_layer (root : string) (w : World) (c : layer_counts) :
  duckdb_path (get_project_paths root) ∉ unreachable w →
  counts_at w (duckdb_path (get_project_paths root)) = Some c →
  let outcome := (validate_data_quality root w).2 in
  outcome = gate_decision c
  ∧ ((∃ l, outcome = Raised (EmptyLayer l)) ↔ ∃ l, rows_of c l = 0)
  ∧ (raw_rows c = 0 → outcome = Raised (EmptyLayer RAW))
  ∧ (0 < raw_rows c → 0 < silver_rows c → 0 < gold_rows c →
     outcome = Returned true)
  ∧ outcome = QualityGate_spec DATA_QUALITY_THRESHOLDS c
  ∧ ((∃ l, outcome = Raised (EmptyLayer l))
     ↔ ∃ l, rows_of c l < minimum_rows DATA_QUALITY_THRESHOLDS l).
Proof.
  intros Hreach Hcounts outcome. subst outcome.
  rewrite (validate_decides root w c) by done.
  split; [done|]. split.
  { rewrite gate_decision_empty_layer. split; intros [l Hl]; exists l.
    - destruct l; vm_compute in Hl; vm_compute; lia.
    - destruct l; vm_compute in Hl; vm_compute; lia. }
  unfold gate_decision. split; [by intros ->|]. split.
  { intros Hr Hs Hg.
    destruct (raw_rows c), (silver_rows c), (gold_rows c); simpl; done || lia. }
  split; [apply gate_decision_is_spec | apply gate_decision_empty_layer].
Qed.

Lemma quality_gate_empty_layer_witness :
  let w := layered_world 0 10 10 in
  let c := {| raw_rows := 0; silver_rows := 10; gold_rows := 10 |} in
  let outcome := (validate_data_quality "/srv" w).2 in
  (duckdb_path (get_project_paths "/srv") ∉ unreachable w)
  ∧ counts_at w (duckdb_path (get_project_paths "/srv")) = Some c
  ∧ outcome = gate_decision c
  ∧ ((∃ l, outcome = Raised (EmptyLayer l)) ↔ ∃ l, rows_of c l = 0)
  ∧ (raw_rows c = 0 → outcome = Raised (EmptyLayer RAW))
  ∧ (0 < raw_rows c → 0 < silver_rows c → 0 < gold_rows c →
     outcome = Returned true)
  ∧ outcome = QualityGate_spec DATA_QUALITY_THRESHOLDS c
  ∧ ((∃ l, outcome = Raised (EmptyLayer l))
     ↔ ∃ l, rows_of c l < minimum_rows DATA_QUALITY_THRESHOLDS l).
Proof.
  intros w c outcome.
  split; [by vm_compute|]. split; [reflexivity|].
  apply (quality_gate_empty_layer "/srv" w c); [by vm_compute | reflexivity].
Defined.

(** C3 fails on the code, which does not decide by the counts in every
    store state: here RAW holds no row, below its minimum of one, and
    SILVER is missing; the gate raises DuckDB's catalog error and no
    [EmptyLayer]. *)
Lemma gate_empty_raw_without_silver :
  let store := duckdb_path (get_project_paths "/srv") in
  let outcome := (validate_data_quality "/srv" half_built_world).2 in
  (store ∉ unreachable half_built_world)
  ∧ raw_count half_built_world store "raw_loans" = Some 0
  ∧ 0 < minimum_rows DATA_QUALITY_THRESHOLDS RAW
  ∧ table_at half_built_world store "silver" "silver_loans" = None
  ∧ outcome = Raised (DuckDBError CatalogException)
  ∧ ∀ l, outcome ≠ Raised (EmptyLayer l).
Proof.
  intros store outcome.
  assert (outcome = Raised (DuckDBError CatalogException)) as ->
    by reflexivity.
  split; [by vm_compute|]. split; [reflexivity|].
  split; [vm_compute; lia|]. split; [reflexivity|]. split; [done|].
  intros l. destruct l; discriminate.
Qed.

Example gate_rejects_empty_raw :
  (validate_data_quality "/srv" (layered_world 0 10 10)).2
  = Raised (EmptyLayer RAW).
Proof. reflexivity. Qed.

Example gate_accepts_filled_layers :
  (validate_data_quality "/srv" (layered_world 3 10 10)).2 = Returned true.
Proof. reflexivity. Qed.

(** A canonical table that is missing makes the gate raise DuckDB's
    catalog error before any count is compared. *)
Example gate_on_missing_table :
  (validate_data_quality "/srv"
     (with_table (duckdb_path (get_project_paths "/srv")) "raw" "raw_loans"
        (frame_of_rows 0) empty_world)).2
  = Raised (DuckDBError CatalogException).
Proof. reflexivity. Qed.

(** The thresholds are not an input of the gate: with a minimum of five
    RAW rows configured, three rows still pass the code while the
    specification's comparison rejects them. *)
Example gate_ignores_thresholds :
  let strict := <["min_raw_rows" := 5]> DATA_QUALITY_THRESHOLDS in
  let c := {| raw_rows := 3; silver_rows := 10; gold_rows := 10 |} in
  gate_decision c = Returned true
  ∧ QualityGate_spec strict c = Raised (EmptyLayer RAW).
Proof. split; reflexivity. Qed.

(** ** SourceLoader: which mode is taken *)

(** C6, as amended: the single path is tried first, the directory only
    when no single path is given, and with neither the loader raises
    the [ValueError] that stands for [InvalidConfiguration].  With both
    selected the single path takes precedence: directory and pattern are
    not looked at. *)
Theorem source_mode_selection (excel_path excel_dir excel_pattern : option string)
  (w : World) :
  load_excel_files excel_path excel_dir excel_pattern w
  = if truthy excel_path then load_excel_files excel_path None None w
    else if truthy excel_dir then load_excel_files None excel_dir excel_pattern w
    else (w, Raised InvalidConfiguration).
Proof.
  unfold load_excel_files.
  destruct (truthy excel_path) eqn:Hp.
  - reflexivity.
  - destruct (truthy excel_dir) eqn:Hd; [reflexivity|].
    by py_simpl.
Qed.

(** C6 fails on the code in its second half: with both a single path
    and a directory selected, the loader returns what single-path mode
    returns, one row from [book.xlsx], and not the four rows directory
    mode returns. *)
Lemma both_sources_reads_single_path :
  let both := load_excel_files (Some "book.xlsx") (Some "data") None source_world in
  let single := load_excel_files (Some "book.xlsx") None None source_world in
  let directory := load_excel_files None (Some "data") None source_world in
  both = single
  ∧ n_rows <$> (match both.2 with Returned df => Some df | Raised _ => None end) = Some 1
  ∧ n_rows <$> (match directory.2 with Returned df => Some df | Raised _ => None end) = Some 4
  ∧ both.2 ≠ directory.2.
Proof.
  split; [reflexivity|]. split; [reflexivity|]. split; [reflexivity|].
  vm_compute. discriminate.
Qed.

(** ** Frames *)

Lemma index_of_lookup (c : string) (cols : list string) (i : nat) :
  index_of c cols = Some i → cols !! i = Some c.
Proof.
  revert i. induction cols as [|c' cols IH]; intros i; simpl; [done|].
  destruct (String.eqb c' c) eqn:Heq.
  - intros [= <-]. apply String.eqb_eq in Heq. by subst.
  - destruct (index_of c cols) as [j|]; simpl; [|done].
    intros [= <-]. simpl. by apply IH.
Qed.

Lemma index_of_None (c : string) (cols : list string) :
  index_of c cols = None ↔ c ∉ cols.
Proof.
  induction cols as [|c' cols IH]; simpl.
  - split; [intros _; apply not_elem_of_nil | done].
  - destruct (String.eqb c' c) eqn:Heq.
    + apply String.eqb_eq in Heq. subst. split; [done|].
      intros Hn. exfalso. apply Hn. left.
    + apply String.eqb_neq in Heq. rewrite not_elem_of_cons.
      destruct (index_of c cols); simpl.
      * split; [done|]. intros [_ Hn]. by apply IH in Hn.
      * split; [|done]. intros _. split; [done|]. by apply IH.
Qed.

Lemma index_of_is_Some (c : string) (cols : list string) :
  c ∈ cols → ∃ i, index_of c cols = Some i ∧ i < length cols.
Proof.
  intros Hin. destruct (index_of c cols) as [i|] eqn:Hi.
  - exists i. split; [done|]. apply index_of_lookup in Hi.
    by apply lookup_lt_Some in Hi.
  - by apply index_of_None in Hi.
Qed.

Lemma index_of_app_l (c : string) (cols more : list string) (i : nat) :
  index_of c cols = Some i → index_of c (cols ++ more) = Some i.
Proof.
  revert i. induction cols as [|c' cols IH]; intros i; simpl; [done|].
  destruct (String.eqb c' c); [done|].
  destruct (index_of c cols) as [j|]; simpl; [|done].
  intros [= <-]. by rewrite (IH j).
Qed.

Lemma index_of_app_new (c : string) (cols : list string) :
  index_of c cols = None → index_of c (cols ++ [c]) = Some (length cols).
Proof.
  induction cols as [|c' cols IH]; simpl.
  - by rewrite String.eqb_refl.
  - destruct (String.eqb c' c); [done|].
    destruct (index_of c cols); simpl; [done|].
    intros _. by rewrite IH.
Qed.

Lemma index_of_app_other (c c0 : string) (cols : list string) :
  c ≠ c0 → index_of c cols = None → index_of c (cols ++ [c0]) = None.
Proof.
  intros Hne Hnone. apply index_of_None. apply index_of_None in Hnone.
  rewrite elem_of_app, list_elem_of_singleton. tauto.
Qed.

Lemma set_column_unfold (c : string) (v : scalar) (df : DataFrame) :
  set_column c v df
  = {| columns := add_column (columns df) c;
       rows := set_cell (columns df) c v <$> rows df |}.
Proof.
  unfold set_column, add_column, set_cell.
  by destruct (index_of c (columns df)).
Qed.

Lemma n_rows_set_column (c : string) (v : scalar) (df : DataFrame) :
  n_rows (set_column c v df) = n_rows df.
Proof. rewrite set_column_unfold. unfold n_rows. simpl. apply length_fmap. Qed.

Lemma n_rows_stamped (df : DataFrame) (name : string) (t : datetime) :
  n_rows (stamped df name t) = n_rows df.
Proof. unfold stamped. by rewrite !n_rows_set_column. Qed.

Lemma columns_stamped (df : DataFrame) (name : string) (t : datetime) :
  columns (stamped df name t)
  = add_column (add_column (columns df) "_source_file") "_ingestion_timestamp".
Proof. unfold stamped. by rewrite !set_column_unfold. Qed.

Lemma rows_stamped (df : DataFrame) (name : string) (t : datetime) :
  rows (stamped df name t) = stamped_row (columns df) name t <$> rows df.
Proof.
  unfold stamped. rewrite !set_column_unfold. simpl.
  by rewrite <- list_fmap_compose.
Qed.

Lemma elem_of_add_column (cols : list string) (c c' : string) :
  c' ∈ add_column cols c ↔ c' ∈ cols ∨ c' = c.
Proof.
  unfold add_column. destruct (index_of c cols) as [i|] eqn:Hi.
  - split; [tauto|]. intros [?| ->]; [done|].
    apply index_of_lookup in Hi. by eapply list_elem_of_lookup_2.
  - by rewrite elem_of_app, list_elem_of_singleton.
Qed.

Section Cells.
Variables (cols : list string) (row : list scalar).
Hypothesis Hrect : length row = length cols.

Lemma length_set_cell (c : string) (v : scalar) :
    length (set_cell cols c v row) = length (add_column cols c).
  Proof.
    unfold set_cell, add_column. destruct (index_of c cols).
    - by rewrite length_insert.
    - rewrite !length_app. simpl. lia.
  Qed.

Lemma cell_set_cell_eq (c : string) (v : scalar) :
    cell (add_column cols c) (set_cell cols c v row) c = v.
  Proof.
    unfold cell, set_cell, add_column.
    destruct (index_of c cols) as [i|] eqn:Hi.
    - rewrite Hi. apply index_of_lookup, lookup_lt_Some in Hi.
      rewrite list_lookup_insert_eq by lia. done.
    - rewrite index_of_app_new by done. rewrite <- Hrect.
      by rewrite lookup_app_r, Nat.sub_diag by lia.
  Qed.

Lemma cell_set_cell_ne (c c' : string) (v : scalar) :
    c' ≠ c → cell (add_column cols c) (set_cell cols c v row) c' = cell cols row c'.
  Proof.
    intros Hne. unfold cell, set_cell, add_column.
    destruct (index_of c cols) as [i|] eqn:Hi.
    - destruct (index_of c' cols) as [j|] eqn:Hj; [|done].
      rewrite list_lookup_insert_ne; [done|].
      intros ->. apply index_of_lookup in Hi, Hj. congruence.
    - destruct (index_of c' cols) as [j|] eqn:Hj.
      + rewrite (index_of_app_l _ _ _ j) by done.
        apply index_of_lookup, lookup_lt_Some in Hj.
        by rewrite lookup_app_l by lia.
      + by rewrite index_of_app_other.
  Qed.

End Cells.

(** The provenance pair of a stamped row, and the cells it leaves alone. *)
Section StampedRow.
Variables (cols : list string) (row : list scalar).
Variables (name : string) (t : datetime).
Hypothesis Hrect : length row = length cols.

Let stamped_cols : list string :=
    add_column (add_column cols "_source_file") "_ingestion_timestamp".

Lemma length_stamped_row :
    length (stamped_row cols name t row) = length stamped_cols.
  Proof.
    unfold stamped_row, stamped_cols.
    by rewrite length_set_cell; rewrite ?length_set_cell.
  Qed.

Lemma stamped_row_source_file :
    cell stamped_cols (stamped_row cols name t row) "_source_file" = Str name.
  Proof.
    unfold stamped_row, stamped_cols.
    rewrite cell_set_cell_ne; [|by rewrite length_set_cell|done].
    by rewrite cell_set_cell_eq.
  Qed.

Lemma stamped_row_ingestion_timestamp :
    cell stamped_cols (stamped_row cols name t row) "_ingestion_timestamp"
    = Instant t.
  Proof.
    unfold stamped_row, stamped_cols.
    by rewrite cell_set_cell_eq; rewrite ?length_set_cell.
  Qed.

Lemma stamped_row_other (c : string) :
    c ≠ "_source_file" → c ≠ "_ingestion_timestamp" →
    cell stamped_cols (stamped_row cols name t row) c = cell cols row c.
  Proof.
    intros Hs Ht. unfold stamped_row, stamped_cols.
    rewrite cell_set_cell_ne; [|by rewrite length_set_cell|done].
    by rewrite cell_set_cell_ne.
  Qed.
End StampedRow.

Lemma rectangular_stamped (df : DataFrame) (name : string) (t : datetime) :
  rectangular df → rectangular (stamped df name t).
Proof.
  unfold rectangular. rewrite rows_stamped, columns_stamped.
  intros Hrect. apply Forall_fmap. eapply Forall_impl; [exact Hrect|].
  intros row Hrow. simpl. by apply length_stamped_row.
Qed.

Lemma elem_of_union_columns (acc cols : list string) (c : string) :
  c ∈ union_columns acc cols ↔ c ∈ acc ∨ c ∈ cols.
Proof.
  revert acc. induction cols as [|c' cols IH]; intros acc; simpl.
  - rewrite elem_of_nil. tauto.
  - case_bool_decide as Hin; rewrite IH, elem_of_cons.
    + split; [tauto|]. intros [?|[->|?]]; tauto.
    + rewrite elem_of_app, list_elem_of_singleton. tauto.
Qed.

Lemma elem_of_foldl_union (dfs : list DataFrame) (acc : list string) (c : string) :
  c ∈ foldl (λ acc df, union_columns acc (columns df)) acc dfs
  ↔ c ∈ acc ∨ ∃ df, df ∈ dfs ∧ c ∈ columns df.
Proof.
  revert acc. induction dfs as [|df dfs IH]; intros acc; simpl.
  - split; [tauto|]. intros [?|(df & Hdf & _)]; [done|].
    by apply elem_of_nil in Hdf.
  - rewrite IH, elem_of_union_columns. split.
    + intros [[?|?]|(df' & ? & ?)]; [tauto| |].
      * right. exists df. split; [left|done].
      * right. exists df'. split; [by right|done].
    + intros [?|(df' & Hdf' & ?)]; [tauto|].
      apply elem_of_cons in Hdf' as [->|?]; [tauto|].
      right. by exists df'.
Qed.

Lemma elem_of_all_columns (dfs : list DataFrame) (c : string) :
  c ∈ all_columns dfs ↔ ∃ df, df ∈ dfs ∧ c ∈ columns df.
Proof.
  unfold all_columns. rewrite elem_of_foldl_union, elem_of_nil. tauto.
Qed.

Lemma cell_absent (cols : list string) (row : list scalar) (c : string) :
  c ∉ cols → cell cols row c = Null.
Proof. intros Hc. unfold cell. apply index_of_None in Hc. by rewrite Hc. Qed.

Lemma cell_reindex (target cols : list string) (row : list scalar) (c : string) :
  cell target (reindex target cols row) c
  = if bool_decide (c ∈ target) then cell cols row c else Null.
Proof.
  unfold cell at 1. destruct (index_of c target) as [i|] eqn:Hi.
  - apply index_of_lookup in Hi.
    rewrite bool_decide_eq_true_2 by by eapply list_elem_of_lookup_2.
    unfold reindex. by rewrite list_lookup_fmap, Hi.
  - apply index_of_None in Hi. by rewrite bool_decide_eq_false_2.
Qed.

(** A row laid out on columns that include its own reads the same
    under every label: labels it lacked read as null. *)
Lemma cell_reindex_superset (target cols : list string) (row : list scalar)
  (c : string) :
  (∀ c', c' ∈ cols → c' ∈ target) →
  cell target (reindex target cols row) c = cell cols row c.
Proof.
  intros Hsub. rewrite cell_reindex. case_bool_decide as Hin; [done|].
  symmetry. apply cell_absent. intros Hc. by apply Hin, Hsub.
Qed.

Lemma length_bind_reindex (target : list string) (dfs : list DataFrame) :
  length (dfs ≫= reindex_frame target) = sum_list (n_rows <$> dfs).
Proof.
  induction dfs as [|df dfs IH]; [done|].
  rewrite bind_cons, fmap_cons, length_app, IH. simpl.
  unfold reindex_frame, n_rows. by rewrite length_fmap.
Qed.

Lemma n_rows_unified (dfs : list DataFrame) :
  n_rows (unified dfs) = sum_list (n_rows <$> dfs).
Proof.
  destruct dfs as [|df [|df' dfs]]; [done|simpl; lia|].
  exact (length_bind_reindex _ (df :: df' :: dfs)).
Qed.

Lemma lookup_bind_reindex (target : list string) (dfs : list DataFrame)
  (k i : nat) (df : DataFrame) (row : list scalar) :
  dfs !! k = Some df → rows df !! i = Some row →
  (dfs ≫= reindex_frame target) !! (sum_list (n_rows <$> take k dfs) + i)
  = Some (reindex target (columns df) row).
Proof.
  revert k. induction dfs as [|df0 dfs IH]; intros k; [done|].
  rewrite bind_cons. destruct k as [|k].
  - intros [= ->] Hrow. simpl. rewrite lookup_app_l.
    + unfold reindex_frame. by rewrite list_lookup_fmap, Hrow.
    + unfold reindex_frame. rewrite length_fmap. by eapply lookup_lt_Some.
  - intros Hk Hrow. specialize (IH k Hk Hrow).
    change (sum_list (n_rows <$> take (S k) (df0 :: dfs)))
      with (n_rows df0 + sum_list (n_rows <$> take k dfs)).
    assert (length (reindex_frame target df0) = n_rows df0) as Hlen.
    { unfold reindex_frame, n_rows. by rewrite length_fmap. }
    rewrite lookup_app_r by lia.
    replace (n_rows df0 + sum_list (n_rows <$> take k dfs) + i
             - length (reindex_frame target df0))
      with (sum_list (n_rows <$> take k dfs) + i) by lia.
    exact IH.
Qed.

(** Row [i] of frame [k] sits in the unified frame after the rows of
    the frames before it, and reads there as it read in its frame. *)
Lemma unified_row (dfs : list DataFrame) (k i : nat) (df : DataFrame)
  (row : list scalar) :
  dfs !! k = Some df → rows df !! i = Some row →
  ∃ out, rows (unified dfs) !! (sum_list (n_rows <$> take k dfs) + i) = Some out
         ∧ ∀ c, cell (columns (unified dfs)) out c = cell (columns df) row c.
Proof.
  intros Hk Hrow.
  destruct dfs as [|df0 [|df1 dfs]]; [done| |].
  - destruct k; [|done]. simpl in *. simplify_eq. by exists row.
  - exists (reindex (all_columns (df0 :: df1 :: dfs)) (columns df) row).
    split; [by apply lookup_bind_reindex|].
    intros c. apply cell_reindex_superset. intros c' Hc'.
    apply elem_of_all_columns. exists df. split; [|done].
    by eapply list_elem_of_lookup_2.
Qed.

Lemma elem_of_columns_unified (dfs : list DataFrame) (c : string) :
  c ∈ columns (unified dfs) ↔ ∃ df, df ∈ dfs ∧ c ∈ columns df.
Proof.
  destruct dfs as [|df0 [|df1 dfs]]; try apply elem_of_all_columns.
  simpl. split.
  - intros Hc. exists df0. split; [left|done].
  - intros (df & Hdf & Hc). apply list_elem_of_singleton in Hdf. by subst.
Qed.

Lemma unified_row_inv (dfs : list DataFrame) (out : list scalar) :
  out ∈ rows (unified dfs) →
  ∃ df row, df ∈ dfs ∧ row ∈ rows df
            ∧ ∀ c, cell (columns (unified dfs)) out c = cell (columns df) row c.
Proof.
  destruct dfs as [|df0 [|df1 dfs]].
  - intros Hin. by apply elem_of_nil in Hin.
  - intros Hin. exists df0, out. split; [left|done].
  - intros Hin. apply list_elem_of_bind in Hin as (df & Hrow & Hdf).
    unfold reindex_frame in Hrow. apply list_elem_of_fmap in Hrow as (row & -> & Hrow).
    exists df, row. split; [done|]. split; [done|].
    intros c. apply cell_reindex_superset. intros c' Hc'.
    apply elem_of_all_columns. by exists df.
Qed.

(** ** The stamped frames of a run *)

Lemma stamp_all_lookup (clk : nat → datetime) (files : list string)
  (frames : list DataFrame) (start k : nat) (f : string) (df : DataFrame) :
  files !! k = Some f → frames !! k = Some df →
  stamp_all clk start files frames !! k
  = Some (stamped df (basename f) (clk (start + k))).
Proof.
  revert frames start k.
  induction files as [|f0 files IH]; intros [|df0 frames] start [|k]; try done.
  - intros [= ->] [= ->]. simpl. by rewrite Nat.add_0_r.
  - simpl. intros Hf Hdf. rewrite (IH _ _ _ Hf Hdf). do 3 f_equal. lia.
Qed.

Lemma elem_of_stamp_all (clk : nat → datetime) (files : list string)
  (frames : list DataFrame) (start : nat) (sdf : DataFrame) :
  sdf ∈ stamp_all clk start files frames →
  ∃ k f df, files !! k = Some f ∧ frames !! k = Some df
            ∧ sdf = stamped df (basename f) (clk (start + k)).
Proof.
  revert frames start.
  induction files as [|f0 files IH]; intros [|df0 frames] start; simpl;
    try (intros Hin; by apply elem_of_nil in Hin).
  intros Hin. apply elem_of_cons in Hin as [->|Hin].
  - exists 0, f0, df0. by rewrite Nat.add_0_r.
  - apply IH in Hin as (k & f & df & Hf & Hdf & ->).
    exists (S k), f, df. repeat split; [done..|]. do 2 f_equal. lia.
Qed.

Lemma n_rows_stamp_all (clk : nat → datetime) (files : list string)
  (frames : list DataFrame) (start : nat) :
  length files = length frames →
  n_rows <$> stamp_all clk start files frames = n_rows <$> frames.
Proof.
  revert frames start.
  induction files as [|f0 files IH]; intros [|df0 frames] start; try done.
  simpl. intros [= Hlen]. by rewrite n_rows_stamped, IH.
Qed.

Lemma length_stamp_all (clk : nat → datetime) (files : list string)
  (frames : list DataFrame) (start : nat) :
  length files = length frames →
  length (stamp_all clk start files frames) = length files.
Proof.
  revert frames start.
  induction files as [|f0 files IH]; intros [|df0 frames] start; try done.
  simpl. intros [= Hlen]. by rewrite IH.
Qed.

(** ** Running [load_excel_files] *)

Lemma only_clock_and_output_refl (w : World) : only_clock_and_output w w.
Proof. by repeat split. Qed.

Lemma only_clock_and_output_trans (w1 w2 w3 : World) :
  only_clock_and_output w1 w2 → only_clock_and_output w2 w3 →
  only_clock_and_output w1 w3.
Proof.
  unfold only_clock_and_output. intros H12 H23.
  destruct_and!. repeat split; congruence.
Qed.

Lemma read_excel_spreadsheet (w : World) (p : string) (df : DataFrame) :
  sources w !! p = Some (Spreadsheet df) → read_excel p w = (w, Returned df).
Proof. intros H. unfold read_excel. by rewrite H. Qed.

Lemma load_each_returns (files : list string) (frames dfs : list DataFrame)
  (w : World) :
  readable w files frames →
  ∃ w', load_each files dfs w
        = (w', Returned (dfs ++ stamp_all (clock w) (ticks w) files frames))
        ∧ only_clock_and_output w w'
        ∧ ticks w' = ticks w + length files.
Proof.
  unfold readable. intros Hread. revert frames dfs w Hread.
  induction files as [|f files IH]; intros frames dfs w Hread.
  - apply Forall2_nil_inv_l in Hread as ->. exists w. simpl.
    rewrite app_nil_r. split; [done|].
    split; [apply only_clock_and_output_refl | lia].
  - apply Forall2_cons_inv_l in Hread as (df & frames' & Hf & Hrest & ->).
    set (w1 := with_ticks S (say (Processing (basename f)) w)).
    destruct (IH frames' (dfs ++ [stamped df (basename f) (clock w (ticks w))])
                w1 Hrest) as (w' & Hrun & Hframe & Hticks).
    exists w'. split; [|split].
    + simpl load_each. py_simpl.
      rewrite (read_excel_spreadsheet _ _ df) by exact Hf.
      unfold stamp, datetime_now. py_simpl. fold w1.
      etrans; [exact Hrun|]. by rewrite <- app_assoc.
    + eapply only_clock_and_output_trans; [|exact Hframe].
      by repeat split.
    + rewrite Hticks. simpl. lia.
Qed.

Lemma stamp_all_nonempty (clk : nat → datetime) (start : nat) (f : string)
  (files : list string) (frames : list DataFrame) :
  length (f :: files) = length frames →
  ∃ sdf sdfs, stamp_all clk start (f :: files) frames = sdf :: sdfs.
Proof. destruct frames as [|df frames]; [done|]. simpl. eauto. Qed.

Lemma finish_is_unified (sdf : DataFrame) (sdfs : list DataFrame) (w : World) :
  match sdf :: sdfs with
  | [df] => ret df
  | _ => concat (sdf :: sdfs)
  end w = (w, Returned (unified (sdf :: sdfs))).
Proof. by destruct sdfs. Qed.

Lemma load_excel_files_returns (w : World)
  (excel_path excel_dir excel_pattern : option string) (frames : list DataFrame) :
  let files := selected_files w excel_path excel_dir excel_pattern in
  files ≠ [] →
  directory_found w excel_path excel_dir →
  readable w files frames →
  ∃ w', load_excel_files excel_path excel_dir excel_pattern w
        = (w', Returned (unified (stamp_all (clock w) (ticks w) files frames)))
        ∧ only_clock_and_output w w'.
Proof.
  intros files Hne Hdir Hread. subst files.
  unfold load_excel_files, selected_files in *.
  destruct (truthy excel_path) eqn:Hp.
  - apply Forall2_cons_inv_l in Hread as (df & frames' & Hf & Hrest & ->).
    apply Forall2_nil_inv_l in Hrest as ->.
    eexists. split.
    + py_simpl. rewrite Hf. py_simpl.
      rewrite (read_excel_spreadsheet _ _ df) by exact Hf.
      py_simpl. reflexivity.
    + by repeat split.
  - destruct (truthy excel_dir) eqn:Hd; [|done].
    specialize (Hdir Hp).
    assert (bool_decide (is_Some (sources w !! default "" excel_dir))
            || bool_decide (default "" excel_dir ∈ directories w) = true)
      as Hfound.
    { destruct Hdir as [?|?].
      - by rewrite bool_decide_eq_true_2.
      - rewrite (bool_decide_eq_true_2 (_ ∈ _)) by done. apply orb_true_r. }
    destruct (truthy excel_pattern) eqn:Hpat.
    all: match type of Hread with readable _ ?l _ =>
           destruct l as [|f files'] eqn:Hfiles; [done|] end.
    all: set (w1 := say (LoadingDirectory (length (f :: files'))
                           (default "" excel_dir)) w).
    all: destruct (load_each_returns (f :: files') frames [] w1 Hread)
           as (w' & Hrun & Hframe & _).
    all: destruct (stamp_all_nonempty (clock w) (ticks w) f files' frames)
           as (sdf & sdfs & Hsdfs); [by eapply Forall2_length|].
    all: exists w'; split;
           [|eapply only_clock_and_output_trans; [|exact Hframe];
             by repeat split].
    all: py_simpl; rewrite Hfound; py_simpl; rewrite Hfiles; py_simpl;
           fold w1; rewrite Hrun; simpl app;
           change (stamp_all (clock w1) (ticks w1)) with (stamp_all (clock w) (ticks w));
           rewrite Hsdfs; apply finish_is_unified.
Qed.

Lemma stamped_frame_row (df : DataFrame) (name : string) (t : datetime)
  (srow : list scalar) :
  rectangular df →
  srow ∈ rows (stamped df name t) →
  cell (columns (stamped df name t)) srow "_source_file" = Str name
  ∧ cell (columns (stamped df name t)) srow "_ingestion_timestamp" = Instant t.
Proof.
  intros Hrect. rewrite rows_stamped, columns_stamped.
  intros (orig & -> & Horig)%list_elem_of_fmap.
  unfold rectangular in Hrect. rewrite Forall_forall in Hrect.
  specialize (Hrect orig Horig).
  split; [by apply stamped_row_source_file
         | by apply stamped_row_ingestion_timestamp].
Qed.

Lemma sum_take_stamp_all (clk : nat → datetime) (files : list string)
  (frames : list DataFrame) (start k : nat) :
  length files = length frames →
  sum_list (n_rows <$> take k (stamp_all clk start files frames))
  = sum_list (n_rows <$> take k frames).
Proof.
  intros Hlen. by rewrite !fmap_take, n_rows_stamp_all.
Qed.

(** C7: for the single file, or for the files a directory's glob
    discovers, all of them spreadsheets, the loader returns one frame
    whose row count is the sum of the files' row counts; whose columns
    are those of the files together with the provenance pair; in which
    row [i] of file [k] comes after the rows of the files before it and
    reads as in its file, null under the columns its file lacks; and in
    which every row has its file's name and an instant of ingestion. *)
Theorem source_loader_unified_output (w : World)
  (excel_path excel_dir excel_pattern : option string)
  (files : list string) (frames : list DataFrame) :
  selected_files w excel_path excel_dir excel_pattern = files →
  files ≠ [] →
  directory_found w excel_path excel_dir →
  readable w files frames →
  Forall rectangular frames →
  unified_output w excel_path excel_dir excel_pattern files frames.
Proof.
  intros <- Hne Hdir Hread Hrect. unfold unified_output.
  destruct (load_excel_files_returns w excel_path excel_dir excel_pattern frames
              Hne Hdir Hread) as (w' & Hrun & _).
  set (files := selected_files w excel_path excel_dir excel_pattern) in *.
  set (sdfs := stamp_all (clock w) (ticks w) files frames) in *.
  assert (length files = length frames) as Hlen by by eapply Forall2_length.
  exists w', (unified sdfs). split; [exact Hrun|].
  split; [|split; [|split]].
  - rewrite n_rows_unified. subst sdfs. by rewrite n_rows_stamp_all.
  - intros c. rewrite elem_of_columns_unified. split.
    + intros (sdf & Hsdf & Hc).
      apply elem_of_stamp_all in Hsdf as (k & f & df & Hf & Hdf & ->).
      rewrite columns_stamped, !elem_of_add_column in Hc.
      destruct Hc as [[Hc| ->]| ->]; [|tauto..].
      right. right. exists df. split; [|done].
      by eapply list_elem_of_lookup_2.
    + intros Hc.
      assert (∀ k f df, files !! k = Some f → frames !! k = Some df →
                c ∈ add_column (add_column (columns df) "_source_file")
                      "_ingestion_timestamp" →
                ∃ sdf, sdf ∈ sdfs ∧ c ∈ columns sdf) as Hin.
      { intros k f df Hf Hdf Hcol.
        exists (stamped df (basename f) (clock w (ticks w + k))).
        split; [|by rewrite columns_stamped].
        eapply list_elem_of_lookup_2. by apply stamp_all_lookup. }
      destruct Hc as [->|[->|(df & Hdf & Hc)]].
      * destruct files as [|f files'] eqn:Hfiles; [done|].
        destruct frames as [|df frames']; [done|].
        apply (Hin 0 f df); [done..|].
        rewrite !elem_of_add_column. tauto.
      * destruct files as [|f files'] eqn:Hfiles; [done|].
        destruct frames as [|df frames']; [done|].
        apply (Hin 0 f df); [done..|].
        rewrite !elem_of_add_column. tauto.
      * apply list_elem_of_lookup in Hdf as (k & Hdf).
        destruct (lookup_lt_is_Some_2 files k) as (f & Hf).
        { rewrite Hlen. by eapply lookup_lt_Some. }
        apply (Hin k f df); [done..|].
        rewrite !elem_of_add_column. tauto.
  - intros k f df i orig Hf Hdf Horig.
    pose proof (stamp_all_lookup (clock w) files frames (ticks w) k f df Hf Hdf)
      as Hsdf. fold sdfs in Hsdf.
    assert (length orig = length (columns df)) as Hcells.
    { rewrite Forall_forall in Hrect.
      specialize (Hrect df (list_elem_of_lookup_2 _ _ _ Hdf)).
      unfold rectangular in Hrect. rewrite Forall_forall in Hrect.
      apply Hrect. by eapply list_elem_of_lookup_2. }
    destruct (unified_row sdfs k i _
                (stamped_row (columns df) (basename f) (clock w (ticks w + k)) orig)
                Hsdf) as (row & Hrow & Hread').
    { by rewrite rows_stamped, list_lookup_fmap, Horig. }
    exists row. subst sdfs. rewrite sum_take_stamp_all in Hrow by done.
    split; [exact Hrow|].
    setoid_rewrite Hread'. rewrite columns_stamped.
    split; [by apply stamped_row_source_file|].
    split; [by apply stamped_row_ingestion_timestamp|].
    intros c Hs Ht. rewrite stamped_row_other by done.
    split; [done|]. apply cell_absent.
  - apply Forall_forall. intros row Hrow.
    apply unified_row_inv in Hrow as (sdf & srow & Hsdf & Hsrow & Hread').
    rewrite !Hread'.
    apply elem_of_stamp_all in Hsdf as (k & f & df & Hf & Hdf & ->).
    rewrite Forall_forall in Hrect.
    specialize (Hrect df (list_elem_of_lookup_2 _ _ _ Hdf)).
    destruct (stamped_frame_row df _ _ srow Hrect Hsrow) as [-> ->].
    done.
Qed.

Lemma source_loader_unified_output_witness :
  let files := ["data/a.xlsx"; "data/b.xlsx"] in
  let frames := [two_loans; two_loans_with_purpose] in
  selected_files source_world None (Some "data") None = files
  ∧ files ≠ []
  ∧ directory_found source_world None (Some "data")
  ∧ readable source_world files frames
  ∧ Forall rectangular frames
  ∧ unified_output source_world None (Some "data") None files frames.
Proof.
  intros files frames.
  assert (directory_found source_world None (Some "data")) as Hdir.
  { intros _. right. by vm_compute. }
  assert (readable source_world files frames) as Hread.
  { repeat constructor. }
  assert (Forall rectangular frames) as Hrect.
  { repeat constructor. }
  split; [reflexivity|]. split; [done|].
  split; [exact Hdir|]. split; [exact Hread|]. split; [exact Hrect|].
  apply (source_loader_unified_output source_world None (Some "data") None
           files frames); [reflexivity | done | exact Hdir | exact Hread
                          | exact Hrect].
Defined.

(** The scenario of the specification in small: two files, the first
    without a [Purpose] column; the unified frame has the rows of both,
    with null under [Purpose] for the rows of the first. *)
Example unified_scenario :
  let r := load_excel_files None (Some "data") None source_world in
  r.2 = Returned
          {| columns := ["Loan_ID"; "_source_file"; "_ingestion_timestamp"; "Purpose"];
             rows :=
               [[Str "L2"; Str "a.xlsx"; Instant (clock source_world 0); Null];
                [Str "L3"; Str "a.xlsx"; Instant (clock source_world 0); Null];
                [Str "L2"; Str "b.xlsx"; Instant (clock source_world 1); Str "car"];
                [Str "L3"; Str "b.xlsx"; Instant (clock source_world 1); Null]] |}.
Proof. reflexivity. Qed.

(** ** Strings *)

Lemma string_app_length (a b : string) :
  String.length (a +:+ b) = String.length a + String.length b.
Proof. induction a as [|c a IH]; simpl; [done|]. by rewrite IH. Qed.

Lemma string_app_cons (x : ascii) (a b : string) :
  String x a +:+ b = String x (a +:+ b).
Proof. reflexivity. Qed.

Lemma string_app_assoc (a b c : string) : (a +:+ b) +:+ c = a +:+ (b +:+ c).
Proof.
  induction a as [|x a IH]; [done|]. rewrite !string_app_cons. by rewrite IH.
Qed.

Lemma string_app_inj_r (a b c d : string) :
  String.length c = String.length d → a +:+ c = b +:+ d → a = b ∧ c = d.
Proof.
  revert b. induction a as [|x a IH]; intros [|y b] Hlen Heq;
    rewrite ?string_app_cons in Heq.
  - done.
  - apply (f_equal String.length) in Heq. simpl in Heq.
    rewrite !string_app_length in Heq. simpl in Heq. lia.
  - apply (f_equal String.length) in Heq. simpl in Heq.
    rewrite !string_app_length in Heq. simpl in Heq. lia.
  - injection Heq as -> Heq. destruct (IH b Hlen Heq) as [-> ->]. done.
Qed.

Lemma all_chars_app (p : ascii → bool) (a b : string) :
  all_chars p (a +:+ b) = all_chars p a && all_chars p b.
Proof.
  induction a as [|c a IH]; simpl; [done|]. by rewrite IH, andb_assoc.
Qed.

Lemma last_char_app (a b : string) :
  b ≠ EmptyString → last_char (a +:+ b) = last_char b.
Proof.
  intros Hb. induction a as [|c a IH]; simpl; [done|].
  rewrite IH. destruct b as [|y b]; [done|]. simpl.
  by destruct (last_char b).
Qed.

Lemma digit_char_is_digit (d : nat) : is_digit (digit_char d) = true.
Proof. do 10 (destruct d as [|d]; [reflexivity|]). reflexivity. Qed.

Lemma hex_char_is_hex (d : N) : is_hex_digit (hex_char d) = true.
Proof.
  destruct d as [|p]; [reflexivity|].
  do 4 (destruct p as [p|p|]; try reflexivity).
Qed.

Lemma zero_padded_shape (k n : nat) :
  String.length (zero_padded k n) = k
  ∧ all_chars is_digit (zero_padded k n) = true.
Proof.
  revert n. induction k as [|k IH]; intros n; [done|].
  destruct (IH (n / 10)) as [Hlen Hall].
  change (zero_padded (S k) n)
    with (zero_padded k (n / 10) +:+ String (digit_char (n mod 10)) EmptyString).
  rewrite string_app_length, all_chars_app, Hlen, Hall.
  cbn [String.length all_chars]. rewrite digit_char_is_digit.
  split; [lia|done].
Qed.

Lemma hex_digits_shape (k : nat) (u : N) :
  String.length (hex_digits k u) = k
  ∧ all_chars is_hex_digit (hex_digits k u) = true.
Proof.
  revert u. induction k as [|k IH]; intros u; [done|].
  destruct (IH (u / 16)%N) as [Hlen Hall].
  change (hex_digits (S k) u)
    with (hex_digits k (u / 16)%N +:+ String (hex_char (u mod 16)%N) EmptyString).
  rewrite string_app_length, all_chars_app, Hlen, Hall.
  cbn [String.length all_chars]. rewrite hex_char_is_hex.
  split; [lia|done].
Qed.

Lemma prefix_shape (p : ascii → bool) (n : nat) (s : string) :
  n ≤ String.length s → all_chars p s = true →
  String.length (prefix n s) = n ∧ all_chars p (prefix n s) = true.
Proof.
  revert s. induction n as [|n IH]; intros [|c s]; simpl; try done; try lia.
  intros Hlen [Hc Hs]%andb_true_iff.
  destruct (IH s) as [Hlen' Hall]; [lia|done|].
  rewrite Hlen', Hc, Hall. done.
Qed.

Lemma strftime_shape (t : datetime) : timestamp_shape (strftime t).
Proof.
  unfold timestamp_shape, strftime.
  exists (zero_padded 4 (year t) +:+ zero_padded 2 (month t)
          +:+ zero_padded 2 (day t)),
    (zero_padded 2 (hour t) +:+ zero_padded 2 (minute t)
     +:+ zero_padded 2 (second t)).
  rewrite !string_app_length, !all_chars_app.
  pose proof (zero_padded_shape 4 (year t)) as [-> ->].
  pose proof (zero_padded_shape 2 (month t)) as [-> ->].
  pose proof (zero_padded_shape 2 (day t)) as [-> ->].
  pose proof (zero_padded_shape 2 (hour t)) as [-> ->].
  pose proof (zero_padded_shape 2 (minute t)) as [-> ->].
  pose proof (zero_padded_shape 2 (second t)) as [-> ->].
  rewrite !string_app_assoc. done.
Qed.

Lemma strftime_length (t : datetime) : String.length (strftime t) = 15.
Proof.
  destruct (strftime_shape t) as (date & time & -> & Hd & _ & Ht & _).
  rewrite !string_app_length, Hd, Ht. done.
Qed.

Lemma hex8_prefix_shape (u : N) : hex8_shape (prefix 8 (hex u)).
Proof.
  unfold hex8_shape, hex. destruct (hex_digits_shape 32 u) as [Hlen Hall].
  apply prefix_shape; [lia|done].
Qed.

Lemma parquet_filename_shape (table_name : string) (m : mode) (t : datetime)
  (u : N) :
  filename_shape table_name m (parquet_filename table_name m (strftime t) u).
Proof.
  exists (strftime t), (prefix 8 (hex u)).
  split; [done|]. split; [apply strftime_shape | apply hex8_prefix_shape].
Qed.

(** ** Snapshot names *)

Lemma parquet_filename_split (table_name : string) (m : mode) (ts : string) (u : N) :
  parquet_filename table_name m ts u
  = (table_name +:+ "_" +:+ mode_str m)
    +:+ ("_" +:+ (ts +:+ ("_" +:+ (prefix 8 (hex u) +:+ ".parquet")))).
Proof. unfold parquet_filename. by rewrite !string_app_assoc. Qed.

Lemma table_and_mode_inj (table1 table2 : string) (m1 m2 : mode) :
  table1 +:+ "_" +:+ mode_str m1 = table2 +:+ "_" +:+ mode_str m2 →
  table1 = table2 ∧ m1 = m2.
Proof.
  intros Heq. rewrite ?string_app_assoc in Heq.
  destruct m1, m2.
  - by apply string_app_inj_r in Heq as [-> _].
  - apply (f_equal last_char) in Heq. by rewrite !last_char_app in Heq.
  - apply (f_equal last_char) in Heq. by rewrite !last_char_app in Heq.
  - by apply string_app_inj_r in Heq as [-> _].
Qed.

(** Two snapshot names with timestamps of one length are the same name
    exactly when table, mode, timestamp and the eight hexadecimal digits
    all agree. *)
Lemma parquet_filename_inj (table1 table2 : string) (m1 m2 : mode)
  (ts1 ts2 : string) (u1 u2 : N) :
  String.length ts1 = String.length ts2 →
  parquet_filename table1 m1 ts1 u1 = parquet_filename table2 m2 ts2 u2
  ↔ table1 = table2 ∧ m1 = m2 ∧ ts1 = ts2
    ∧ prefix 8 (hex u1) = prefix 8 (hex u2).
Proof.
  intros Hlen. split.
  - rewrite !parquet_filename_split. intros Heq.
    pose proof (hex8_prefix_shape u1) as [Hh1 _].
    pose proof (hex8_prefix_shape u2) as [Hh2 _].
    apply string_app_inj_r in Heq as [Hhead Htail].
    + apply table_and_mode_inj in Hhead as [-> ->].
      apply (inj (String.append "_")) in Htail.
      apply string_app_inj_r in Htail as [-> Htail].
      * apply (inj (String.append "_")) in Htail.
        by apply string_app_inj_r in Htail as [-> _].
      * rewrite !string_app_length, Hh1, Hh2. done.
    + rewrite !string_app_length, Hh1, Hh2, Hlen. done.
  - intros (-> & -> & -> & Hhex). unfold parquet_filename. by rewrite Hhex.
Qed.

Lemma write_parquet_returns (df : DataFrame) (raw_dir table_name : string)
  (m : mode) (w : World) :
  write_parquet_with_metadata df raw_dir table_name m w
  = (after_snapshot df raw_dir table_name m w,
     Returned (join_path raw_dir (snapshot_name w table_name m))).
Proof.
  unfold write_parquet_with_metadata. py_simpl.
  match goal with |- context [negb ?b] => destruct b end; reflexivity.
Qed.

(** C8, as amended: every invocation names its snapshot
    [{table}_{mode}_{yyyymmdd_HHMMSS}_{8 hex digits}.parquet] and writes
    it at that path, replacing whatever file is there.  The names of two
    invocations coincide exactly when table, mode, the timestamp to the
    second and the first eight hexadecimal digits of the two uuids all
    coincide; invocations that differ in one of them leave two files. *)
Theorem snapshot_writer_names (wa wb : World) (dfa dfb : DataFrame)
  (dira dirb ta tb : string) (ma mb : mode) :
  valid_datetime (clock wa (ticks wa)) →
  valid_datetime (clock wb (ticks wb)) →
  let name_a := snapshot_name wa ta ma in
  let name_b := snapshot_name wb tb mb in
  ∃ wa' wb',
    write_parquet_with_metadata dfa dira ta ma wa
    = (wa', Returned (join_path dira name_a))
    ∧ write_parquet_with_metadata dfb dirb tb mb wb
      = (wb', Returned (join_path dirb name_b))
    ∧ filename_shape ta ma name_a
    ∧ filename_shape tb mb name_b
    ∧ raw_files wa' = <[join_path dira name_a := ParquetFile dfa]> (raw_files wa)
    ∧ raw_files wb' = <[join_path dirb name_b := ParquetFile dfb]> (raw_files wb)
    ∧ (name_a = name_b
       ↔ ta = tb ∧ ma = mb
         ∧ strftime (clock wa (ticks wa)) = strftime (clock wb (ticks wb))
         ∧ prefix 8 (hex (uuids wa (draws wa)))
           = prefix 8 (hex (uuids wb (draws wb)))).
Proof.
  intros _ _ name_a name_b.
  exists (after_snapshot dfa dira ta ma wa), (after_snapshot dfb dirb tb mb wb).
  split; [apply write_parquet_returns|].
  split; [apply write_parquet_returns|].
  split; [apply parquet_filename_shape|].
  split; [apply parquet_filename_shape|].
  split; [done|]. split; [done|].
  apply parquet_filename_inj. by rewrite !strftime_length.
Qed.

Lemma source_clock_valid (n : nat) : valid_datetime (clock source_world n).
Proof.
  unfold valid_datetime.
  cbn [source_world clock year month day hour minute second]. lia.
Qed.

Lemma snapshot_writer_names_witness :
  let wa := source_world in
  let wb := after_snapshot one_loan "raw_data" "raw_loans" incremental wa in
  let name_a := snapshot_name wa "raw_loans" incremental in
  let name_b := snapshot_name wb "raw_loans" full_refresh in
  valid_datetime (clock wa (ticks wa))
  ∧ valid_datetime (clock wb (ticks wb))
  ∧ ∃ wa' wb',
      write_parquet_with_metadata one_loan "raw_data" "raw_loans" incremental wa
      = (wa', Returned (join_path "raw_data" name_a))
      ∧ write_parquet_with_metadata two_loans "raw_data" "raw_loans" full_refresh wb
        = (wb', Returned (join_path "raw_data" name_b))
      ∧ filename_shape "raw_loans" incremental name_a
      ∧ filename_shape "raw_loans" full_refresh name_b
      ∧ raw_files wa'
        = <[join_path "raw_data" name_a := ParquetFile one_loan]> (raw_files wa)
      ∧ raw_files wb'
        = <[join_path "raw_data" name_b := ParquetFile two_loans]> (raw_files wb)
      ∧ (name_a = name_b
         ↔ "raw_loans" = "raw_loans" ∧ incremental = full_refresh
           ∧ strftime (clock wa (ticks wa)) = strftime (clock wb (ticks wb))
           ∧ prefix 8 (hex (uuids wa (draws wa)))
             = prefix 8 (hex (uuids wb (draws wb)))).
Proof.
  intros wa wb name_a name_b.
  assert (valid_datetime (clock wa (ticks wa))) as Ha.
  { exact (source_clock_valid 0). }
  assert (valid_datetime (clock wb (ticks wb))) as Hb.
  { exact (source_clock_valid 1). }
  split; [exact Ha|]. split; [exact Hb|].
  exact (snapshot_writer_names wa wb one_loan two_loans "raw_data" "raw_data"
           "raw_loans" "raw_loans" incremental full_refresh Ha Hb).
Defined.

Example snapshot_name_example :
  snapshot_name source_world "raw_loans" incremental
  = "raw_loans_incremental_20250309_140559_deadbeef.parquet".
Proof. reflexivity. Qed.

(** C8 fails on the code: two invocations within one second, for the
    same table and mode, whose uuids differ but share their first eight
    hexadecimal digits, give the same name; the second write replaces
    the snapshot of the first. *)
Lemma snapshot_names_collide :
  let path := "raw_data/raw_loans_incremental_20250309_140559_deadbeef.parquet" in
  let first := write_parquet_with_metadata one_loan "raw_data" "raw_loans"
                 incremental source_world in
  let second := write_parquet_with_metadata two_loans "raw_data" "raw_loans"
                  incremental first.1 in
  uuids source_world 0 ≠ uuids source_world 1
  ∧ first.2 = Returned path
  ∧ second.2 = Returned path
  ∧ raw_files first.1 !! path = Some (ParquetFile one_loan)
  ∧ raw_files second.1 !! path = Some (ParquetFile two_loans).
Proof.
  split; [by vm_compute|].
  repeat split; reflexivity.
Qed.

(** ** Framing *)

Section Preserves.
Variable R : World → World → Prop.
Hypothesis R_refl : ∀ w, R w w.
Hypothesis R_trans : ∀ w1 w2 w3, R w1 w2 → R w2 w3 → R w1 w3.

Lemma preserves_ret {A} (a : A) : preserves R (ret a).
  Proof. intros w. apply R_refl. Qed.

Lemma preserves_raise {A} (e : exn) : preserves R (@raise A e).
  Proof. intros w. apply R_refl. Qed.

Lemma preserves_reading {A} (f : World → A) : preserves R (reading f).
  Proof. intros w. apply R_refl. Qed.

Lemma preserves_update (f : World → World) :
    (∀ w, R w (f w)) → preserves R (update f).
  Proof. intros Hf w. apply Hf. Qed.

Lemma preserves_bind {A B} (c : Py A) (k : A → Py B) :
    preserves R c → (∀ a, preserves R (k a)) → preserves R (bind c k).
  Proof.
    intros Hc Hk w. unfold bind. specialize (Hc w).
    destruct (c w) as [w1 [a|e]]; simpl in *; [|done].
    eapply R_trans; [exact Hc|]. apply Hk.
  Qed.

Lemma preserves_try_reraise {A} (body : Py A) (handler : exn → Py unit) :
    preserves R body → (∀ e, preserves R (handler e)) →
    preserves R (try_reraise body handler).
  Proof.
    intros Hb Hh w. unfold try_reraise. specialize (Hb w).
    destruct (body w) as [w1 [a|e]]; simpl in *; [done|].
    specialize (Hh e w1).
    destruct (handler e w1) as [w2 [?|?]]; simpl in *;
      by eapply R_trans.
  Qed.

Lemma preserves_if {A} (b : bool) (c1 c2 : Py A) :
    preserves R c1 → preserves R c2 → preserves R (if b then c1 else c2).
  Proof. by destruct b. Qed.
End Preserves.





(** [parse_args] only reads: it hands back the options with their
    defaults filled in, or exits on a mode that is not among the
    choices. *)
Lemma parse_args_returned (argv : command_line) (w w' : World) (args : namespace) :
  parse_args argv w = (w', Returned args) →
  w' = w
  ∧ args
    = {| args_excel := opt_excel argv;
         args_excel_dir := opt_excel_dir argv;
         args_excel_pattern := opt_excel_pattern argv;
         args_duckdb := opt_duckdb argv;
         args_raw_dir := default "raw_data" (opt_raw_dir argv);
         args_table := default "raw_loans" (opt_table argv);
         args_mode := args_mode args;
         args_prod := opt_prod argv;
         args_s3_bucket :=
           default (default "" (environ w !! "RAW_S3_BUCKET")) (opt_s3_bucket argv);
         args_s3_prefix :=
           default (default "raw/loans" (environ w !! "RAW_S3_PREFIX"))
             (opt_s3_prefix argv) |}.
Proof.
  unfold parse_args, parse_mode. py_simpl.
  destruct (opt_mode argv) as [s|]; py_simpl.
  - destruct (String.eqb s "full_refresh"); py_simpl;
      [by intros [= <- <-]|].
    destruct (String.eqb s "incremental"); py_simpl; [|done].
    by intros [= <- <-].
  - by intros [= <- <-].
Qed.

Lemma parse_args_raised (argv : command_line) (w w' : World) (e : exn) :
  parse_args argv w = (w', Raised e) → w' = w ∧ e = SystemExit 2.
Proof.
  unfold parse_args, parse_mode. py_simpl.
  destruct (opt_mode argv) as [s|]; py_simpl; [|done].
  destruct (String.eqb s "full_refresh"); py_simpl; [done|].
  destruct (String.eqb s "incremental"); py_simpl; [done|].
  by intros [= <- <-].
Qed.

(** The steps of the pipeline, framed by any relation that is closed
    under the elementary updates they are made of. *)
Section Frame.
Variable R : World → World → Prop.
Variable t : string.
Hypothesis R_refl : ∀ w, R w w.
Hypothesis R_trans : ∀ w1 w2 w3, R w1 w2 → R w2 w3 → R w1 w3.
Hypothesis R_say : ∀ l w, R w (say l w).
Hypothesis R_tick : ∀ w, R w (with_ticks S w).
Hypothesis R_draw : ∀ w, R w (with_draws S w).
Hypothesis R_mkdir : ∀ d w, R w (with_directories (λ ds, {[d]} ∪ ds) w).
Hypothesis R_write : ∀ p f w, R w (with_raw_files <[p := f]> w).
Hypothesis R_upload : ∀ b k f objects w,
    buckets w !! b = Some objects →
    R w (with_buckets <[b := <[k := f]> objects]> w).
Hypothesis R_store : ∀ con d w,
    (∀ k, k ≠ ("raw", t) → tables d !! k = tables (database_at w con) !! k) →
    R w (set_database con d w).

Local Abbreviation kept := (preserves R).

Local Ltac kept_bind :=
    refine (preserves_bind _ R_trans _ _ _ _); [|intros ?].

Local Ltac kept_basic :=
    lazymatch goal with
    | |- preserves _ (ret _) => refine (preserves_ret _ R_refl _)
    | |- preserves _ (raise _) => refine (preserves_raise _ R_refl _)
    | |- preserves _ (reading _) => refine (preserves_reading _ R_refl _)
    end.

Lemma print_kept (l : line) : kept (print l).
  Proof. intros w. apply R_say. Qed.

Lemma connect_kept (path : string) : kept (connect path).
  Proof.
    intros w. unfold connect. case_bool_decide; simpl.
    - apply R_refl.
    - by apply R_store.
  Qed.

Lemma on_database_kept (con : connection) (f : Database → Database) :
    (∀ d k, k ≠ ("raw", t) → tables (f d) !! k = tables d !! k) →
    kept (on_database con f).
  Proof.
    intros Hf w. unfold on_database, update. simpl.
    apply R_store. intros k Hk. by apply Hf.
  Qed.

Lemma read_parquet_kept (path : string) : kept (read_parquet path).
  Proof.
    intros w. unfold read_parquet.
    destruct (raw_files w !! path) as [[?|]|]; apply R_refl.
  Qed.

Lemma create_table_as_select_kept (con : connection) (path : string) :
    kept (create_table_as_select con "raw" t path).
  Proof.
    unfold create_table_as_select.
    kept_bind; [apply read_parquet_kept|].
    kept_bind; [kept_basic|].
    destruct a0; [kept_basic|].
    apply on_database_kept. intros d k Hk. simpl. by rewrite lookup_insert_ne.
  Qed.

Lemma insert_into_select_kept (con : connection) (path : string) :
    kept (insert_into_select con "raw" t path).
  Proof.
    unfold insert_into_select.
    kept_bind; [kept_basic|].
    destruct a; [|kept_basic].
    kept_bind; [apply read_parquet_kept|].
    case_bool_decide; [|kept_basic].
    apply on_database_kept. intros d' k Hk. simpl. by rewrite lookup_insert_ne.
  Qed.

Lemma select_count_kept (con : connection) (s n : string) :
    kept (select_count con s n).
  Proof.
    unfold select_count. kept_bind; [kept_basic|].
    destruct a; kept_basic.
  Qed.

Lemma load_to_duckdb_kept (path db : string) (m : mode) :
    kept (load_to_duckdb path db t m).
  Proof.
    unfold load_to_duckdb.
    kept_bind; [apply connect_kept|].
    kept_bind; [by apply on_database_kept|].
    kept_bind.
    { destruct m.
      - kept_bind.
        { apply on_database_kept. intros d k Hk. simpl.
          by rewrite lookup_delete_ne. }
        kept_bind; [apply create_table_as_select_kept | apply print_kept].
      - kept_bind; [unfold table_exists; kept_basic|].
        destruct (negb a1).
        + kept_bind; [apply create_table_as_select_kept | apply print_kept].
        + kept_bind; [apply insert_into_select_kept | apply print_kept]. }
    kept_bind; [apply select_count_kept|].
    kept_bind; [apply print_kept|].
    kept_bind; [unfold close; kept_basic | kept_basic].
  Qed.

Lemma read_excel_kept (p : string) : kept (read_excel p).
  Proof.
    intros w. unfold read_excel.
    destruct (sources w !! p) as [[?|]|]; apply R_refl.
  Qed.

Lemma datetime_now_kept : kept datetime_now.
  Proof. intros w. apply R_tick. Qed.

Lemma stamp_kept (df : DataFrame) (name : string) : kept (stamp df name).
  Proof. unfold stamp. kept_bind; [apply datetime_now_kept | kept_basic]. Qed.

Lemma load_each_kept (files : list string) (dfs : list DataFrame) :
    kept (load_each files dfs).
  Proof.
    revert dfs. induction files as [|f files IH]; intros dfs; simpl.
    - kept_basic.
    - kept_bind; [apply print_kept|].
      kept_bind; [apply read_excel_kept|].
      kept_bind; [apply stamp_kept | apply IH].
  Qed.

Lemma concat_kept (dfs : list DataFrame) : kept (concat dfs).
  Proof. destruct dfs; cbv beta iota zeta delta [concat]; kept_basic. Qed.

Lemma load_excel_files_kept (excel_path excel_dir excel_pattern : option string) :
    kept (load_excel_files excel_path excel_dir excel_pattern).
  Proof.
    unfold load_excel_files. kept_bind.
    - destruct (truthy excel_path); [|destruct (truthy excel_dir)].
      + kept_bind; [unfold path_exists; kept_basic|].
        destruct (negb a); [kept_basic|].
        kept_bind; [apply print_kept|].
        kept_bind; [apply read_excel_kept|].
        kept_bind; [apply stamp_kept | kept_basic].
      + kept_bind; [unfold path_exists; kept_basic|].
        destruct (negb a); [kept_basic|].
        kept_bind.
        { destruct (truthy excel_pattern); unfold path_glob; [kept_basic|].
          kept_bind; [kept_basic|]. kept_bind; kept_basic. }
        destruct a0; [kept_basic|].
        kept_bind; [apply print_kept | apply load_each_kept].
      + kept_basic.
    - destruct a as [|df [|df' dfs]]; try apply concat_kept. kept_basic.
  Qed.

Lemma write_parquet_kept (df : DataFrame) (raw_dir table_name : string) (m : mode) :
    kept (write_parquet_with_metadata df raw_dir table_name m).
  Proof.
    unfold write_parquet_with_metadata.
    kept_bind; [intros w; apply R_mkdir|].
    kept_bind; [apply datetime_now_kept|].
    kept_bind; [intros w; apply R_draw|].
    kept_bind; [kept_basic|].
    kept_bind.
    { destruct (negb a2); intros w; apply R_write. }
    kept_bind; [apply print_kept | kept_basic].
  Qed.

Lemma upload_file_kept (local bucket key : string) :
    kept (upload_file local bucket key).
  Proof.
    intros w. unfold upload_file.
    destruct (raw_files w !! local), (buckets w !! bucket) eqn:Hb; simpl;
      try apply R_refl.
    by apply R_upload.
  Qed.

Lemma upload_to_s3_kept (parquet_path s3_bucket s3_prefix : string) :
    kept (upload_to_s3 parquet_path s3_bucket s3_prefix).
  Proof.
    unfold upload_to_s3. kept_bind; [kept_basic|].
    destruct (negb a); [kept_basic|].
    destruct (String.eqb s3_bucket ""); [kept_basic|].
    kept_bind; [apply upload_file_kept | apply print_kept].
  Qed.

Lemma main_kept (args : namespace) :
    args_table args = t → kept (main args).
  Proof.
    intros Ht. unfold main. rewrite Ht.
    kept_bind; [apply print_kept|].
    kept_bind; [apply load_excel_files_kept|].
    kept_bind; [apply print_kept|].
    kept_bind; [apply write_parquet_kept|].
    kept_bind.
    { destruct (args_prod args); [apply upload_to_s3_kept | kept_basic]. }
    kept_bind; [apply load_to_duckdb_kept | apply print_kept].
  Qed.

End Frame.


(** ** What the gate looks at *)


Lemma EmptyLayer_inj (l l' : layer) : EmptyLayer l = EmptyLayer l' → l = l'.
Proof. by destruct l, l'. Qed.





(** ** The mirror upload *)

Lemma upload_to_s3_ok (w : World) (path bucket s3_prefix : string)
  (file : raw_file) (objects : gmap string raw_file) :
  boto3 w = true → bucket ≠ "" →
  raw_files w !! path = Some file →
  buckets w !! bucket = Some objects →
  let key := rstrip_slash s3_prefix +:+ "/" +:+ basename path in
  upload_to_s3 path bucket s3_prefix w
  = (say (UploadedToS3 bucket key)
       (with_buckets <[bucket := <[key := file]> objects]> w),
     Returned tt).
Proof.
  intros Hboto Hbucket Hfile Hobjects key. unfold upload_to_s3. py_simpl.
  rewrite Hboto. py_simpl.
  apply String.eqb_neq in Hbucket. rewrite Hbucket.
  py_simpl. unfold upload_file. by rewrite Hfile, Hobjects.
Qed.

Lemma upload_to_s3_blocked (w : World) (path bucket s3_prefix : string)
  (file : raw_file) :
  raw_files w !! path = Some file →
  mirror_blocked w bucket →
  ∃ e, upload_to_s3 path bucket s3_prefix w = (w, Raised e) ∧ mirror_failure e.
Proof.
  intros Hfile Hblocked. unfold upload_to_s3, mirror_failure. py_simpl.
  destruct (boto3 w) eqn:Hboto; py_simpl.
  2:{ eexists. split; [reflexivity|]. by left. }
  destruct (String.eqb bucket "") eqn:Hname.
  { eexists. split; [reflexivity|]. right. by left. }
  apply String.eqb_neq in Hname.
  destruct Hblocked as [?|[?|Hnone]]; [congruence..|].
  py_simpl. unfold upload_file. rewrite Hfile, Hnone.
  eexists. split; [reflexivity|]. right. right. eauto.
Qed.

(** ** The main execution, step by step *)

Lemma bind_returned {A B} (c : Py A) (k : A → Py B) (w w' : World) (a : A) :
  c w = (w', Returned a) → bind c k w = k a w'.
Proof. intros H. unfold bind. by rewrite H. Qed.

Lemma bind_raised {A B} (c : Py A) (k : A → Py B) (w w' : World) (e : exn) :
  c w = (w', Raised e) → bind c k w = (w', Raised e).
Proof. intros H. unfold bind. by rewrite H. Qed.

(** With a readable source the run reaches the upload step, the
    snapshot of the unified frame written. *)
Lemma main_until_upload (args : namespace) (w : World) (frames : list DataFrame) :
  source_ready w args frames →
  ∃ w1,
    only_clock_and_output w w1
    ∧ let df := loaded_frame w args frames in
      let path := join_path (args_raw_dir args)
                    (snapshot_name w1 (args_table args) (args_mode args)) in
      main args w
      = ((if args_prod args
          then upload_to_s3 path (args_s3_bucket args) (args_s3_prefix args)
          else ret tt) ;;;
         load_to_duckdb path (args_duckdb args) (args_table args) (args_mode args) ;;;
         print IngestionCompleted)
          (after_snapshot df (args_raw_dir args) (args_table args)
             (args_mode args) w1).
Proof.
  intros (Hne & Hdir & Hread).
  set (w0 := say (Starting (args_mode args) (args_table args) (args_duckdb args)) w).
  destruct (load_excel_files_returns w0 (args_excel args) (args_excel_dir args)
              (args_excel_pattern args) frames Hne Hdir Hread)
    as (w' & Hload & Hframe).
  exists (say (LoadedRecords (n_rows (loaded_frame w args frames))) w').
  split.
  { eapply only_clock_and_output_trans; [|eapply only_clock_and_output_trans];
      [|exact Hframe|]; by repeat split. }
  intros df path. unfold main.
  rewrite (bind_returned _ _ w w0 tt) by reflexivity.
  rewrite (bind_returned _ _ w0 w' df) by exact Hload.
  rewrite (bind_returned _ _ w' _ tt) by reflexivity.
  rewrite (bind_returned _ _ _ _ _ (write_parquet_returns _ _ _ _ _)).
  reflexivity.
Qed.

Lemma after_snapshot_raw_files (df : DataFrame) (raw_dir table_name : string)
  (m : mode) (w : World) :
  raw_files (after_snapshot df raw_dir table_name m w)
  = <[join_path raw_dir (snapshot_name w table_name m) := ParquetFile df]>
      (raw_files w).
Proof. reflexivity. Qed.

(** C9: with [--prod] on the command line and the mirror out of reach
    (boto3 missing, no bucket from [--s3_bucket] or [RAW_S3_BUCKET], or
    a bucket that cannot be written), a run whose source is readable
    ends in one of the upload's exceptions; the snapshot it wrote is in
    place, the store and the buckets are as before, and the last thing
    printed is the snapshot's path. *)
Theorem publish_failure_is_loud (argv : command_line) (w : World)
  (args : namespace) (frames : list DataFrame) :
  parse_args argv w = (w, Returned args) →
  opt_prod argv = true →
  source_ready w args frames →
  mirror_blocked w
    (default (default "" (environ w !! "RAW_S3_BUCKET")) (opt_s3_bucket argv)) →
  ∃ w' e path,
    ingest argv w = (w', Raised e)
    ∧ mirror_failure e
    ∧ raw_files w'
      = <[path := ParquetFile (loaded_frame w args frames)]> (raw_files w)
    ∧ databases w' = databases w
    ∧ buckets w' = buckets w
    ∧ last (stdout w') = Some (ParquetWritten path).
Proof.
  intros Hparse Hprod Hsource Hblocked.
  destruct (parse_args_returned _ _ _ _ Hparse) as [_ Hargs].
  assert (args_prod args = true) as Hp by (by rewrite Hargs).
  assert (args_s3_bucket args
          = default (default "" (environ w !! "RAW_S3_BUCKET")) (opt_s3_bucket argv))
    as Hb by (by rewrite Hargs).
  destruct (main_until_upload args w frames Hsource) as (w1 & Hframe & Hmain).
  simpl in Hmain. rewrite Hp in Hmain.
  set (path := join_path (args_raw_dir args)
                 (snapshot_name w1 (args_table args) (args_mode args))) in *.
  set (w3 := after_snapshot (loaded_frame w args frames) (args_raw_dir args)
               (args_table args) (args_mode args) w1) in *.
  unfold only_clock_and_output in Hframe. destruct_and!.
  destruct (upload_to_s3_blocked w3 path (args_s3_bucket args)
              (args_s3_prefix args) (ParquetFile (loaded_frame w args frames)))
    as (e & Hup & He).
  { subst w3 path. rewrite after_snapshot_raw_files. apply lookup_insert_eq. }
  { rewrite Hb. unfold mirror_blocked in *. subst w3. simpl.
    destruct Hblocked as [?|[?|?]]; [left|right; left|right; right]; congruence. }
  exists w3, e, path. split.
  { unfold ingest. rewrite (bind_returned _ _ _ _ _ Hparse), Hmain.
    by apply bind_raised. }
  split; [exact He|]. subst w3 path.
  rewrite after_snapshot_raw_files. simpl.
  repeat split; try congruence.
  by rewrite last_snoc.
Qed.

Lemma publish_failure_is_loud_witness :
  parse_args publish_run source_world = (source_world, Returned publish_args)
  ∧ opt_prod publish_run = true
  ∧ source_ready source_world publish_args [one_loan]
  ∧ mirror_blocked source_world
      (default (default "" (environ source_world !! "RAW_S3_BUCKET"))
         (opt_s3_bucket publish_run))
  ∧ ∃ w' e path,
      ingest publish_run source_world = (w', Raised e)
      ∧ mirror_failure e
      ∧ raw_files w'
        = <[path := ParquetFile (loaded_frame source_world publish_args [one_loan])]>
            (raw_files source_world)
      ∧ databases w' = databases source_world
      ∧ buckets w' = buckets source_world
      ∧ last (stdout w') = Some (ParquetWritten path).
Proof.
  assert (source_ready source_world publish_args [one_loan]) as Hsource.
  { split; [done|]. split; [done|]. repeat constructor. }
  assert (mirror_blocked source_world
            (default (default "" (environ source_world !! "RAW_S3_BUCKET"))
               (opt_s3_bucket publish_run))) as Hblocked.
  { right. left. reflexivity. }
  split; [reflexivity|]. split; [reflexivity|].
  split; [exact Hsource|]. split; [exact Hblocked|].
  exact (publish_failure_is_loud publish_run source_world publish_args [one_loan]
           eq_refl eq_refl Hsource Hblocked).
Defined.

(** C9 fails on the code at [run_ingestion]: in a production
    environment with no bucket in [RAW_S3_BUCKET] the script is started
    without [--prod]; the run returns [True], nothing is mirrored and no
    failure is printed. *)
Lemma production_without_bucket_skips_silently :
  let r := run_ingestion "/srv" None production_world in
  environ production_world !! "ENVIRONMENT" = Some "production"
  ∧ environ production_world !! "RAW_S3_BUCKET" = None
  ∧ opt_prod (command_of "/srv" production_world None) = false
  ∧ r.2 = Returned true
  ∧ buckets r.1 = buckets production_world
  ∧ last (stdout r.1) = Some IngestionCompleted.
Proof.
  intros r. split; [reflexivity|]. split; [reflexivity|].
  split; [reflexivity|]. split; [vm_compute; reflexivity|].
  split; [vm_compute; reflexivity|]. vm_compute. reflexivity.
Qed.

Example publish_without_bucket :
  (ingest publish_run source_world).2
  = Raised (ValueError "Missing --s3_bucket (or env RAW_S3_BUCKET) for --prod").
Proof. vm_compute. reflexivity. Qed.

(** ** What a run leaves of its inputs *)

Lemma inputs_kept_refl (w : World) : inputs_kept w w.
Proof. by repeat split. Qed.

Lemma inputs_kept_trans (w1 w2 w3 : World) :
  inputs_kept w1 w2 → inputs_kept w2 w3 → inputs_kept w1 w3.
Proof.
  intros (Hs1 & Hg1 & Hd1 & Hu1 & Hb1 & Hk1) (Hs2 & Hg2 & Hd2 & Hu2 & Hb2 & Hk2).
  repeat split; try congruence.
  - by etrans.
  - intros b Hb. by apply Hk2, Hk1.
Qed.

Lemma main_keeps_inputs (args : namespace) : preserves inputs_kept (main args).
Proof.
  apply (main_kept inputs_kept (args_table args)).
  - apply inputs_kept_refl.
  - apply inputs_kept_trans.
  - intros l w. by repeat split.
  - intros w. by repeat split.
  - intros w. by repeat split.
  - intros d w. repeat split; try done. simpl. set_solver.
  - intros p f w. by repeat split.
  - intros b k f objects w Hb. repeat split; try done.
    intros b' Hb'. simpl. destruct (decide (b = b')) as [->|Hne].
    + rewrite lookup_insert_eq. eauto.
    + by rewrite lookup_insert_ne.
  - intros con d w _. by repeat split.
  - reflexivity.
Qed.

Lemma source_ready_kept (w w' : World) (args : namespace) (frames : list DataFrame) :
  inputs_kept w w' → source_ready w args frames → source_ready w' args frames.
Proof.
  intros (Hs & Hg & Hd & _) (Hne & Hdir & Hread).
  unfold source_ready, selected_files, directory_found, readable in *.
  rewrite Hg, Hs. split; [done|]. split; [|done].
  intros Hp. destruct (Hdir Hp) as [?|?]; [by left|right]. by apply Hd.
Qed.

Lemma mirror_ready_kept (w w' : World) (args : namespace) :
  inputs_kept w w' → mirror_ready w args → mirror_ready w' args.
Proof.
  intros (_ & _ & _ & _ & Hb & Hk) Hready Hp.
  destruct (Hready Hp) as (? & ? & ?). rewrite Hb. auto.
Qed.

Lemma n_rows_loaded_frame (w : World) (args : namespace) (frames : list DataFrame) :
  source_ready w args frames →
  n_rows (loaded_frame w args frames) = sum_list (n_rows <$> frames).
Proof.
  intros (_ & _ & Hread). unfold loaded_frame.
  rewrite n_rows_unified, n_rows_stamp_all; [done|].
  by eapply Forall2_length.
Qed.

(** ** A whole run *)

Section Run.
Variables (args : namespace) (w : World) (frames : list DataFrame).
Hypothesis Hsource : source_ready w args frames.
Hypothesis Hreach : args_duckdb args ∉ unreachable w.
Hypothesis Hmirror : mirror_ready w args.

Let db := args_duckdb args.
Let t := args_table args.
Let df := loaded_frame w args frames.

  (** The run up to the load: the world [w4] in which [load_to_duckdb]
      starts holds the snapshot, has the store as it was, and has the
      inputs of the run. *)
Lemma main_until_load :
    ∃ w4 path,
      main args w
      = (load_to_duckdb path db t (args_mode args) ;;; print IngestionCompleted) w4
      ∧ raw_files w4 !! path = Some (ParquetFile df)
      ∧ databases w4 = databases w
      ∧ unreachable w4 = unreachable w.
  Proof.
    destruct (main_until_upload args w frames Hsource) as (w1 & Hframe & Hmain).
    simpl in Hmain. fold df db t in Hmain.
    set (path := join_path (args_raw_dir args)
                   (snapshot_name w1 t (args_mode args))) in *.
    set (w3 := after_snapshot df (args_raw_dir args) t (args_mode args) w1) in *.
    unfold only_clock_and_output in Hframe. destruct_and!.
    assert (raw_files w3 !! path = Some (ParquetFile df)) as Hfile.
    { subst w3 path. rewrite after_snapshot_raw_files. apply lookup_insert_eq. }
    destruct (args_prod args) eqn:Hprod.
    - destruct (Hmirror Hprod) as (Hboto & Hname & [objects Hobjects]).
      assert (boto3 w3 = true) as Hboto3 by (subst w3; simpl; congruence).
      assert (buckets w3 !! args_s3_bucket args = Some objects) as Hobjects3.
      { subst w3. simpl. rewrite <- Hobjects. congruence. }
      pose proof (upload_to_s3_ok w3 path (args_s3_bucket args)
                    (args_s3_prefix args) _ objects Hboto3 Hname Hfile Hobjects3)
        as Hup.
      simpl in Hup. eexists _, path. split.
      { rewrite Hmain. exact (bind_returned _ _ _ _ _ Hup). }
      repeat split; [exact Hfile|subst w3; simpl; congruence..].
    - exists w3, path. split; [exact Hmain|].
      repeat split; [exact Hfile|subst w3; simpl; congruence..].
  Qed.
End Run.

Lemma table_at_same_databases (w w' : World) (con s n : string) :
  databases w' = databases w → table_at w' con s n = table_at w con s n.
Proof. intros H. unfold table_at, database_at. by rewrite H. Qed.

(** A [full_refresh] run with a readable source, a store that opens and
    a mirror that is ready returns, and leaves the unified frame as the
    RAW table. *)
Lemma main_full_refresh (args : namespace) (w : World) (frames : list DataFrame) :
  args_mode args = full_refresh →
  source_ready w args frames →
  args_duckdb args ∉ unreachable w →
  mirror_ready w args →
  ∃ w', main args w = (w', Returned tt)
        ∧ table_at w' (args_duckdb args) "raw" (args_table args)
          = Some (loaded_frame w args frames).
Proof.
  intros Hmode Hsource Hreach Hmirror.
  destruct (main_until_load args w frames Hsource Hmirror)
    as (w4 & path & Hmain & Hfile & Hdb & Hun).
  rewrite Hmode in Hmain.
  pose proof (load_full_refresh_ok w4 path (args_duckdb args) (args_table args)
                (loaded_frame w args frames)) as Hload.
  rewrite Hun in Hload. specialize (Hload Hreach Hfile).
  eexists. split.
  { rewrite Hmain. rewrite (bind_returned _ _ _ _ _ Hload). reflexivity. }
  world_simpl. reflexivity.
Qed.

(** An [incremental] run under the same conditions, with a snapshot
    that brings as many columns as the table has when there is one,
    returns, and leaves the snapshot's rows after the table's. *)
Lemma main_incremental (args : namespace) (w : World) (frames : list DataFrame) :
  args_mode args = incremental →
  source_ready w args frames →
  args_duckdb args ∉ unreachable w →
  mirror_ready w args →
  (∀ tbl, table_at w (args_duckdb args) "raw" (args_table args) = Some tbl →
          n_columns (loaded_frame w args frames) = n_columns tbl) →
  ∃ w', main args w = (w', Returned tt)
        ∧ table_at w' (args_duckdb args) "raw" (args_table args)
          = Some (action_table AppendRows
                    (table_at w (args_duckdb args) "raw" (args_table args))
                    (loaded_frame w args frames)).
Proof.
  intros Hmode Hsource Hreach Hmirror Hcols.
  destruct (main_until_load args w frames Hsource Hmirror)
    as (w4 & path & Hmain & Hfile & Hdb & Hun).
  rewrite Hmode in Hmain. rewrite <- Hun in Hreach.
  pose proof (table_at_same_databases w w4 (args_duckdb args) "raw"
                (args_table args) Hdb) as Htable.
  destruct (table_at w (args_duckdb args) "raw" (args_table args))
    as [tbl|] eqn:Hold.
  - pose proof (load_incremental_append w4 path (args_duckdb args)
                  (args_table args) tbl (loaded_frame w args frames)
                  Hreach Htable Hfile (Hcols tbl eq_refl)) as Hload.
    eexists. split.
    { rewrite Hmain. rewrite (bind_returned _ _ _ _ _ Hload). reflexivity. }
    world_simpl. reflexivity.
  - pose proof (load_incremental_create w4 path (args_duckdb args)
                  (args_table args) (loaded_frame w args frames)
                  Hreach Htable Hfile) as Hload.
    eexists. split.
    { rewrite Hmain. rewrite (bind_returned _ _ _ _ _ Hload). reflexivity. }
    world_simpl. reflexivity.
Qed.

Lemma main_inputs_kept (args : namespace) (w w' : World) (r : result unit) :
  main args w = (w', r) → inputs_kept w w'.
Proof.
  intros Hmain. pose proof (main_keeps_inputs args w) as Hkept.
  by rewrite Hmain in Hkept.
Qed.

(** C4: with a readable source, a store that opens and a mirror that is
    ready, two [full_refresh] runs in succession both return, and the
    RAW table holds after the second run as many rows as after the
    first: the row count of the source. *)
Theorem full_refresh_twice (args : namespace) (w : World) (frames : list DataFrame) :
  args_mode args = full_refresh →
  source_ready w args frames →
  args_duckdb args ∉ unreachable w →
  mirror_ready w args →
  ∃ w1 w2,
    main args w = (w1, Returned tt)
    ∧ main args w1 = (w2, Returned tt)
    ∧ raw_count w1 (args_duckdb args) (args_table args)
      = Some (sum_list (n_rows <$> frames))
    ∧ raw_count w2 (args_duckdb args) (args_table args)
      = raw_count w1 (args_duckdb args) (args_table args).
Proof.
  intros Hmode Hsource Hreach Hmirror.
  destruct (main_full_refresh args w frames Hmode Hsource Hreach Hmirror)
    as (w1 & Hrun1 & Htable1).
  pose proof (main_inputs_kept args w w1 _ Hrun1) as Hkept.
  pose proof (source_ready_kept w w1 args frames Hkept Hsource) as Hsource1.
  pose proof (mirror_ready_kept w w1 args Hkept Hmirror) as Hmirror1.
  assert (args_duckdb args ∉ unreachable w1) as Hreach1.
  { destruct Hkept as (_ & _ & _ & -> & _). exact Hreach. }
  destruct (main_full_refresh args w1 frames Hmode Hsource1 Hreach1 Hmirror1)
    as (w2 & Hrun2 & Htable2).
  exists w1, w2. split; [exact Hrun1|]. split; [exact Hrun2|].
  unfold raw_count. rewrite Htable1, Htable2. simpl.
  by rewrite !n_rows_loaded_frame.
Qed.

Lemma full_refresh_twice_witness :
  let args := workbook_args full_refresh in
  args_mode args = full_refresh
  ∧ source_ready source_world args [one_loan]
  ∧ (args_duckdb args ∉ unreachable source_world)
  ∧ mirror_ready source_world args
  ∧ ∃ w1 w2,
      main args source_world = (w1, Returned tt)
      ∧ main args w1 = (w2, Returned tt)
      ∧ raw_count w1 (args_duckdb args) (args_table args)
        = Some (sum_list (n_rows <$> [one_loan]))
      ∧ raw_count w2 (args_duckdb args) (args_table args)
        = raw_count w1 (args_duckdb args) (args_table args).
Proof.
  intros args.
  assert (source_ready source_world args [one_loan]) as Hsource.
  { split; [done|]. split; [done|]. repeat constructor. }
  assert (args_duckdb args ∉ unreachable source_world) as Hreach.
  { by vm_compute. }
  assert (mirror_ready source_world args) as Hmirror.
  { intros Hp. discriminate Hp. }
  split; [reflexivity|]. split; [exact Hsource|]. split; [exact Hreach|].
  split; [exact Hmirror|].
  exact (full_refresh_twice args source_world [one_loan] eq_refl Hsource
           Hreach Hmirror).
Defined.

(** ** The columns of a unified frame do not depend on the clock *)

Lemma columns_stamp_all (clk clk' : nat → datetime) (start start' : nat)
  (files : list string) (frames : list DataFrame) :
  columns <$> stamp_all clk start files frames
  = columns <$> stamp_all clk' start' files frames.
Proof.
  revert frames start start'.
  induction files as [|f files IH]; intros [|df frames] start start'; try done.
  simpl. rewrite !columns_stamped. f_equal. apply IH.
Qed.

Lemma foldl_union_columns_fmap (dfs : list DataFrame) (acc : list string) :
  foldl (λ acc df, union_columns acc (columns df)) acc dfs
  = foldl union_columns acc (columns <$> dfs).
Proof.
  revert acc. induction dfs as [|df dfs IH]; intros acc; simpl; [done|].
  apply IH.
Qed.

Lemma columns_unified_ext (dfs dfs' : list DataFrame) :
  columns <$> dfs = columns <$> dfs' →
  columns (unified dfs) = columns (unified dfs').
Proof.
  intros Heq.
  assert (all_columns dfs = all_columns dfs') as Hall.
  { unfold all_columns. by rewrite !foldl_union_columns_fmap, Heq. }
  destruct dfs as [|d1 [|d2 dfs]], dfs' as [|e1 [|e2 dfs']];
    simplify_eq/=; done.
Qed.

Lemma columns_loaded_frame_kept (w w' : World) (args : namespace)
  (frames : list DataFrame) :
  inputs_kept w w' →
  columns (loaded_frame w' args frames) = columns (loaded_frame w args frames).
Proof.
  intros (_ & Hg & _). unfold loaded_frame, selected_files. rewrite Hg.
  apply columns_unified_ext, columns_stamp_all.
Qed.

Lemma pair_with_snd {A B} (x : A * B) (b : B) : x.2 = b → x = (x.1, b).
Proof. destruct x. simpl. by intros ->. Qed.

(** A run that returns has loaded the snapshot of its unified frame
    into a store that the steps before the load left as it was. *)
Lemma main_returned_load (args : namespace) (w w' : World)
  (frames : list DataFrame) :
  source_ready w args frames →
  main args w = (w', Returned tt) →
  ∃ w4 w5 path v,
    load_to_duckdb path (args_duckdb args) (args_table args) (args_mode args) w4
    = (w5, Returned v)
    ∧ w' = say IngestionCompleted w5
    ∧ raw_files w4 !! path = Some (ParquetFile (loaded_frame w args frames))
    ∧ databases w4 = databases w.
Proof.
  intros Hsource Hmain.
  destruct (main_until_upload args w frames Hsource) as (w1 & Hframe & Hrest).
  simpl in Hrest. rewrite Hrest in Hmain. clear Hrest.
  set (path := join_path (args_raw_dir args)
                 (snapshot_name w1 (args_table args) (args_mode args))) in *.
  set (w3 := after_snapshot (loaded_frame w args frames) (args_raw_dir args)
               (args_table args) (args_mode args) w1) in *.
  assert (raw_files w3 !! path = Some (ParquetFile (loaded_frame w args frames)))
    as Hfile.
  { subst w3 path. rewrite after_snapshot_raw_files. apply lookup_insert_eq. }
  assert (databases w3 = databases w) as Hdb.
  { destruct Hframe as (_ & _ & _ & _ & Hd & _). subst w3. simpl. exact Hd. }
  set (mirror := if args_prod args
                 then upload_to_s3 path (args_s3_bucket args) (args_s3_prefix args)
                 else ret tt) in *.
  assert (raw_files (mirror w3).1 = raw_files w3
          ∧ databases (mirror w3).1 = databases w3) as [Hfile' Hdb'].
  { subst mirror. destruct (args_prod args); [|done].
    apply (upload_to_s3_kept
             (λ a b, raw_files b = raw_files a ∧ databases b = databases a));
      try done.
    intros a b c [? ?] [? ?]. split; congruence. }
  unfold bind in Hmain at 1.
  destruct (mirror w3) as [w4 [[]|e]]; [|done]. cbn [fst] in Hfile', Hdb'.
  unfold bind in Hmain at 1.
  destruct (load_to_duckdb path (args_duckdb args) (args_table args)
              (args_mode args) w4) as [w5 [v|e]] eqn:Hload; [|done].
  exists w4, w5, path, v. split; [done|].
  split; [by injection Hmain as <-|].
  split; [by rewrite Hfile' | by rewrite Hdb'].
Qed.

(** An [incremental] run that returns leaves the rows the table had,
    when there was one, followed by those of its source. *)
Lemma main_incremental_returned (args : namespace) (w w' : World)
  (frames : list DataFrame) :
  args_mode args = incremental →
  source_ready w args frames →
  main args w = (w', Returned tt) →
  raw_count w' (args_duckdb args) (args_table args)
  = Some (default 0 (raw_count w (args_duckdb args) (args_table args))
          + sum_list (n_rows <$> frames)).
Proof.
  intros Hmode Hsource Hmain.
  destruct (main_returned_load args w w' frames Hsource Hmain)
    as (w4 & w5 & path & v & Hload & -> & Hfile & Hdb).
  rewrite Hmode in Hload.
  destruct (load_returned_outcome _ _ _ _ _ _ _ Hload)
    as (snap & Hsnap & Htable & _).
  rewrite Hfile in Hsnap. injection Hsnap as <-.
  rewrite (table_at_same_databases w w4) in Htable by done.
  unfold raw_count. rewrite table_at_say, Htable. simpl. f_equal.
  rewrite n_rows_action_table.
  - destruct (table_at w (args_duckdb args) "raw" (args_table args)); simpl;
      rewrite ?bool_decide_is_Some_Some, ?bool_decide_is_Some_None; simpl;
      by rewrite n_rows_loaded_frame by apply Hsource.
  - destruct (table_at w (args_duckdb args) "raw" (args_table args)); [done|].
    by rewrite bool_decide_is_Some_None.
Qed.

(** C5, as amended: two [incremental] runs into one table that both
    return, the first starting from an absent or an empty table, leave
    a RAW table whose row count is the sum of the two sources' row
    counts: after the first run the first source's, after the second
    the sum.  Nothing in the run aligns the second snapshot with the
    table, so the second run need not return. *)
Theorem incremental_twice (args1 args2 : namespace) (w w1 w2 : World)
  (frames1 frames2 : list DataFrame) :
  args_mode args1 = incremental → args_mode args2 = incremental →
  args_duckdb args2 = args_duckdb args1 →
  args_table args2 = args_table args1 →
  default 0 (raw_count w (args_duckdb args1) (args_table args1)) = 0 →
  source_ready w args1 frames1 →
  main args1 w = (w1, Returned tt) →
  source_ready w1 args2 frames2 →
  main args2 w1 = (w2, Returned tt) →
  raw_count w1 (args_duckdb args1) (args_table args1)
  = Some (sum_list (n_rows <$> frames1))
  ∧ raw_count w2 (args_duckdb args1) (args_table args1)
    = Some (sum_list (n_rows <$> frames1) + sum_list (n_rows <$> frames2)).
Proof.
  intros Hm1 Hm2 Hdb Ht Hinit Hs1 Hrun1 Hs2 Hrun2.
  pose proof (main_incremental_returned args1 w w1 frames1 Hm1 Hs1 Hrun1) as H1.
  pose proof (main_incremental_returned args2 w1 w2 frames2 Hm2 Hs2 Hrun2) as H2.
  rewrite Hinit in H1. simpl in H1.
  rewrite Hdb, Ht, H1 in H2. simpl in H2. by split.
Qed.

Lemma incremental_twice_witness :
  let args1 := file_args "book.xlsx" incremental in
  let args2 := file_args "data/a.xlsx" incremental in
  let w := source_world in
  let w1 := (main args1 w).1 in
  let w2 := (main args2 w1).1 in
  default 0 (raw_count w (args_duckdb args1) (args_table args1)) = 0
  ∧ source_ready w args1 [one_loan]
  ∧ main args1 w = (w1, Returned tt)
  ∧ source_ready w1 args2 [two_loans]
  ∧ main args2 w1 = (w2, Returned tt)
  ∧ raw_count w1 (args_duckdb args1) (args_table args1)
    = Some (sum_list (n_rows <$> [one_loan]))
  ∧ raw_count w2 (args_duckdb args1) (args_table args1)
    = Some (sum_list (n_rows <$> [one_loan]) + sum_list (n_rows <$> [two_loans])).
Proof.
  intros args1 args2 w w1 w2.
  assert (source_ready w args1 [one_loan]) as Hs1.
  { split; [done|]. split; [done|]. repeat constructor. }
  assert ((main args1 w).2 = Returned tt) as Hrun1 by (vm_compute; reflexivity).
  apply pair_with_snd in Hrun1. fold w1 in Hrun1.
  assert (source_ready w1 args2 [two_loans]) as Hs2.
  { split; [done|]. split; [done|]. repeat constructor. }
  assert ((main args2 w1).2 = Returned tt) as Hrun2 by (vm_compute; reflexivity).
  apply pair_with_snd in Hrun2. fold w2 in Hrun2.
  split; [reflexivity|]. split; [exact Hs1|]. split; [exact Hrun1|].
  split; [exact Hs2|]. split; [exact Hrun2|].
  exact (incremental_twice args1 args2 w w1 w2 [one_loan] [two_loans]
           eq_refl eq_refl eq_refl eq_refl eq_refl Hs1 Hrun1 Hs2 Hrun2).
Defined.

(** C5 fails on the code: after an incremental run of [book.xlsx] (one
    row, three columns with the provenance pair), an incremental run of
    [data/b.xlsx] (two other rows, four columns) raises DuckDB's binder
    error, and the RAW table keeps one row instead of three. *)
Lemma incremental_rejects_wider_snapshot :
  let first := main (file_args "book.xlsx" incremental) source_world in
  let second := main (file_args "data/b.xlsx" incremental) first.1 in
  first.2 = Returned tt
  ∧ raw_count first.1 "db" "raw_loans" = Some 1
  ∧ second.2 = Raised (DuckDBError BinderException)
  ∧ raw_count second.1 "db" "raw_loans" = Some 1
  ∧ n_rows one_loan + n_rows two_loans_with_purpose = 3.
Proof. vm_compute. repeat split; reflexivity. Qed.

(** * Further properties of the code *)

(** ** [load_to_duckdb] *)

(** A failed [incremental] load on a concrete store: the snapshot is
    not Parquet, the table keeps its row. *)
Lemma incremental_failure_keeps_tables_witness :
  let r := load_to_duckdb "bad.parquet" "db" "raw_loans" incremental stale_world in
  r = (r.1, Raised (DuckDBError InvalidInputException))
  ∧ table_at r.1 "db" "raw" "raw_loans" = table_at stale_world "db" "raw" "raw_loans".
Proof.
  intros r. split; [vm_compute; reflexivity|].
  apply (incremental_failure_keeps_tables stale_world "bad.parquet" "db"
           "raw_loans" r.1 (DuckDBError InvalidInputException)).
  vm_compute. reflexivity.
Defined.

Lemma load_to_duckdb_returned_inv_witness :
  let r := load_to_duckdb "good.parquet" "db" "raw_loans" incremental stale_world in
  r = (r.1, Returned PyNone)
  ∧ PyNone = PyNone
  ∧ ("db" ∉ unreachable stale_world)
  ∧ (∃ snap, raw_files stale_world !! "good.parquet" = Some (ParquetFile snap)
       ∧ ∀ tbl, incremental = incremental →
                table_at stale_world "db" "raw" "raw_loans" = Some tbl →
                n_columns snap = n_columns tbl).
Proof.
  intros r. split; [vm_compute; reflexivity|].
  apply (load_to_duckdb_returned_inv stale_world "good.parquet" "db" "raw_loans"
           incremental r.1 PyNone).
  vm_compute. reflexivity.
Defined.






(** ** [validate_data_quality] *)

Lemma contents_kept_refl (w : World) : contents_kept w w.
Proof. by repeat split. Qed.

Lemma contents_kept_trans (w1 w2 w3 : World) :
  contents_kept w1 w2 → contents_kept w2 w3 → contents_kept w1 w3.
Proof.
  intros (Hu1 & Hr1 & Hb1 & Ht1) (Hu2 & Hr2 & Hb2 & Ht2).
  repeat split; try congruence; intros store s n; by rewrite Ht2, Ht1.
Qed.

Lemma connect_keeps_contents (path : string) : preserves contents_kept (connect path).
Proof.
  intros w. unfold connect. case_bool_decide; simpl.
  - apply contents_kept_refl.
  - repeat split. intros store s n.
    destruct (decide (store = path)) as [->|Hne].
    + by rewrite table_at_set.
    + unfold table_at. by rewrite database_at_set_ne.
Qed.

Lemma print_keeps_contents (l : line) : preserves contents_kept (print l).
Proof. intros w. by repeat split. Qed.

Lemma select_count_keeps_contents (con s n : string) :
  preserves contents_kept (select_count con s n).
Proof.
  intros w. unfold select_count, bind, reading.
  destruct (table_at w con s n); apply contents_kept_refl.
Qed.

Lemma raise_if_zero_keeps_contents (count : nat) (msg : string) :
  preserves contents_kept (raise_if_zero count msg).
Proof.
  intros w. unfold raise_if_zero.
  destruct (Nat.eqb count 0); apply contents_kept_refl.
Qed.

(** The gate only reads: whatever its outcome, every table of every
    database file, every snapshot file and every bucket is as before. *)
Theorem gate_only_reads (root : string) (w : World) :
  contents_kept w (validate_data_quality root w).1.
Proof.
  revert w. change (preserves contents_kept (validate_data_quality root)).
  unfold validate_data_quality.
  apply (preserves_try_reraise _ contents_kept_trans);
    [|intros e; apply print_keeps_contents].
  repeat first
    [ apply print_keeps_contents
    | apply select_count_keeps_contents
    | apply raise_if_zero_keeps_contents
    | apply connect_keeps_contents
    | refine (preserves_ret _ contents_kept_refl _)
    | refine (preserves_bind _ contents_kept_trans _ _ _ _); [|intros ?] ].
Qed.

(** With the store open and one of the three canonical tables missing,
    the gate raises DuckDB's catalog error: the counts are all read
    before any of them is compared, so not even an empty RAW table is
    reported as empty. *)
Theorem gate_missing_table (root : string) (w : World) (l : layer) :
  duckdb_path (get_project_paths root) ∉ unreachable w →
  table_at w (duckdb_path (get_project_paths root))
    (canonical_table l).1 (canonical_table l).2 = None →
  (validate_data_quality root w).2 = Raised (DuckDBError CatalogException).
Proof.
  intros Hreach Hmissing. apply validate_missing_table; [done|].
  unfold counts_at. set (store := duckdb_path (get_project_paths root)) in *.
  destruct l; simpl in Hmissing.
  - by rewrite Hmissing.
  - destruct (table_at w store "raw" "raw_loans"); [|done].
    simpl. by rewrite Hmissing.
  - destruct (table_at w store "raw" "raw_loans"); [|done].
    destruct (table_at w store "silver" "silver_loans"); [|done].
    simpl. by rewrite Hmissing.
Qed.

Lemma gate_missing_table_witness :
  (duckdb_path (get_project_paths "/srv") ∉ unreachable half_built_world)
  ∧ table_at half_built_world (duckdb_path (get_project_paths "/srv"))
      (canonical_table SILVER).1 (canonical_table SILVER).2 = None
  ∧ n_rows <$> table_at half_built_world (duckdb_path (get_project_paths "/srv"))
                 "raw" "raw_loans" = Some 0
  ∧ (validate_data_quality "/srv" half_built_world).2
    = Raised (DuckDBError CatalogException).
Proof.
  split; [by vm_compute|]. split; [reflexivity|]. split; [reflexivity|].
  apply (gate_missing_table "/srv" half_built_world SILVER);
    [by vm_compute | reflexivity].
Defined.

Lemma try_reraise_reports {A} (body : Py A) (report : exn → line) (w : World) :
  match try_reraise body (λ e, print (report e)) w with
  | (w', Returned a) => body w = (w', Returned a)
  | (w', Raised e) =>
      ∃ w0, body w = (w0, Raised e) ∧ w' = say (report e) w0
  end.
Proof.
  unfold try_reraise. destruct (body w) as [w0 [a|e]]; [done|].
  simpl. eauto.
Qed.

(** The gate swallows nothing: when it raises, the exception is the one
    raised inside, and the last line printed names it; when it returns,
    it returns [True], and the last line printed says the validation
    passed. *)
Theorem gate_reports_outcome (root : string) (w : World) :
  match validate_data_quality root w with
  | (w', Returned b) => b = true ∧ last (stdout w') = Some ValidationPassed
  | (w', Raised e) => last (stdout w') = Some (ValidationFailed e)
  end.
Proof.
  unfold validate_data_quality. cbv zeta.
  match goal with
  | |- context [try_reraise ?b _ w] =>
      pose proof (try_reraise_reports b ValidationFailed w) as Hrep;
      set (body := b) in *
  end.
  destruct (try_reraise body (λ e, print (ValidationFailed e)) w)
    as [w' [b|e]].
  - subst body. revert Hrep. unfold bind at 1. unfold connect.
    case_bool_decide; [done|]. py_simpl.
    repeat (match goal with
            | |- context [match tables ?d !! ?k with _ => _ end] =>
                destruct (tables d !! k); py_simpl; [|done]
            | |- context [Nat.eqb ?n 0] =>
                destruct (Nat.eqb n 0); py_simpl; [done|]
            end).
    intros [= <- <-]. split; [done|]. unfold say. simpl. by rewrite last_snoc.
  - destruct Hrep as (w0 & _ & ->). unfold say. simpl. by rewrite last_snoc.
Qed.

(** ** [run_ingestion] *)

Lemma run_ingestion_unfold (root : string) (params_mode : option string) (w : World) :
  run_ingestion root params_mode w
  = match ingest (command_of root w params_mode)
            (say (RunningIngestion (ingestion_mode_of w params_mode)) w) with
    | (w', Returned _) => (say IngestionCompleted w', Returned true)
    | (w', Raised e) =>
        (say (IngestionFailed (CalledProcessError e)) w',
         Raised (CalledProcessError e))
    end.
Proof.
  unfold run_ingestion, try_reraise, subprocess_run, command_of,
    ingestion_mode_of, getenv, bind, reading, print, update, ret.
  simpl.
  destruct (ingest _ _) as [w' [[]|e]]; reflexivity.
Qed.

(** [run_ingestion] returns [True] exactly when the script it starts
    ends without an exception; it never returns [False].  Otherwise it
    prints the failure and raises [CalledProcessError] around the
    script's exception, and nothing else.  The script runs with the
    command assembled from the context's mode and the environment. *)
Theorem run_ingestion_outcome (root : string) (params_mode : option string)
  (w : World) :
  let child := ingest (command_of root w params_mode)
                 (say (RunningIngestion (ingestion_mode_of w params_mode)) w) in
  let r := run_ingestion root params_mode w in
  r.2 = match child.2 with
        | Returned _ => Returned true
        | Raised e => Raised (CalledProcessError e)
        end
  ∧ r.2 ≠ Returned false
  ∧ (∀ e, r.2 = Raised e →
          (∃ cause, e = CalledProcessError cause)
          ∧ IngestionFailed e ∈ stdout r.1).
Proof.
  intros child r. subst r. rewrite run_ingestion_unfold. fold child.
  destruct child as [w' [[]|e]]; simpl.
  - split; [done|]. split; [done|]. intros e [=].
  - split; [done|]. split; [done|]. intros e' [= <-].
    split; [by eexists|]. set_solver.
Qed.

(** A run without [--prod] never reaches the upload: it is framed by
    any relation closed under the other elementary updates. *)
Section NoMirror.
Variable R : World → World → Prop.
Variable t : string.
Hypothesis R_refl : ∀ w, R w w.
Hypothesis R_trans : ∀ w1 w2 w3, R w1 w2 → R w2 w3 → R w1 w3.
Hypothesis R_say : ∀ l w, R w (say l w).
Hypothesis R_tick : ∀ w, R w (with_ticks S w).
Hypothesis R_draw : ∀ w, R w (with_draws S w).
Hypothesis R_mkdir : ∀ d w, R w (with_directories (λ ds, {[d]} ∪ ds) w).
Hypothesis R_write : ∀ p f w, R w (with_raw_files <[p := f]> w).
Hypothesis R_store : ∀ con d w,
  (∀ k, k ≠ ("raw", t) → tables d !! k = tables (database_at w con) !! k) →
  R w (set_database con d w).

Lemma main_without_prod_kept (args : namespace) :
  args_table args = t → args_prod args = false → preserves R (main args).
Proof.
  intros Ht Hprod. unfold main. rewrite Ht, Hprod.
  refine (preserves_bind _ R_trans _ _ _ _); [by apply print_kept|intros ?].
  refine (preserves_bind _ R_trans _ _ _ _);
    [by apply load_excel_files_kept|intros ?].
  refine (preserves_bind _ R_trans _ _ _ _); [by apply print_kept|intros ?].
  refine (preserves_bind _ R_trans _ _ _ _);
    [by apply write_parquet_kept|intros ?].
  refine (preserves_bind _ R_trans _ _ _ _);
    [refine (preserves_ret _ R_refl _)|intros ?].
  refine (preserves_bind _ R_trans _ _ _ _);
    [by apply load_to_duckdb_kept | intros ?; by apply print_kept].
Qed.

Lemma ingest_without_prod_kept (argv : command_line) :
  default "raw_loans" (opt_table argv) = t → opt_prod argv = false →
  preserves R (ingest argv).
Proof.
  intros Ht Hprod w. unfold ingest, bind.
  destruct (parse_args argv w) as [w1 [args|e]] eqn:Hparse.
  - apply parse_args_returned in Hparse as (-> & Hargs).
    apply main_without_prod_kept; by rewrite Hargs.
  - apply parse_args_raised in Hparse as (-> & _). apply R_refl.
Qed.
End NoMirror.

Lemma command_of_prod (root : string) (w : World) (params_mode : option string) :
  opt_prod (command_of root w params_mode)
  = bool_decide (environ w !! "ENVIRONMENT" = Some "production")
    && truthy (environ w !! "RAW_S3_BUCKET").
Proof. reflexivity. Qed.

(** Without a bucket in [RAW_S3_BUCKET] (unset, or empty),
    [run_ingestion] starts the script without [--prod], also when
    [ENVIRONMENT] is [production]: whatever the outcome of the run, no
    bucket is written. *)
Theorem run_ingestion_without_bucket_skips_mirror (root : string)
  (params_mode : option string) (w : World) :
  truthy (environ w !! "RAW_S3_BUCKET") = false →
  opt_prod (command_of root w params_mode) = false
  ∧ buckets (run_ingestion root params_mode w).1 = buckets w.
Proof.
  intros Hbucket.
  assert (opt_prod (command_of root w params_mode) = false) as Hprod.
  { rewrite command_of_prod, Hbucket. apply andb_false_r. }
  split; [exact Hprod|].
  rewrite run_ingestion_unfold.
  pose proof (ingest_without_prod_kept (λ w w', buckets w' = buckets w)
                (default "raw_loans" (opt_table (command_of root w params_mode))))
    as Hkept.
  specialize (Hkept (λ _, eq_refl)).
  specialize (Hkept (λ w1 w2 w3 H12 H23, eq_trans H23 H12)).
  specialize (Hkept (λ _ _, eq_refl) (λ _, eq_refl) (λ _, eq_refl)
                (λ _ _, eq_refl) (λ _ _ _, eq_refl) (λ _ _ _ _, eq_refl)
                (command_of root w params_mode) eq_refl Hprod
                (say (RunningIngestion (ingestion_mode_of w params_mode)) w)).
  destruct (ingest _ _) as [w' [[]|e]]; exact Hkept.
Qed.

Lemma run_ingestion_without_bucket_skips_mirror_witness :
  truthy (environ production_world !! "RAW_S3_BUCKET") = false
  ∧ environ production_world !! "ENVIRONMENT" = Some "production"
  ∧ (run_ingestion "/srv" None production_world).2 = Returned true
  ∧ opt_prod (command_of "/srv" production_world None) = false
  ∧ buckets (run_ingestion "/srv" None production_world).1
    = buckets production_world.
Proof.
  split; [reflexivity|]. split; [reflexivity|].
  split; [vm_compute; reflexivity|].
  apply (run_ingestion_without_bucket_skips_mirror "/srv" None production_world).
  reflexivity.
Defined.

(** A mode string that is neither [full_refresh] nor [incremental],
    from the context or from [INGESTION_MODE], is passed on unchecked:
    the script's argument parser exits with status 2, and
    [run_ingestion] raises [CalledProcessError] having read no source
    and written nothing; it has only printed, the failure among the
    lines. *)
Theorem run_ingestion_unknown_mode (root : string) (params_mode : option string)
  (w : World) :
  ingestion_mode_of w params_mode ≠ "full_refresh" →
  ingestion_mode_of w params_mode ≠ "incremental" →
  let r := run_ingestion root params_mode w in
  r.2 = Raised (CalledProcessError (SystemExit 2))
  ∧ only_clock_and_output w r.1 ∧ ticks r.1 = ticks w
  ∧ IngestionFailed (CalledProcessError (SystemExit 2)) ∈ stdout r.1.
Proof.
  intros Hfull Hincr r. subst r. rewrite run_ingestion_unfold.
  apply String.eqb_neq in Hfull, Hincr.
  assert (ingest (command_of root w params_mode)
            (say (RunningIngestion (ingestion_mode_of w params_mode)) w)
          = (say (RunningIngestion (ingestion_mode_of w params_mode)) w,
             Raised (SystemExit 2))) as ->.
  { unfold ingest, parse_args, parse_mode, command_of, ingestion_command.
    py_simpl. cbn [opt_mode]. rewrite Hfull, Hincr. by py_simpl. }
  simpl. split; [done|]. split; [by repeat split|]. split; [done|].
  set_solver.
Qed.

Lemma run_ingestion_unknown_mode_witness :
  ingestion_mode_of nightly_world None ≠ "full_refresh"
  ∧ ingestion_mode_of nightly_world None ≠ "incremental"
  ∧ (run_ingestion "/srv" None nightly_world).2
    = Raised (CalledProcessError (SystemExit 2)).
Proof.
  assert (ingestion_mode_of nightly_world None ≠ "full_refresh") as Hfull.
  { vm_compute. discriminate. }
  assert (ingestion_mode_of nightly_world None ≠ "incremental") as Hincr.
  { vm_compute. discriminate. }
  split; [exact Hfull|]. split; [exact Hincr|].
  exact (proj1 (run_ingestion_unknown_mode "/srv" None nightly_world Hfull Hincr)).
Defined.

(** ** [load_excel_files]: what it raises *)





Example no_match_message :
  (load_excel_files None (Some "data") (Some "new_*.xlsx") source_world).2
  = Raised (FileNotFoundError
              "No Excel files found in: data with pattern: new_*.xlsx").
Proof. vm_compute. reflexivity. Qed.

(** A single path that exists and is not a spreadsheet (another kind of
    file, or a directory) makes the reader raise after the loading line
    is printed; nothing else changes. *)
Theorem load_excel_files_unreadable_file (p : string)
  (excel_dir excel_pattern : option string) (w : World) :
  p ≠ "" →
  sources w !! p = Some NotASpreadsheet
  ∨ (sources w !! p = None ∧ p ∈ directories w) →
  load_excel_files (Some p) excel_dir excel_pattern w
  = (say (LoadingSingle p) w, Raised (ExcelReadError p)).
Proof.
  intros Hp Hfile. unfold load_excel_files.
  apply String.eqb_neq in Hp. simpl truthy. rewrite Hp. simpl negb.
  py_simpl. change (default "" (Some p)) with p.
  destruct Hfile as [Hfile|[Hfile Hdir]]; rewrite Hfile.
  - rewrite bool_decide_is_Some_Some. py_simpl.
    unfold read_excel. simpl. by rewrite Hfile.
  - rewrite bool_decide_is_Some_None, (bool_decide_eq_true_2 (_ ∈ _)) by done.
    py_simpl. unfold read_excel. simpl. by rewrite Hfile.
Qed.

Lemma load_excel_files_unreadable_file_witness :
  "data" ≠ ""
  ∧ (sources source_world !! "data" = Some NotASpreadsheet
     ∨ (sources source_world !! "data" = None ∧ "data" ∈ directories source_world))
  ∧ load_excel_files (Some "data") None None source_world
    = (say (LoadingSingle "data") source_world, Raised (ExcelReadError "data")).
Proof.
  assert (sources source_world !! "data" = Some NotASpreadsheet
          ∨ (sources source_world !! "data" = None
             ∧ "data" ∈ directories source_world)) as Hfile.
  { right. split; [reflexivity | by vm_compute]. }
  split; [done|]. split; [exact Hfile|].
  apply (load_excel_files_unreadable_file "data" None None source_world);
    [done | exact Hfile].
Defined.

(** ** [write_parquet_with_metadata] *)

(** What [write_parquet_with_metadata] wrote reads back: when it
    returns, the path it returns holds the frame; the snapshot directory
    exists; one clock reading and one uuid were used; every other
    snapshot file and the whole store are as before. *)
Theorem snapshot_round_trip (df : DataFrame) (raw_dir table_name : string)
  (m : mode) (w w' : World) (path : string) :
  write_parquet_with_metadata df raw_dir table_name m w = (w', Returned path) →
  read_parquet path w' = (w', Returned df)
  ∧ raw_dir ∈ directories w'
  ∧ ticks w' = S (ticks w) ∧ draws w' = S (draws w)
  ∧ (∀ p, p ≠ path → raw_files w' !! p = raw_files w !! p)
  ∧ databases w' = databases w.
Proof.
  rewrite write_parquet_returns. intros [= <- <-].
  split.
  { unfold read_parquet. rewrite after_snapshot_raw_files.
    by rewrite lookup_insert_eq. }
  split; [simpl; set_solver|]. split; [done|]. split; [done|].
  split; [|done]. intros p Hp. rewrite after_snapshot_raw_files.
  by rewrite lookup_insert_ne.
Qed.

Lemma snapshot_round_trip_witness :
  let r := write_parquet_with_metadata one_loan "raw_data" "raw_loans"
             full_refresh source_world in
  r = (r.1, Returned "raw_data/raw_loans_full_refresh_20250309_140559_deadbeef.parquet")
  ∧ read_parquet "raw_data/raw_loans_full_refresh_20250309_140559_deadbeef.parquet" r.1
    = (r.1, Returned one_loan)
  ∧ "raw_data" ∈ directories r.1.
Proof.
  intros r.
  assert (r.2 = Returned "raw_data/raw_loans_full_refresh_20250309_140559_deadbeef.parquet")
    as Hr by (vm_compute; reflexivity).
  apply pair_with_snd in Hr. split; [exact Hr|].
  destruct (snapshot_round_trip one_loan "raw_data" "raw_loans" full_refresh
              source_world r.1 _ Hr) as (Hread & Hdir & _).
  by split.
Defined.

(** ** Whole runs *)

(** A [full_refresh] run that returns leaves the RAW table equal to the
    unified frame of its source, cell for cell, whatever the table held
    before, and its last line says that the ingestion completed. *)
Theorem full_refresh_run_loads_unified_frame (args : namespace) (w w' : World)
  (frames : list DataFrame) :
  args_mode args = full_refresh →
  source_ready w args frames →
  main args w = (w', Returned tt) →
  table_at w' (args_duckdb args) "raw" (args_table args)
  = Some (loaded_frame w args frames)
  ∧ last (stdout w') = Some IngestionCompleted.
Proof.
  intros Hmode Hsource Hmain.
  destruct (main_returned_load args w w' frames Hsource Hmain)
    as (w4 & w5 & path & v & Hload & -> & Hfile & Hdb).
  rewrite Hmode in Hload.
  destruct (load_returned_outcome _ _ _ _ _ _ _ Hload)
    as (snap & Hsnap & Htable & _).
  rewrite Hfile in Hsnap. injection Hsnap as <-.
  split; [|simpl; by rewrite last_snoc].
  rewrite table_at_say, Htable.
  by destruct (bool_decide _), (table_at w4 _ _ _).
Qed.

Lemma full_refresh_run_loads_unified_frame_witness :
  let args := workbook_args full_refresh in
  let w := with_table "db" "raw" "raw_loans" two_loans_with_purpose source_world in
  let w' := (main args w).1 in
  args_mode args = full_refresh
  ∧ source_ready w args [one_loan]
  ∧ main args w = (w', Returned tt)
  ∧ table_at w' (args_duckdb args) "raw" (args_table args)
    = Some (loaded_frame w args [one_loan])
  ∧ last (stdout w') = Some IngestionCompleted.
Proof.
  intros args w w'.
  assert (source_ready w args [one_loan]) as Hsource.
  { split; [done|]. split; [done|]. repeat constructor. }
  assert ((main args w).2 = Returned tt) as Hrun by (vm_compute; reflexivity).
  apply pair_with_snd in Hrun. fold w' in Hrun.
  split; [reflexivity|]. split; [exact Hsource|]. split; [exact Hrun|].
  exact (full_refresh_run_loads_unified_frame args w w' [one_loan] eq_refl
           Hsource Hrun).
Defined.

(** An [incremental] run repeated with the same options from an absent
    table appends the same source twice: no row is recognised as
    already loaded, and the table ends with twice the source's rows. *)
Theorem incremental_rerun_doubles (args : namespace) (w : World)
  (frames : list DataFrame) :
  args_mode args = incremental →
  source_ready w args frames →
  args_duckdb args ∉ unreachable w →
  mirror_ready w args →
  table_at w (args_duckdb args) "raw" (args_table args) = None →
  ∃ w1 w2,
    main args w = (w1, Returned tt)
    ∧ main args w1 = (w2, Returned tt)
    ∧ raw_count w2 (args_duckdb args) (args_table args)
      = Some (2 * sum_list (n_rows <$> frames)).
Proof.
  intros Hmode Hsource Hreach Hmirror Habsent.
  destruct (main_incremental args w frames Hmode Hsource Hreach Hmirror)
    as (w1 & Hrun1 & Htable1).
  { intros tbl Htbl. congruence. }
  rewrite Habsent in Htable1. simpl in Htable1.
  pose proof (main_inputs_kept args w w1 _ Hrun1) as Hkept.
  pose proof (source_ready_kept w w1 args frames Hkept Hsource) as Hsource1.
  pose proof (mirror_ready_kept w w1 args Hkept Hmirror) as Hmirror1.
  assert (args_duckdb args ∉ unreachable w1) as Hreach1.
  { destruct Hkept as (_ & _ & _ & -> & _). exact Hreach. }
  destruct (main_incremental args w1 frames Hmode Hsource1 Hreach1 Hmirror1)
    as (w2 & Hrun2 & Htable2).
  { rewrite Htable1. intros tbl [= <-]. unfold n_columns.
    by rewrite (columns_loaded_frame_kept w w1). }
  exists w1, w2. split; [exact Hrun1|]. split; [exact Hrun2|].
  rewrite Htable1 in Htable2. simpl in Htable2.
  unfold raw_count. rewrite Htable2. simpl. f_equal.
  unfold n_rows at 1. simpl. rewrite length_app.
  fold (n_rows (loaded_frame w args frames))
    (n_rows (loaded_frame w1 args frames)).
  rewrite !n_rows_loaded_frame by done. lia.
Qed.

Lemma incremental_rerun_doubles_witness :
  let args := workbook_args incremental in
  let w := source_world in
  args_mode args = incremental
  ∧ source_ready w args [one_loan]
  ∧ (args_duckdb args ∉ unreachable w)
  ∧ mirror_ready w args
  ∧ table_at w (args_duckdb args) "raw" (args_table args) = None
  ∧ ∃ w1 w2,
      main args w = (w1, Returned tt)
      ∧ main args w1 = (w2, Returned tt)
      ∧ raw_count w2 (args_duckdb args) (args_table args)
        = Some (2 * sum_list (n_rows <$> [one_loan])).
Proof.
  intros args w.
  assert (source_ready w args [one_loan]) as Hsource.
  { split; [done|]. split; [done|]. repeat constructor. }
  assert (args_duckdb args ∉ unreachable w) as Hreach by (by vm_compute).
  assert (mirror_ready w args) as Hmirror by (intros Hp; discriminate Hp).
  split; [reflexivity|]. split; [exact Hsource|]. split; [exact Hreach|].
  split; [exact Hmirror|]. split; [reflexivity|].
  exact (incremental_rerun_doubles args w [one_loan] eq_refl Hsource Hreach
           Hmirror eq_refl).
Defined.

(** ** [upload_to_s3] *)

Lemma rstrip_slash_slashes (k : nat) : rstrip_slash (slashes k) = EmptyString.
Proof. induction k as [|k IH]; [done|]. simpl. by rewrite IH. Qed.

Lemma rstrip_slash_app_slashes (s : string) (k : nat) :
  rstrip_slash (s +:+ slashes k) = rstrip_slash s.
Proof.
  induction s as [|c s IH].
  - apply rstrip_slash_slashes.
  - rewrite string_app_cons. simpl. by rewrite IH.
Qed.

Lemma rstrip_slash_last (s : string) : last_char (rstrip_slash s) ≠ Some "/"%char.
Proof.
  induction s as [|c s IH]; [done|]. simpl.
  destruct (rstrip_slash s) as [|d rest] eqn:Hrest.
  - destruct (Ascii.eqb c "/") eqn:Hc; [done|]. simpl.
    apply Ascii.eqb_neq in Hc. congruence.
  - simpl in *. by destruct (last_char rest).
Qed.

Lemma rstrip_slash_decompose (s : string) :
  ∃ k, s = rstrip_slash s +:+ slashes k.
Proof.
  induction s as [|c s [k IH]]; [by exists 0|]. simpl.
  destruct (rstrip_slash s) as [|d rest] eqn:Hrest.
  - destruct (Ascii.eqb c "/") eqn:Hc.
    + apply Ascii.eqb_eq in Hc. subst c. exists (S k). simpl. by rewrite IH at 1.
    + exists k. simpl. by rewrite IH at 1.
  - exists k. rewrite string_app_cons. by rewrite IH at 1.
Qed.

(** [s.rstrip('/')] is the string without the slashes that end it: the
    string is the result followed by slashes only, and the result does
    not end in a slash.  So any number of slashes after [--s3_prefix]
    gives the same object key, and a prefix of slashes only gives a key
    that starts with a slash. *)
Theorem s3_key_trailing_slashes (s3_prefix parquet_path : string) (k : nat) :
  (∃ n, s3_prefix = rstrip_slash s3_prefix +:+ slashes n)
  ∧ last_char (rstrip_slash s3_prefix) ≠ Some "/"%char
  ∧ s3_key (s3_prefix +:+ slashes k) parquet_path = s3_key s3_prefix parquet_path
  ∧ s3_key (slashes k) parquet_path = "/" +:+ basename parquet_path.
Proof.
  split; [apply rstrip_slash_decompose|]. split; [apply rstrip_slash_last|].
  unfold s3_key. by rewrite rstrip_slash_app_slashes, rstrip_slash_slashes.
Qed.

(** [upload_to_s3] either returns, and then boto3 is there, the bucket
    is named and writable, the snapshot exists, and the bucket holds the
    snapshot under the key while the local files are as before; or it
    raises one of its three failures and leaves the world untouched.
    The boto3 check comes first: without boto3 the error is the
    [RuntimeError] even when the bucket name is missing as well. *)
Theorem upload_to_s3_outcome (parquet_path s3_bucket s3_prefix : string)
  (w : World) :
  let r := upload_to_s3 parquet_path s3_bucket s3_prefix w in
  ((r.2 = Returned tt
    ∧ boto3 w = true ∧ s3_bucket ≠ ""
    ∧ ∃ file objects,
        raw_files w !! parquet_path = Some file
        ∧ buckets w !! s3_bucket = Some objects
        ∧ buckets r.1
          = <[s3_bucket := <[s3_key s3_prefix parquet_path := file]> objects]>
              (buckets w)
        ∧ raw_files r.1 = raw_files w
        ∧ databases r.1 = databases w
        ∧ last (stdout r.1)
          = Some (UploadedToS3 s3_bucket (s3_key s3_prefix parquet_path)))
   ∨ (∃ e, r = (w, Raised e) ∧ mirror_failure e))
  ∧ (boto3 w = false →
     r = (w, Raised (RuntimeError
                       "boto3 not installed. Install boto3 or remove --prod"))).
Proof.
  unfold upload_to_s3, mirror_failure, s3_key. py_simpl.
  destruct (boto3 w) eqn:Hboto; py_simpl.
  2:{ split; [|done]. right. eexists. split; [reflexivity|]. by left. }
  split; [|done].
  destruct (String.eqb s3_bucket "") eqn:Hname.
  { right. eexists. split; [reflexivity|]. right. by left. }
  apply String.eqb_neq in Hname. unfold upload_file. py_simpl.
  destruct (raw_files w !! parquet_path) as [file|] eqn:Hfile.
  2:{ right. eexists. split; [reflexivity|]. right. right. eauto. }
  destruct (buckets w !! s3_bucket) as [objects|] eqn:Hobjects.
  2:{ right. eexists. split; [reflexivity|]. right. right. eauto. }
  left. split; [done|]. split; [done|]. split; [done|].
  exists file, objects. simpl. repeat split. by rewrite last_snoc.
Qed.

(** ** The suffix of a snapshot name *)

Lemma hex_digits_app (b a : nat) (u : N) :
  hex_digits (b + a) u
  = hex_digits a (u / 16 ^ N.of_nat b)%N +:+ hex_digits b u.
Proof.
  revert u. induction b as [|b IH]; intros u.
  - simpl. rewrite N.div_1_r. generalize (hex_digits a u).
    intros s. induction s as [|c s IHs]; [done|]. rewrite string_app_cons.
    by rewrite <- IHs.
  - change (hex_digits (S b + a) u)
      with (hex_digits (b + a) (u / 16)%N
            +:+ String (hex_char (u mod 16)%N) EmptyString).
    change (hex_digits (S b) u)
      with (hex_digits b (u / 16)%N
            +:+ String (hex_char (u mod 16)%N) EmptyString).
    rewrite IH, string_app_assoc. do 2 f_equal.
    rewrite Nat2N.inj_succ, N.pow_succ_r', N.Div0.div_div. done.
Qed.

Lemma prefix_app (a b : string) : prefix (String.length a) (a +:+ b) = a.
Proof. induction a as [|c a IH]; simpl; [by destruct b|]. by rewrite IH. Qed.

Lemma hex_char_inj (a b : N) :
  (a < 16)%N → (b < 16)%N → hex_char a = hex_char b → a = b.
Proof.
  intros Ha Hb.
  assert (∀ n, (n < 16)%N →
               n ∈ [0; 1; 2; 3; 4; 5; 6; 7; 8; 9; 10; 11; 12; 13; 14; 15]%N)
    as Hcases.
  { intros n Hn. destruct n as [|p]; [set_solver|].
    do 4 (try destruct p as [p|p|]); try lia; set_solver. }
  pose proof (Hcases a Ha) as Hina. pose proof (Hcases b Hb) as Hinb.
  repeat (apply elem_of_cons in Hina as [->|Hina]);
    [..|by apply elem_of_nil in Hina];
    repeat (apply elem_of_cons in Hinb as [->|Hinb]);
    try (by apply elem_of_nil in Hinb);
    intros Heq; first [reflexivity | discriminate Heq].
Qed.

Lemma hex_digits_inj (k : nat) (u v : N) :
  hex_digits k u = hex_digits k v ↔ (u mod 16 ^ N.of_nat k = v mod 16 ^ N.of_nat k)%N.
Proof.
  revert u v. induction k as [|k IH]; intros u v.
  { simpl. by rewrite !N.mod_1_r. }
  change (hex_digits (S k) u)
    with (hex_digits k (u / 16)%N +:+ String (hex_char (u mod 16)%N) EmptyString).
  change (hex_digits (S k) v)
    with (hex_digits k (v / 16)%N +:+ String (hex_char (v mod 16)%N) EmptyString).
  rewrite Nat2N.inj_succ, N.pow_succ_r'.
  rewrite !N.Div0.mod_mul_r.
  assert ((u mod 16 < 16)%N ∧ (v mod 16 < 16)%N) as [Hu Hv]
    by (split; apply N.mod_upper_bound; lia).
  assert (((u / 16) mod 16 ^ N.of_nat k < 16 ^ N.of_nat k)%N
          ∧ ((v / 16) mod 16 ^ N.of_nat k < 16 ^ N.of_nat k)%N) as [Hu' Hv'].
  { split; apply N.mod_upper_bound; apply N.pow_nonzero; lia. }
  split.
  - intros Heq. apply string_app_inj_r in Heq as [Hhead Hlast]; [|done].
    apply IH in Hhead. injection Hlast as Hlast.
    apply hex_char_inj in Hlast; [|done..]. by rewrite Hhead, Hlast.
  - intros Heq.
    assert ((u mod 16 = v mod 16)%N
            ∧ ((u / 16) mod 16 ^ N.of_nat k = (v / 16) mod 16 ^ N.of_nat k)%N)
      as [Hlow Hhigh].
    { revert Hu Hv Heq. clear.
      generalize (u mod 16)%N (v mod 16)%N ((u / 16) mod 16 ^ N.of_nat k)%N
        ((v / 16) mod 16 ^ N.of_nat k)%N.
      intros a b c d. lia. }
    apply IH in Hhigh. by rewrite Hlow, Hhigh.
Qed.

(** The eight characters [uuid.uuid4().hex[:8]] are the hexadecimal
    digits of the identifier's top 32 bits (its [time_low] field): of a
    128-bit identifier only these reach the snapshot's name, and two
    identifiers give the same suffix exactly when they agree there. *)
Theorem snapshot_suffix_is_top_32_bits (u v : N) :
  prefix 8 (hex u) = hex_digits 8 (u / 2 ^ 96)%N
  ∧ (prefix 8 (hex u) = prefix 8 (hex v)
     ↔ ((u / 2 ^ 96) mod 2 ^ 32 = (v / 2 ^ 96) mod 2 ^ 32)%N).
Proof.
  assert (∀ x, prefix 8 (hex x) = hex_digits 8 (x / 2 ^ 96)%N) as Hprefix.
  { intros x. unfold hex. change 32 with (24 + 8).
    rewrite hex_digits_app.
    change (16 ^ N.of_nat 24)%N with (2 ^ 96)%N.
    destruct (hex_digits_shape 8 (x / 2 ^ 96)%N) as [Hlen _].
    rewrite <- Hlen at 1. apply prefix_app. }
  split; [apply Hprefix|]. rewrite !Hprefix.
  change (2 ^ 32)%N with (16 ^ N.of_nat 8)%N. apply hex_digits_inj.
Qed.

(** ** What a run writes *)

(** [load_excel_files] only reads: whatever the source and whatever the
    outcome, no file, directory, store or bucket is changed and no
    identifier is drawn; only the clock is read and lines are printed. *)
Theorem source_loader_only_reads
  (excel_path excel_dir excel_pattern : option string) (w : World) :
  only_clock_and_output w (load_excel_files excel_path excel_dir excel_pattern w).1.
Proof.
  apply (load_excel_files_kept only_clock_and_output).
  - apply only_clock_and_output_refl.
  - apply only_clock_and_output_trans.
  - intros l w0. by repeat split.
  - intros w0. by repeat split.
Qed.

(** A run whose source cannot be loaded ends with the loader's
    exception and has written nothing: no directory, no snapshot, no
    store and no bucket is changed; only the clock was read and lines
    were printed. *)
Theorem run_source_failure_writes_nothing (args : namespace) (w w1 : World)
  (e : exn) :
  load_excel_files (args_excel args) (args_excel_dir args)
    (args_excel_pattern args)
    (say (Starting (args_mode args) (args_table args) (args_duckdb args)) w)
  = (w1, Raised e) →
  main args w = (w1, Raised e) ∧ only_clock_and_output w w1.
Proof.
  intros Hload. unfold main.
  set (w0 := say (Starting (args_mode args) (args_table args) (args_duckdb args)) w)
    in *.
  rewrite (bind_returned _ _ w w0 tt) by reflexivity.
  rewrite (bind_raised _ _ _ _ _ Hload). split; [done|].
  pose proof (load_excel_files_kept only_clock_and_output
                only_clock_and_output_refl only_clock_and_output_trans
                (λ l w', ltac:(by repeat split))
                (λ w', ltac:(by repeat split))
                (args_excel args) (args_excel_dir args) (args_excel_pattern args)
                w0) as Hread.
  rewrite Hload in Hread. simpl in Hread.
  eapply only_clock_and_output_trans; [|exact Hread]. by repeat split.
Qed.

Lemma run_source_failure_writes_nothing_witness :
  let args := file_args "lost.xlsx" full_refresh in
  let r := main args source_world in
  r.2 = Raised (FileNotFoundError "Excel file not found: lost.xlsx")
  ∧ only_clock_and_output source_world r.1.
Proof.
  intros args r.
  destruct (run_source_failure_writes_nothing args source_world
              (say (Starting full_refresh "raw_loans" "db") source_world)
              (FileNotFoundError "Excel file not found: lost.xlsx"))
    as [Hmain Hkept]; [reflexivity|].
  subst r. rewrite Hmain. by split.
Defined.
